(** * Support-knowledge ingestion pipeline

    A shallow embedding of [scripts/ingest_support_knowledge.py]:
    [extract_keywords], [filter_chunks], [generate_embeddings] and
    [index_to_opensearch], with the configuration values of [config.py]
    gathered in a record.

    - Text is a [string] whose characters are the code points
      U+0000..U+00FF; on that range [str.lower], [str.strip] and the
      regular-expression class [\w] are tabulated below as CPython 3
      classifies them.
    - The elements of the chunking service are records whose fields are the
      keys that the script reads; [None] stands for an absent key.
    - The embedding provider and the bulk call are functions handed to the
      pipeline; an exception is a value of their result type.
    - Of what the script prints, the report of [index_to_opensearch] is
      kept; the progress lines of the other functions and the pause between
      two provider calls are left out. *)

From Stdlib Require Import List String Ascii Bool Arith ZArith NArith Lia.
From Stdlib Require Import Sorted Permutation DecimalString DecimalNat.
From Stdlib Require Import DecimalN DecimalPos.
From Stdlib Require Import Floats.PrimFloat.
Import ListNotations.

Open Scope string_scope.
Open Scope list_scope.
Open Scope nat_scope.

(** ** Characters *)

Module PyChar.

Definition code (c : ascii) : N := N_of_ascii c.

Definition between (lo hi : N) (c : ascii) : bool :=
  ((lo <=? code c) && (code c <=? hi))%N.

(** The regular-expression class [[a-zA-Z]]. *)
Definition is_ascii_upper (c : ascii) : bool := between 65 90 c.
Definition is_ascii_lower (c : ascii) : bool := between 97 122 c.
Definition is_ascii_letter (c : ascii) : bool :=
  is_ascii_lower c || is_ascii_upper c.

(** The class [\w] of a [str] pattern: alphanumeric code points and the
    underscore. *)
Definition is_word (c : ascii) : bool :=
  between 48 57 c || between 65 90 c || between 95 95 c || between 97 122 c
  || between 170 170 c || between 178 179 c || between 181 181 c
  || between 185 186 c || between 188 190 c || between 192 214 c
  || between 216 246 c || between 248 255 c.

(** Characters removed by [str.strip()]. *)
Definition is_space (c : ascii) : bool :=
  between 9 13 c || between 28 32 c || between 133 133 c || between 160 160 c.

(** [str.lower()] on one character. *)
Definition lower (c : ascii) : ascii :=
  if is_ascii_upper c || between 192 214 c || between 216 222 c
  then ascii_of_N (code c + 32)
  else c.

End PyChar.

(** ** Strings *)

Module PyStr.

Definition chars (s : string) : list ascii := list_ascii_of_string s.
Definition of_chars (l : list ascii) : string := string_of_list_ascii l.

(** [s.lower()] *)
Definition lower (s : string) : string :=
  of_chars (map PyChar.lower (chars s)).

Fixpoint drop_while {A} (p : A -> bool) (l : list A) : list A :=
  match l with
  | [] => []
  | x :: l' => if p x then drop_while p l' else l
  end.

Fixpoint take_while {A} (p : A -> bool) (l : list A) : list A :=
  match l with
  | [] => []
  | x :: l' => if p x then x :: take_while p l' else []
  end.

(** [s.strip()] *)
Definition strip (s : string) : string :=
  of_chars
    (rev (drop_while PyChar.is_space
            (rev (drop_while PyChar.is_space (chars s))))).

Definition newline : ascii := ascii_of_N 10.

(** [s.split('\n')[0]] *)
Definition first_line (s : string) : string :=
  of_chars (take_while (fun c => negb (Ascii.eqb c newline)) (chars s)).

(** [sep.join(l)] *)
Definition join (sep : string) (l : list string) : string :=
  String.concat sep l.

(** [str(n)] for a non-negative integer. *)
Definition of_nat (n : nat) : string :=
  NilZero.string_of_uint (Nat.to_uint n).

(** Truth value of a [str]. *)
Definition truthy (s : string) : bool :=
  match s with EmptyString => false | String _ _ => true end.

Definition mem (w : string) (l : list string) : bool :=
  existsb (String.eqb w) l.

End PyStr.

(** ** The pattern [\b[a-zA-Z]{3,}\b] under [re.findall] *)

Module Regex.

Definition is_word_opt (o : option ascii) : bool :=
  match o with Some c => PyChar.is_word c | None => false end.

(** [\b]: exactly one of the two neighbouring positions holds a word
    character; outside the text counts as a non-word character. *)
Definition at_boundary (before after : option ascii) : bool :=
  xorb (is_word_opt before) (is_word_opt after).

(** The greedy repetition [{3,}] has consumed [k] letters of [s]; the closing
    [\b] is tried there, then at each shorter length down to 3. *)
Fixpoint backtrack (s : list ascii) (k : nat) : option (list ascii) :=
  match k with
  | 0 => None
  | S k' =>
      if 3 <=? k then
        if at_boundary (nth_error s k') (nth_error s k)
        then Some (firstn k s)
        else backtrack s k'
      else None
  end.

(** One match attempt at the position whose left neighbour is [prev] and
    whose remaining text is [s]. *)
Definition match_here (prev : option ascii) (s : list ascii)
  : option (list ascii) :=
  if at_boundary prev (hd_error s)
  then backtrack s (List.length (PyStr.take_while PyChar.is_ascii_letter s))
  else None.

(** The scan of [findall]: left to right, non-overlapping; after a match the
    search resumes at its end ([skip] counts the matched characters still to
    be passed over). No match can start at the end of the text. *)
Fixpoint scan (prev : option ascii) (skip : nat) (s : list ascii)
  : list (list ascii) :=
  match s with
  | [] => []
  | c :: s' =>
      match skip with
      | S n => scan (Some c) n s'
      | 0 =>
          match match_here prev s with
          | Some tok => tok :: scan (Some c) (List.length tok - 1) s'
          | None => scan (Some c) 0 s'
          end
      end
  end.

Definition findall (s : string) : list string :=
  map PyStr.of_chars (scan None 0 (PyStr.chars s)).

End Regex.

(** ** [collections.Counter] *)

Module Counter.

(** A counter is a dict: keys in insertion order, each with its count. *)
Definition t := list (string * nat).

(** [c[w] = c.get(w, 0) + 1]: an existing key keeps its place, a new key is
    appended. *)
Fixpoint add (w : string) (c : t) : t :=
  match c with
  | [] => [(w, 1)]
  | (k, n) :: c' =>
      if String.eqb k w then (k, S n) :: c' else (k, n) :: add w c'
  end.

(** [Counter(iterable)] *)
Definition of_list (ws : list string) : t :=
  fold_left (fun c w => add w c) ws [].

(** Insertion into a list sorted by descending count, before the first entry
    whose count is not larger. *)
Fixpoint insert (e : string * nat) (l : t) : t :=
  match l with
  | [] => [e]
  | e' :: l' =>
      if snd e' <=? snd e then e :: l else e' :: insert e l'
  end.

(** [sorted(items, key=itemgetter(1), reverse=True)]: stable, so entries with
    equal counts keep their dict order. *)
Fixpoint sorted_desc (l : t) : t :=
  match l with
  | [] => []
  | e :: l' => insert e (sorted_desc l')
  end.

(** [c.most_common(n)], which is [heapq.nlargest(n, c.items(), key=count)],
    that is the first [n] entries of the stable descending sort: entries
    with equal counts come in the order first encountered. *)
Definition most_common (n : nat) (c : t) : t :=
  firstn n (sorted_desc c).

End Counter.

(** ** [extract_keywords] *)

Definition stop_words : list string :=
  [ "the"; "a"; "an"; "and"; "or"; "but"; "in"; "on"; "at"; "to"; "for"; "of";
    "with"; "by"; "from"; "as"; "is"; "was"; "are"; "were"; "been"; "be";
    "have"; "has"; "had"; "do"; "does"; "did"; "will"; "would"; "could";
    "should"; "may"; "might"; "must"; "can"; "this"; "that"; "these"; "those";
    "i"; "you"; "he"; "she"; "it"; "we"; "they"; "what"; "which"; "who";
    "when"; "where"; "why"; "how"; "if"; "then"; "than"; "my"; "your"; "his";
    "her"; "its"; "our"; "their"; "me"; "him"; "us"; "them" ].

(** [re.findall(r'\b[a-zA-Z]{3,}\b', text.lower())] *)
Definition words_of (text : string) : list string :=
  Regex.findall (PyStr.lower text).

(** [[word for word in words if word not in stop_words]] *)
Definition keywords_of (text : string) : list string :=
  filter (fun word => negb (PyStr.mem word stop_words)) (words_of text).

Definition extract_keywords (text : string) : list string :=
  let keywords := keywords_of text in
  let keyword_counts := Counter.of_list keywords in
  map fst (Counter.most_common 20 keyword_counts).

(** ** Configuration ([config.py]) *)

Record Config := {
  MIN_CHUNK_LENGTH : Z;
  EMBEDDING_DIMENSION : Z;
  DOCUMENT_PATH : string;      (* SUPPORT_DOCUMENT_PATH *)
  OPENSEARCH_INDEX : string    (* SUPPORT_KNOWLEDGE_INDEX *)
}.

(** The values taken when the environment sets none of them. *)
Definition default_config : Config := {|
  MIN_CHUNK_LENGTH := 100;
  EMBEDDING_DIMENSION := 1536;
  DOCUMENT_PATH := "LEXORA_SUPPORT_KNOWLEDGE_BASE.md";
  OPENSEARCH_INDEX := "lexora_support"
|}.

(** ** Data model *)

(** A dict from strings to strings, keys in insertion order. *)
Definition dict := list (string * string).

(** [d.get(key, default)] *)
Fixpoint dict_get (d : dict) (key default : string) : string :=
  match d with
  | [] => default
  | (k, v) :: d' => if String.eqb k key then v else dict_get d' key default
  end.

(** What the chunking service sends under ["text"] or ["content"]: null, a
    string, or a list whose entries are strings or null. *)
Inductive text_value :=
| TNone
| TStr (s : string)
| TList (items : list (option string)).

(** The ["metadata"] of an element: a dict, of which the keys ["title"] and
    ["filename"] are read, or some other value. *)
Inductive metadata_value :=
| MDict (title filename : option string)
| MOther.

(** An element of the chunking service; [None] is an absent key. *)
Record RawElement := {
  el_text : option text_value;
  el_content : option text_value;
  el_metadata : option metadata_value;
  el_type : option string;
  el_element_id : option string;
  el_category : option string
}.

(** The dict that [filter_chunks] builds for a kept element. *)
Record Chunk := {
  text : string;
  keywords : list string;
  title : string;
  type : string;
  metadata : dict
}.

(** A chunk after [chunk["vector_field"] = embedding]. *)
Record EnrichedChunk := {
  chunk : Chunk;
  vector_field : list float
}.

(** The [_source] of a bulk action. *)
Record IndexDocument := {
  doc_content : string;
  doc_text : string;
  doc_page_content : string;
  doc_keywords : list string;
  doc_keywords_text : string;
  doc_title : string;
  doc_vector_field : list float;
  doc_metadata : dict;
  doc_type : option string
}.

Record Action := {
  _index : string;
  _id : string;
  _source : IndexDocument
}.

Definition get_or {A} (o : option A) (default : A) : A :=
  match o with Some v => v | None => default end.

(** ** [filter_chunks] *)

Definition truthy (v : text_value) : bool :=
  match v with
  | TNone => false
  | TStr s => PyStr.truthy s
  | TList items => match items with [] => false | _ :: _ => true end
  end.

Definition item_truthy (t : option string) : bool :=
  match t with Some s => PyStr.truthy s | None => false end.

(** [a or b] *)
Definition py_or (a b : text_value) : text_value :=
  if truthy a then a else b.

(** [element.get("text", "") or element.get("content", "")] *)
Definition raw_text (element : RawElement) : text_value :=
  py_or (get_or (el_text element) (TStr ""))
        (get_or (el_content element) (TStr "")).

(** [" ".join(str(t) for t in text if t)] *)
Definition join_items (items : list (option string)) : string :=
  PyStr.join " " (map (fun t => get_or t "") (filter item_truthy items)).

(** The text of an element as the loop body computes it, up to
    [text = str(text).strip() if text else ""]. *)
Definition resolve_text (element : RawElement) : string :=
  let text := raw_text element in
  let text :=
    match text with
    | TList items => TStr (join_items items)
    | _ => text
    end in
  match text with
  | TStr s => if PyStr.truthy s then PyStr.strip s else ""
  | _ => ""
  end.

(** [if text and len(text) >= MIN_CHUNK_LENGTH] *)
Definition keeps (cfg : Config) (text : string) : bool :=
  PyStr.truthy text
  && (MIN_CHUNK_LENGTH cfg <=? Z.of_nat (String.length text))%Z.

Definition str_or (a b : string) : string :=
  if PyStr.truthy a then a else b.

Definition resolve_title (md : metadata_value) (text : string) : string :=
  let title :=
    match md with
    | MDict t f => str_or (get_or t "") (get_or f "")
    | MOther => ""
    end in
  if negb (PyStr.truthy title) then
    let first_line := PyStr.strip (PyStr.first_line text) in
    if String.length first_line <? 100 then first_line else title
  else title.

Definition resolve_source (cfg : Config) (md : metadata_value) : string :=
  match md with
  | MDict _ f => get_or f (DOCUMENT_PATH cfg)
  | MOther => DOCUMENT_PATH cfg
  end.

(** The dict [filtered_element] built for a kept element. *)
Definition make_chunk (cfg : Config) (element : RawElement) (text : string)
  : Chunk :=
  let metadata := get_or (el_metadata element) (MDict None None) in
  {| text := text;
     keywords := extract_keywords text;
     title := resolve_title metadata text;
     type := get_or (el_type element) "unknown";
     metadata :=
       [ ("source", resolve_source cfg metadata);
         ("element_id", get_or (el_element_id element) "");
         ("category", get_or (el_category element) "") ] |}.

(** One iteration of the loop over [elements]. *)
Definition filter_step (cfg : Config) (filtered : list Chunk)
  (element : RawElement) : list Chunk :=
  let text := resolve_text element in
  if keeps cfg text
  then filtered ++ [make_chunk cfg element text]
  else filtered.

Definition filter_chunks (cfg : Config) (elements : list RawElement)
  : list Chunk :=
  fold_left (filter_step cfg) elements [].

(** ** [generate_embeddings] *)

(** The outcome of [openai_client.embeddings.create]: an exception, or the
    vector [response.data[0].embedding]. *)
Inductive provider_result :=
| ProviderError (e : string)
| Embedding (v : list float).

Definition provider := string -> provider_result.

(** [len(embedding) != EMBEDDING_DIMENSION] *)
Definition wrong_dimension (cfg : Config) (embedding : list float) : bool :=
  negb (Z.of_nat (List.length embedding) =? EMBEDDING_DIMENSION cfg)%Z.

(** [any(np.isnan(val) or np.isinf(val) for val in embedding)] *)
Definition has_nan_or_inf (embedding : list float) : bool :=
  existsb (fun val => is_nan val || is_infinity val) embedding.

(** One iteration of the loop over [chunks]; the [try] body appends, each
    [continue] and the [except] branch leave [enriched_chunks] as it is. *)
Definition embed_step (cfg : Config) (embed : provider)
  (enriched_chunks : list EnrichedChunk) (c : Chunk) : list EnrichedChunk :=
  match embed (text c) with
  | ProviderError _ => enriched_chunks
  | Embedding embedding =>
      if wrong_dimension cfg embedding then enriched_chunks
      else if has_nan_or_inf embedding then enriched_chunks
      else enriched_chunks ++ [{| chunk := c; vector_field := embedding |}]
  end.

Definition generate_embeddings (cfg : Config) (embed : provider)
  (chunks : list Chunk) : list EnrichedChunk :=
  fold_left (embed_step cfg embed) chunks [].

(** ** [index_to_opensearch] *)

(** [enumerate(l)] *)
Definition enumerate {A} (l : list A) : list (nat * A) :=
  combine (seq 0 (List.length l)) l.

Definition make_doc (c : EnrichedChunk) : IndexDocument :=
  {| doc_content := text (chunk c);
     doc_text := text (chunk c);
     doc_page_content := text (chunk c);
     doc_keywords := keywords (chunk c);
     doc_keywords_text := PyStr.join " " (keywords (chunk c));
     doc_title := title (chunk c);
     doc_vector_field := vector_field c;
     doc_metadata := metadata (chunk c);
     doc_type := Some (type (chunk c)) |}.

(** [chunk["metadata"].get("element_id", f"support_chunk_{i}")] *)
Definition action_id (i : nat) (c : EnrichedChunk) : string :=
  dict_get (metadata (chunk c)) "element_id"
           ("support_chunk_" ++ PyStr.of_nat i)%string.

Definition make_action (cfg : Config) (i : nat) (c : EnrichedChunk) : Action :=
  {| _index := OPENSEARCH_INDEX cfg;
     _id := action_id i c;
     _source := make_doc c |}.

Definition build_actions (cfg : Config) (chunks : list EnrichedChunk)
  : list Action :=
  fold_left (fun actions ic => actions ++ [make_action cfg (fst ic) (snd ic)])
            (enumerate chunks) [].

(** *** The bulk call and its report *)

(** The value under ['error'] of a failed item: a dict, of which ['reason']
    is read, or a plain string. *)
Inductive error_value :=
| ErrDict (reason : option string)
| ErrText (s : string).

(** The dict under ['index'] of a failed item. *)
Record index_info := {
  info_id : option string;
  info_error : option error_value
}.

(** An entry of the list of failures that [bulk] returns. *)
Record failed_item := {
  item_index : option index_info
}.

(** [bulk(client, actions, raise_on_error=False)]: an exception, or the pair
    [(success_count, failed)]. *)
Inductive bulk_result :=
| BulkRaised (e : string)
| BulkReturned (success_count : nat) (failed : list failed_item).

Definition bulk_client := list Action -> bulk_result.

(** What [index_to_opensearch] prints, line by line. *)
Inductive report :=
| Indexing (n : nat)
| FailedToIndex (failed_count : nat)
| Failure (doc_id reason : string)
| IndexingComplete (success_count failed_count : nat)
| BulkError (e : string).

Definition render (r : report) : string :=
  match r with
  | Indexing n =>
      "Indexing " ++ PyStr.of_nat n ++ " chunks into OpenSearch..."
  | FailedToIndex n =>
      String PyStr.newline
             ("Failed to index " ++ PyStr.of_nat n ++ " documents:")
  | Failure doc_id reason => "  - " ++ doc_id ++ ": " ++ reason
  | IndexingComplete s f =>
      String PyStr.newline
             ("Indexing complete: " ++ PyStr.of_nat s ++ " succeeded, "
              ++ PyStr.of_nat f ++ " failed")
  | BulkError e => "Error during bulk indexing: " ++ e
  end%string.

(** How a call ends: it returns [None], or an exception leaves it. *)
Inductive completion :=
| Returns
| Raises (e : string).

(** The empty dict that [item.get('index', {})] defaults to. *)
Definition no_info : index_info := {| info_id := None; info_error := None |}.

Definition failure_id (item : failed_item) : string :=
  let error_info := get_or (item_index item) no_info in
  get_or (info_id error_info) "unknown".

Definition failure_reason (item : failed_item) : string :=
  let error_info := get_or (item_index item) no_info in
  let error_msg := get_or (info_error error_info) (ErrDict None) in
  match error_msg with
  | ErrDict reason => get_or reason "unknown error"
  | ErrText s => s
  end.

Definition report_failure (item : failed_item) : report :=
  Failure (failure_id item) (failure_reason item).

(** The body of [index_to_opensearch] from the bulk call on. *)
Definition report_bulk (r : bulk_result) : list report * completion :=
  match r with
  | BulkReturned success_count failed =>
      let failed_count :=
        match failed with [] => 0 | _ :: _ => List.length failed end in
      let shown :=
        match failed with
        | [] => []
        | _ :: _ =>
            FailedToIndex failed_count :: map report_failure (firstn 5 failed)
        end in
      (shown ++ [IndexingComplete success_count failed_count], Returns)
  | BulkRaised e => ([BulkError e], Raises e)
  end.

Definition index_to_opensearch (cfg : Config) (bulk : bulk_client)
  (chunks : list EnrichedChunk) : list report * completion :=
  let actions := build_actions cfg chunks in
  let '(printed, outcome) := report_bulk (bulk actions) in
  (Indexing (List.length chunks) :: printed, outcome).

(** The pipeline of [main] between the chunking service and the index. *)
Definition ingest_actions (cfg : Config) (embed : provider)
  (elements : list RawElement) : list Action :=
  build_actions cfg
    (generate_embeddings cfg embed (filter_chunks cfg elements)).

(** * Definitions used by the statements *)

(** ** Order *)

(** A list obtained from another by dropping entries, order kept. *)
Inductive subseq {A} : list A -> list A -> Prop :=
| subseq_nil : subseq [] []
| subseq_drop x l1 l2 : subseq l1 l2 -> subseq l1 (x :: l2)
| subseq_keep x l1 l2 : subseq l1 l2 -> subseq (x :: l1) (x :: l2).

(** ** The chunk filter, element by element *)

(** The test that the loop of [filter_chunks] applies to an element, and the
    chunk it appends when the test holds. *)
Definition kept (cfg : Config) (element : RawElement) : bool :=
  keeps cfg (resolve_text element).

Definition chunk_of (cfg : Config) (element : RawElement) : Chunk :=
  make_chunk cfg element (resolve_text element).

(** The entries of a list text that survive [if t]: the non-empty strings. *)
Definition truthy_strings (items : list (option string)) : list string :=
  flat_map (fun t => match t with
                     | Some (String a s) => [String a s]
                     | _ => []
                     end) items.

(** ** The enricher, chunk by chunk *)

(** The embedding that [generate_embeddings] attaches to a chunk, if any. *)
Definition accepted_vector (cfg : Config) (embed : provider) (c : Chunk)
  : option (list float) :=
  match embed (text c) with
  | ProviderError _ => None
  | Embedding v =>
      if wrong_dimension cfg v then None
      else if has_nan_or_inf v then None
      else Some v
  end.

Definition accepted (cfg : Config) (embed : provider) (c : Chunk) : bool :=
  match accepted_vector cfg embed c with Some _ => true | None => false end.

Definition enrich (cfg : Config) (embed : provider) (c : Chunk)
  : EnrichedChunk :=
  {| chunk := c; vector_field := get_or (accepted_vector cfg embed c) [] |}.

(** Why a chunk gets no vector: the provider raised, or answered with a
    vector of the wrong length, or with one holding a NaN or an infinity. *)
Definition rejected (cfg : Config) (embed : provider) (c : Chunk) : Prop :=
  (exists e, embed (text c) = ProviderError e) \/
  (exists v, embed (text c) = Embedding v /\
             (Z.of_nat (List.length v) <> EMBEDDING_DIMENSION cfg \/
              Exists (fun x => is_nan x = true \/ is_infinity x = true) v)).

(** ** Documents and reports *)

(** The keywords separated by single spaces; nothing for no keywords. *)
Fixpoint space_joined (ks : list string) : string :=
  match ks with
  | [] => ""
  | [k] => k
  | k :: ks' => (k ++ " " ++ space_joined ks')%string
  end.

(** The rejected documents that a report names, with the reason given. *)
Definition failures_shown (printed : list report) : list (string * string) :=
  flat_map (fun r => match r with
                     | Failure doc_id reason => [(doc_id, reason)]
                     | _ => []
                     end) printed.

(** The identity key that a response gives for a rejected document: the
    ['_id'] of the item's ['index'] entry; the word "unknown" stands for an
    item that names none. *)
Definition identity_key (item : failed_item) : string :=
  match item_index item with
  | Some {| info_id := Some doc_id; info_error := _ |} => doc_id
  | _ => "unknown"
  end.

(** The reason that a response gives for a rejection: the ['reason'] of the
    item's error, or the error itself when it is plain text; the words
    "unknown error" stand for an item that gives none. *)
Definition rejection_reason (item : failed_item) : string :=
  match item_index item with
  | Some {| info_id := _; info_error := Some (ErrDict (Some reason)) |} =>
      reason
  | Some {| info_id := _; info_error := Some (ErrText s) |} => s
  | _ => "unknown error"
  end.

(** The lines of a report for a response of [success_count] accepted
    documents and the rejected documents [failed]: nothing about failures
    when there is none; otherwise their number and the first five of them,
    each with its key and reason; then both counts. *)
Definition expected_report (success_count : nat) (failed : list failed_item)
  : list report :=
  match failed with
  | [] => []
  | _ :: _ =>
      FailedToIndex (List.length failed)
        :: map (fun item => Failure (identity_key item) (rejection_reason item))
               (firstn 5 failed)
  end ++ [IndexingComplete success_count (List.length failed)].

(** ** Runs of characters *)

Definition flush (acc : list ascii) : list (list ascii) :=
  match acc with [] => [] | _ :: _ => [acc] end.

(** The maximal runs of characters that satisfy [p], in text order; [acc] is
    the run being read. *)
Fixpoint runs (p : ascii -> bool) (acc s : list ascii) : list (list ascii) :=
  match s with
  | [] => flush acc
  | c :: s' =>
      if p c then runs p (acc ++ [c]) s' else flush acc ++ runs p [] s'
  end.

Definition maximal_runs (p : ascii -> bool) (s : string) : list string :=
  map PyStr.of_chars (runs p [] (PyStr.chars s)).

(** At least three characters, all of them ASCII letters. *)
Definition is_token (r : list ascii) : bool :=
  (3 <=? List.length r) && forallb PyChar.is_ascii_letter r.

(** The runs of word characters of [s] that are tokens. *)
Definition tokens_of_runs (s : list ascii) : list (list ascii) :=
  filter is_token (runs PyChar.is_word [] s).

(** The tokens as C3 describes them: the maximal runs of letters, three
    letters or more, everything else separating. *)
Definition letter_runs (s : string) : list string :=
  filter (fun r => 3 <=? String.length r)
         (maximal_runs PyChar.is_ascii_letter s).

(** The tokens as the pattern finds them: the maximal runs of word
    characters that are made of three ASCII letters or more. *)
Definition word_tokens (s : string) : list string :=
  filter (fun r => is_token (PyStr.chars r)) (maximal_runs PyChar.is_word s).

(** Every word character of the text is an ASCII letter. *)
Definition letters_only_words (s : string) : Prop :=
  Forall (fun c => PyChar.is_word c = PyChar.is_ascii_letter c) (PyStr.chars s).

(** ** Frequency and rank *)

(** How often a word occurs in a list, and where it occurs first (the length
    of the list when it does not occur). *)
Definition frequency (ws : list string) (w : string) : nat :=
  count_occ string_dec ws w.

Fixpoint first_index (w : string) (ws : list string) : nat :=
  match ws with
  | [] => 0
  | x :: ws' => if String.eqb x w then 0 else S (first_index w ws')
  end.

(** [a] is more frequent than [b], or as frequent and first seen earlier. *)
Definition rank_before (ws : list string) (a b : string) : Prop :=
  frequency ws b < frequency ws a \/
  (frequency ws a = frequency ws b /\ first_index a ws < first_index b ws).

Definition keys (c : Counter.t) : list string := map fst c.

(** [c[k]], which is 0 for a missing key. *)
Fixpoint count_of (c : Counter.t) (k : string) : nat :=
  match c with
  | [] => 0
  | (k', n) :: c' => if String.eqb k' k then n else count_of c' k
  end.

(** A larger count, or the same count and an earlier first occurrence in
    [ws]. *)
Definition entry_before (ws : list string) (e1 e2 : string * nat) : Prop :=
  snd e2 < snd e1 \/
  (snd e1 = snd e2 /\ first_index (fst e1) ws < first_index (fst e2) ws).

Definition non_stop_word (w : string) : bool := negb (PyStr.mem w stop_words).

(** All the keywords of a text, best first, before the cut at 20. *)
Definition ranked_keywords (text : string) : list string :=
  keys (Counter.sorted_desc (Counter.of_list (keywords_of text))).

(** ** Sample inputs *)

(** An element that has a ["text"] and nothing else. *)
Definition text_element (s : string) : RawElement :=
  {| el_text := Some (TStr s); el_content := None; el_metadata := None;
     el_type := None; el_element_id := None; el_category := None |}.

(** A word of [n] letters [c]. *)
Definition letters (c : ascii) (n : nat) : string :=
  PyStr.of_chars (repeat c n).

(** An element whose ["text"] is an empty list and whose ["content"] is a
    list with a null and an empty entry. *)
Definition list_fallback_element : RawElement :=
  {| el_text := Some (TList []);
     el_content := Some (TList [Some "first"; None; Some ""; Some "second "]);
     el_metadata := None; el_type := None; el_element_id := None;
     el_category := None |}.

(** The default configuration with [MIN_CHUNK_LENGTH=0]. *)
Definition zero_config : Config := {|
  MIN_CHUNK_LENGTH := 0;
  EMBEDDING_DIMENSION := 1536;
  DOCUMENT_PATH := "LEXORA_SUPPORT_KNOWLEDGE_BASE.md";
  OPENSEARCH_INDEX := "lexora_support"
|}.

(** A provider that answers every text with the zero vector of the default
    dimension, and one that answers with 1500 components. *)
Definition zero_provider : provider :=
  fun _ => Embedding (repeat 0%float 1536).

Definition short_provider : provider :=
  fun _ => Embedding (repeat 0%float 1500).

(** A configuration with a small embedding dimension, and a provider that
    fails in each of the three ways. *)
Definition small_config : Config := {|
  MIN_CHUNK_LENGTH := 100;
  EMBEDDING_DIMENSION := 3;
  DOCUMENT_PATH := "LEXORA_SUPPORT_KNOWLEDGE_BASE.md";
  OPENSEARCH_INDEX := "lexora_support"
|}.

Definition faulty_provider : provider :=
  fun s => if String.eqb s (letters "n" 100)
           then Embedding [0%float; nan; 0%float]
           else if String.eqb s (letters "s" 100)
                then Embedding [0%float; 0%float]
                else if String.eqb s (letters "e" 100)
                     then ProviderError "rate limit"
                     else Embedding [0%float; 0%float; 0%float].

Definition sample_chunk (c : ascii) : Chunk :=
  chunk_of small_config (text_element (letters c 100)).

Definition sample_chunks : list Chunk :=
  [sample_chunk "n"; sample_chunk "s"; sample_chunk "e"; sample_chunk "k"].

(** A failure entry of a bulk response, as the index sends it. *)
Definition rejection (doc_id reason : string) : failed_item :=
  {| item_index :=
       Some {| info_id := Some doc_id;
               info_error := Some (ErrDict (Some reason)) |} |}.

(** Twenty-one distinct words, the last one twice. *)
Definition crowded_text : string :=
  "alpha bravo charlie delta echo foxtrot golf hotel india juliett kilo lima mike november oscar papa quebec romeo sierra tango uniform uniform".

(** ** Shapes of strings *)

(** No whitespace, in the sense of [str.strip], at the head of a list of
    characters. *)
Definition starts_clean (l : list ascii) : Prop :=
  match l with
  | [] => True
  | c :: _ => PyChar.is_space c = false
  end.

(** Nothing for [str.strip] to remove, at either end. *)
Definition stripped (s : string) : Prop :=
  starts_clean (PyStr.chars s) /\ starts_clean (rev (PyStr.chars s)).

(** [w] occurs in [s] as a run of consecutive characters. *)
Definition occurs_in (w s : string) : Prop :=
  exists before after,
    PyStr.chars s = before ++ PyStr.chars w ++ after.

(** Only whitespace, and at least one character of it. *)
Definition blank (s : string) : Prop :=
  s <> "" /\ forallb PyChar.is_space (PyStr.chars s) = true.

(** ** Titles and sources *)

(** The metadata of the element offers no title: there is no metadata, or
    it is no dict, or neither its ["title"] nor its ["filename"] holds a
    non-empty string. *)
Definition untitled (element : RawElement) : Prop :=
  match el_metadata element with
  | Some (MDict t f) =>
      PyStr.truthy (get_or t "") = false /\ PyStr.truthy (get_or f "") = false
  | Some MOther | None => True
  end.

(** The first line of a text, stripped: the title of last resort. *)
Definition first_line_title (text : string) : string :=
  PyStr.strip (PyStr.first_line text).

Definition no_newline (s : string) : Prop :=
  ~ In PyStr.newline (PyStr.chars s).

(** ** Further sample inputs *)

(** An element whose ["text"] is three spaces and whose ["content"] is long
    enough for a chunk. *)
Definition blank_text_element : RawElement :=
  {| el_text := Some (TStr "   ");
     el_content := Some (TStr (letters "c" 200));
     el_metadata := None; el_type := None; el_element_id := None;
     el_category := None |}.

(** An element with a title and a file name in its metadata, and one whose
    metadata names a file with an empty string. *)
Definition titled_element : RawElement :=
  {| el_text := Some (TStr (letters "t" 120)); el_content := None;
     el_metadata := Some (MDict (Some "Returns policy") (Some "policy.md"));
     el_type := Some "NarrativeText"; el_element_id := Some "e-17";
     el_category := None |}.

Definition nameless_file_element : RawElement :=
  {| el_text := Some (TStr (letters "t" 120)); el_content := None;
     el_metadata := Some (MDict None (Some ""));
     el_type := None; el_element_id := None; el_category := None |}.

(** ** Words inside a text *)

(** No word character at the head of a list of characters. *)
Definition starts_apart (l : list ascii) : Prop :=
  match l with
  | [] => True
  | c :: _ => PyChar.is_word c = false
  end.

(** [w] stands in [s] as a whole word: a run of consecutive characters with
    no word character right before it or right after it. *)
Definition whole_word_in (w s : string) : Prop :=
  exists before after,
    PyStr.chars s = before ++ PyStr.chars w ++ after /\
    starts_apart (rev before) /\ starts_apart after.

(** The number of distinct keywords of a text. *)
Definition distinct_keywords (text : string) : nat :=
  List.length (nodup string_dec (keywords_of text)).

(** ** Identity keys *)

(** The identity that an element brings along: its ["element_id"], the
    empty string when it has none. *)
Definition element_id_of (e : RawElement) : string :=
  get_or (el_element_id e) "".

(** The elements that reach the index, in input order: those that the
    filter keeps and whose chunk gets a vector. *)
Definition indexed_elements (cfg : Config) (embed : provider)
  (elements : list RawElement) : list RawElement :=
  filter (fun e => accepted cfg embed (chunk_of cfg e))
         (filter (kept cfg) elements).

(** The action built from one element: the document of its enriched chunk,
    under the element's own identity. *)
Definition action_of (cfg : Config) (embed : provider) (e : RawElement)
  : Action :=
  {| _index := OPENSEARCH_INDEX cfg;
     _id := element_id_of e;
     _source := make_doc (enrich cfg embed (chunk_of cfg e)) |}.

(** The metadata of the chunk has no key ["element_id"]. *)
Definition lacks_element_id (c : EnrichedChunk) : Prop :=
  ~ In "element_id" (map fst (metadata (chunk c))).

(** An enriched chunk whose metadata names its source only. *)
Definition bare_chunk (s : string) : EnrichedChunk :=
  {| chunk := {| text := s; keywords := []; title := ""; type := "unknown";
                 metadata := [("source", "notes.md")] |};
     vector_field := [] |}.

(** Two elements that pass the default threshold, with an id each. *)
Definition identified_elements : list RawElement :=
  [ {| el_text := Some (TStr (letters "a" 100)); el_content := None;
       el_metadata := None; el_type := None; el_element_id := Some "e1";
       el_category := None |};
    {| el_text := Some (TStr (letters "b" 100)); el_content := None;
       el_metadata := None; el_type := None; el_element_id := Some "e2";
       el_category := None |} ].

(** * The script with its effects

    The functions above return what the functions of the script return.
    Below, each function also yields, in order, what it prints and which
    outside services it calls; the services answer as a [World] says. *)

(** How a call to an outside service ends. *)
Inductive outcome (A : Type) :=
| Raised (e : string)
| Returned (v : A).

Arguments Raised {A} e.
Arguments Returned {A} v.

(** The lines that the script prints, by the function that prints them. *)
Inductive line :=
| Processing (file_path : string)          (* process_with_unstructured *)
| Received (n : nat)
| Skipped (len : nat) (preview : string)   (* filter_chunks *)
| Filtered (n m : nat)
| Generating (n : nat)                     (* generate_embeddings *)
| WrongDimension (i len : nat)
| NanOrInf (i : nat)
| Processed (k n : nat)
| EmbeddingError (i : nat) (e : string)
| TextPreview (preview : string)
| Generated (m : nat)
| Reported (r : report)                    (* index_to_opensearch *)
| IndexMissing (index : string)            (* verify_index *)
| CreateIndexFirst
| IndexAccessible (index : string)
| VerifyError (e : string)
| Rule                                     (* main *)
| Title
| NoUnstructuredKey
| NoOpenAIKey
| DocumentNotFound (path : string)
| NoValidChunks
| NoValidEmbeddings
| BlankRule
| Completed
| IngestionError (e : string).

(** ["=" * 60] *)
Definition rule : string := PyStr.of_chars (repeat "="%char 60).

(** [s[:n]] *)
Definition take (n : nat) (s : string) : string :=
  PyStr.of_chars (firstn n (PyStr.chars s)).

Definition render_line (l : line) : string :=
  match l with
  | Processing p => "Processing " ++ p ++ " with Unstructured.io API..."
  | Received n =>
      "Received " ++ PyStr.of_nat n ++ " elements from Unstructured.io"
  | Skipped len preview =>
      "Skipped chunk (length " ++ PyStr.of_nat len ++ "): " ++ preview ++ "..."
  | Filtered n m =>
      "Filtered " ++ PyStr.of_nat n ++ " elements down to " ++ PyStr.of_nat m
      ++ " valid chunks"
  | Generating n =>
      "Generating embeddings for " ++ PyStr.of_nat n ++ " chunks..."
  | WrongDimension i len =>
      "Warning: Chunk " ++ PyStr.of_nat i
      ++ " has wrong embedding dimension: " ++ PyStr.of_nat len
  | NanOrInf i =>
      "Warning: Chunk " ++ PyStr.of_nat i
      ++ " contains NaN or Inf values, skipping"
  | Processed k n =>
      "Processed " ++ PyStr.of_nat k ++ "/" ++ PyStr.of_nat n ++ " chunks..."
  | EmbeddingError i e =>
      "Error generating embedding for chunk " ++ PyStr.of_nat i ++ ": " ++ e
  | TextPreview preview => "Chunk text preview: " ++ preview ++ "..."
  | Generated m =>
      "Successfully generated embeddings for " ++ PyStr.of_nat m ++ " chunks"
  | Reported r => render r
  | IndexMissing index => "Error: Index '" ++ index ++ "' does not exist!"
  | CreateIndexFirst =>
      "Please create the index first using the curl command in README.md"
  | IndexAccessible index =>
      "Index '" ++ index ++ "' exists and is accessible"
  | VerifyError e => "Error verifying index: " ++ e
  | Rule => rule
  | Title => "LEXORA Support Knowledge Base Ingestion Script"
  | NoUnstructuredKey =>
      "Error: UNSTRUCTURED_API_KEY environment variable not set"
  | NoOpenAIKey => "Error: OPENAI_API_KEY environment variable not set"
  | DocumentNotFound path => "Error: Document '" ++ path ++ "' not found"
  | NoValidChunks => "Error: No valid chunks after filtering!"
  | NoValidEmbeddings => "Error: No chunks with valid embeddings!"
  | BlankRule => String PyStr.newline rule
  | Completed => "Support knowledge base ingestion completed successfully!"
  | IngestionError e =>
      String PyStr.newline ("Error during ingestion: " ++ e)
  end%string.

(** What a function does to the outside, step by step. *)
Inductive effect :=
| Print (l : line)
| Sleep                                     (* time.sleep(0.1) *)
| CallUnstructured (file_path : string)     (* requests.post(...) *)
| CallEmbeddings (input : string)   (* openai_client.embeddings.create *)
| CallBulk (actions : list Action)          (* bulk(...) *)
| CallIndicesExists (index : string)
| CallIndicesGet (index : string)
| CallPathExists (path : string)            (* os.path.exists *)
| PrintTraceback.                           (* traceback.print_exc() *)

(** ** [filter_chunks], with its prints *)

Definition filter_step_io (cfg : Config)
  (state : list Chunk * list effect) (element : RawElement)
  : list Chunk * list effect :=
  let '(filtered, done) := state in
  let text := resolve_text element in
  if keeps cfg text
  then (filtered ++ [make_chunk cfg element text], done)
  else (filtered,
        done ++ [Print (Skipped (String.length text) (take 50 text))]).

Definition filter_chunks_io (cfg : Config) (elements : list RawElement)
  : list Chunk * list effect :=
  let '(filtered, done) := fold_left (filter_step_io cfg) elements ([], []) in
  (filtered,
   done ++ [Print (Filtered (List.length elements) (List.length filtered))]).

(** ** [generate_embeddings], with its calls and prints *)

(** One iteration for the chunk at position [i] of [n]. *)
Definition embed_step_io (cfg : Config) (embed : provider) (n : nat)
  (state : list EnrichedChunk * list effect) (ic : nat * Chunk)
  : list EnrichedChunk * list effect :=
  let '(enriched_chunks, done) := state in
  let '(i, c) := ic in
  let done := done ++ [CallEmbeddings (text c)] in
  match embed (text c) with
  | ProviderError e =>
      (enriched_chunks,
       done ++ [Print (EmbeddingError i e);
                Print (TextPreview (take 100 (text c)))])
  | Embedding embedding =>
      if wrong_dimension cfg embedding then
        (enriched_chunks,
         done ++ [Print (WrongDimension i (List.length embedding))])
      else if has_nan_or_inf embedding then
        (enriched_chunks, done ++ [Print (NanOrInf i)])
      else
        (enriched_chunks ++ [{| chunk := c; vector_field := embedding |}],
         done
         ++ (if (i + 1) mod 10 =? 0 then [Print (Processed (i + 1) n)] else [])
         ++ [Sleep])
  end.

Definition generate_embeddings_io (cfg : Config) (embed : provider)
  (chunks : list Chunk) : list EnrichedChunk * list effect :=
  let n := List.length chunks in
  let '(enriched_chunks, done) :=
    fold_left (embed_step_io cfg embed n) (enumerate chunks)
              ([], [Print (Generating n)]) in
  (enriched_chunks,
   done ++ [Print (Generated (List.length enriched_chunks))]).

(** ** [index_to_opensearch], with its call *)

Definition index_to_opensearch_io (cfg : Config) (bulk : bulk_client)
  (chunks : list EnrichedChunk) : completion * list effect :=
  let actions := build_actions cfg chunks in
  let '(printed, outcome) := report_bulk (bulk actions) in
  (outcome,
   Print (Reported (Indexing (List.length chunks)))
   :: CallBulk actions
   :: map (fun r => Print (Reported r)) printed).

(** ** The services *)

Record World := {
  UNSTRUCTURED_API_KEY : option string;     (* os.getenv(...) *)
  OPENAI_API_KEY : option string;
  indices_exists : outcome bool;
  indices_get : outcome unit;
  path_exists : bool;
  unstructured : outcome (list RawElement);
  embeddings : provider;
  bulk_call : bulk_client
}.

(** [if KEY]: set, and not to the empty string. *)
Definition key_set (key : option string) : bool :=
  match key with
  | Some s => PyStr.truthy s
  | None => false
  end.

(** ** [process_with_unstructured] *)

Definition process_with_unstructured_io (w : World) (file_path : string)
  : outcome (list RawElement) * list effect :=
  let done := [Print (Processing file_path); CallUnstructured file_path] in
  match unstructured w with
  | Raised e => (Raised e, done)
  | Returned elements =>
      (Returned elements,
       done ++ [Print (Received (List.length elements))])
  end.

(** ** [verify_index] *)

Definition verify_index_io (cfg : Config) (w : World) : bool * list effect :=
  let index := OPENSEARCH_INDEX cfg in
  match indices_exists w with
  | Raised e => (false, [CallIndicesExists index; Print (VerifyError e)])
  | Returned false =>
      (false, [CallIndicesExists index; Print (IndexMissing index);
               Print CreateIndexFirst])
  | Returned true =>
      match indices_get w with
      | Raised e =>
          (false, [CallIndicesExists index; CallIndicesGet index;
                   Print (VerifyError e)])
      | Returned _ =>
          (true, [CallIndicesExists index; CallIndicesGet index;
                  Print (IndexAccessible index)])
      end
  end.

(** ** [main] *)

(** The [except] clause of [main]: report, print the traceback, re-raise. *)
Definition main_failed (done : list effect) (e : string)
  : completion * list effect :=
  (Raises e, done ++ [Print (IngestionError e); PrintTraceback]).

(** The [try] block of [main]. *)
Definition main_pipeline (cfg : Config) (w : World)
  : completion * list effect :=
  let '(result, done1) := process_with_unstructured_io w (DOCUMENT_PATH cfg) in
  match result with
  | Raised e => main_failed done1 e
  | Returned elements =>
      let '(chunks, done2) := filter_chunks_io cfg elements in
      match chunks with
      | [] => (Returns, done1 ++ done2 ++ [Print NoValidChunks])
      | _ :: _ =>
          let '(enriched_chunks, done3) :=
            generate_embeddings_io cfg (embeddings w) chunks in
          match enriched_chunks with
          | [] =>
              (Returns, done1 ++ done2 ++ done3 ++ [Print NoValidEmbeddings])
          | _ :: _ =>
              let '(result, done4) :=
                index_to_opensearch_io cfg (bulk_call w) enriched_chunks in
              let done := done1 ++ done2 ++ done3 ++ done4 in
              match result with
              | Returns =>
                  (Returns,
                   done ++ [Print BlankRule; Print Completed; Print Rule])
              | Raises e => main_failed done e
              end
          end
      end
  end.

Definition main_io (cfg : Config) (w : World) : completion * list effect :=
  let banner := [Print Rule; Print Title; Print Rule] in
  if negb (key_set (UNSTRUCTURED_API_KEY w)) then
    (Returns, banner ++ [Print NoUnstructuredKey])
  else if negb (key_set (OPENAI_API_KEY w)) then
    (Returns, banner ++ [Print NoOpenAIKey])
  else
    let '(verified, done) := verify_index_io cfg w in
    if negb verified then (Returns, banner ++ done)
    else
      let done := banner ++ done ++ [CallPathExists (DOCUMENT_PATH cfg)] in
      if negb (path_exists w) then
        (Returns, done ++ [Print (DocumentNotFound (DOCUMENT_PATH cfg))])
      else
        let '(result, rest) := main_pipeline cfg w in
        (result, done ++ rest).

(** ** Reading a trace *)

Definition printed_lines (done : list effect) : list line :=
  flat_map (fun ef => match ef with Print l => [l] | _ => [] end) done.

Definition embedding_calls (done : list effect) : list string :=
  flat_map (fun ef => match ef with CallEmbeddings t => [t] | _ => [] end)
           done.

Definition bulk_calls (done : list effect) : list (list Action) :=
  flat_map (fun ef => match ef with CallBulk a => [a] | _ => [] end) done.

Definition pauses (done : list effect) : nat :=
  List.length
    (filter (fun ef => match ef with Sleep => true | _ => false end) done).

(** A call to a service, as opposed to a print or a pause. *)
Definition is_call (ef : effect) : bool :=
  match ef with
  | CallUnstructured _ | CallEmbeddings _ | CallBulk _
  | CallIndicesExists _ | CallIndicesGet _ | CallPathExists _ => true
  | Print _ | Sleep | PrintTraceback => false
  end.

(** The lines that tell of a chunk without a vector. *)
Definition is_drop_line (l : line) : bool :=
  match l with
  | WrongDimension _ _ | NanOrInf _ | EmbeddingError _ _ => true
  | _ => false
  end.

Definition is_skip_line (l : line) : bool :=
  match l with Skipped _ _ => true | _ => false end.

(** What [filter_chunks] prints for an element. *)
Definition skip_effects (cfg : Config) (e : RawElement) : list effect :=
  if kept cfg e then []
  else [Print (Skipped (String.length (resolve_text e))
                       (take 50 (resolve_text e)))].

(** What [generate_embeddings] does for the chunk at position [i] of [n]. *)
Definition embed_effects (cfg : Config) (embed : provider) (n : nat)
  (ic : nat * Chunk) : list effect :=
  CallEmbeddings (text (snd ic))
  :: match embed (text (snd ic)) with
     | ProviderError e =>
         [Print (EmbeddingError (fst ic) e);
          Print (TextPreview (take 100 (text (snd ic))))]
     | Embedding v =>
         if wrong_dimension cfg v then
           [Print (WrongDimension (fst ic) (List.length v))]
         else if has_nan_or_inf v then [Print (NanOrInf (fst ic))]
         else (if (fst ic + 1) mod 10 =? 0
               then [Print (Processed (fst ic + 1) n)] else [])
              ++ [Sleep]
     end.

(** Both keys are set, the index is there and can be read, and the
    document exists: [main] reaches its [try] block. *)
Definition ready (w : World) : Prop :=
  key_set (UNSTRUCTURED_API_KEY w) = true /\
  key_set (OPENAI_API_KEY w) = true /\
  indices_exists w = Returned true /\
  (exists u, indices_get w = Returned u) /\
  path_exists w = true.

(** What [main] does before its [try] block, when it gets there. *)
Definition preamble (cfg : Config) : list effect :=
  [ Print Rule; Print Title; Print Rule;
    CallIndicesExists (OPENSEARCH_INDEX cfg);
    CallIndicesGet (OPENSEARCH_INDEX cfg);
    Print (IndexAccessible (OPENSEARCH_INDEX cfg));
    CallPathExists (DOCUMENT_PATH cfg) ].

(** An effect of the part of [main] that checks before it works: a print
    other than the closing one, or a look at the index or at the file. *)
Definition is_check (ef : effect) : bool :=
  match ef with
  | Print Completed | Print BlankRule => false
  | Print _ | CallIndicesExists _ | CallIndicesGet _ | CallPathExists _ => true
  | _ => false
  end.

(** A world in which everything is in place, with three elements of which
    the first is too short, and an index that rejects every document. *)
Definition rejecting_world : World := {|
  UNSTRUCTURED_API_KEY := Some "u-key";
  OPENAI_API_KEY := Some "o-key";
  indices_exists := Returned true;
  indices_get := Returned tt;
  path_exists := true;
  unstructured :=
    Returned [text_element (letters "a" 50); text_element (letters "b" 150);
              text_element (letters "c" 100)];
  embeddings := fun _ => Embedding [0%float; 0%float; 0%float];
  bulk_call := fun actions =>
    BulkReturned 0 (map (fun a => rejection (_id a) "rejected") actions)
|}.

(** The same world without the key of the embedding provider. *)
Definition keyless_world : World := {|
  UNSTRUCTURED_API_KEY := Some "u-key";
  OPENAI_API_KEY := Some "";
  indices_exists := Returned true;
  indices_get := Returned tt;
  path_exists := true;
  unstructured := unstructured rejecting_world;
  embeddings := embeddings rejecting_world;
  bulk_call := bulk_call rejecting_world
|}.

(** The same world with a chunking service that fails. *)
Definition failing_world : World := {|
  UNSTRUCTURED_API_KEY := Some "u-key";
  OPENAI_API_KEY := Some "o-key";
  indices_exists := Returned true;
  indices_get := Returned tt;
  path_exists := true;
  unstructured := Raised "401 Client Error";
  embeddings := embeddings rejecting_world;
  bulk_call := bulk_call rejecting_world
|}.

Definition unstructured_calls (done : list effect) : list string :=
  flat_map (fun ef => match ef with CallUnstructured p => [p] | _ => [] end)
           done.

(** * The OpenSearch endpoint (module level)

    Lines 43 to 51 of the script turn the configured [OPENSEARCH_HOST] into
    the host and port handed to the client, when the module is imported. *)

(** [s.startswith(p)], on characters. *)
Fixpoint starts_with (p s : list ascii) : bool :=
  match p, s with
  | [], _ => true
  | _ :: _, [] => false
  | a :: p', b :: s' => Ascii.eqb a b && starts_with p' s'
  end.

(** The scan of [s.replace(old, new)] for a non-empty [old]: occurrences are
    taken from the left and do not overlap; [skip] counts the characters of
    the occurrence just found that are still to be passed. *)
Fixpoint replace_from (old new : list ascii) (skip : nat) (s : list ascii)
  : list ascii :=
  match s with
  | [] => []
  | c :: s' =>
      match skip with
      | S k => replace_from old new k s'
      | O =>
          if starts_with old s
          then new ++ replace_from old new (List.length old - 1) s'
          else c :: replace_from old new 0 s'
      end
  end.

(** [s.replace(old, new)]; an empty [old] matches before every character
    and at the end. *)
Definition str_replace (old new s : string) : string :=
  match old with
  | EmptyString =>
      PyStr.of_chars
        (PyStr.chars new ++
         flat_map (fun c => c :: PyStr.chars new) (PyStr.chars s))
  | String _ _ =>
      PyStr.of_chars
        (replace_from (PyStr.chars old) (PyStr.chars new) 0 (PyStr.chars s))
  end.

(** The scan of [s.split(sep)] for a separator of one character. *)
Fixpoint split_on (sep : ascii) (s : list ascii) : list (list ascii) :=
  match s with
  | [] => [[]]
  | c :: s' =>
      if Ascii.eqb c sep then [] :: split_on sep s'
      else
        match split_on sep s' with
        | [] => [[c]]
        | part :: parts => (c :: part) :: parts
        end
  end.

Definition str_split (sep : ascii) (s : string) : list string :=
  map PyStr.of_chars (split_on sep (PyStr.chars s)).

(** ** [int(s)] on a [str] *)

(** White space that [int] passes over at either end. *)
Definition is_int_space (c : ascii) : bool :=
  PyChar.between 9 13 c || PyChar.between 32 32 c
  || PyChar.between 133 133 c || PyChar.between 160 160 c.

Definition is_digit (c : ascii) : bool := PyChar.between 48 57 c.

Definition is_underscore (c : ascii) : bool := PyChar.between 95 95 c.

Definition in_numeral (c : ascii) : bool := is_digit c || is_underscore c.

(** Underscores stand one at a time and between two digits; there is at
    least one digit. [after_digit] tells whether the character before was a
    digit. *)
Fixpoint grouped (after_digit : bool) (l : list ascii) : bool :=
  match l with
  | [] => after_digit
  | c :: l' =>
      if is_digit c then grouped true l'
      else if is_underscore c then after_digit && grouped false l'
      else false
  end.

(** The default of [sys.get_int_max_str_digits()]. *)
Definition int_max_str_digits : nat := 4300.

(** A sign, if there is one, and what follows it. *)
Definition signed (l : list ascii) : bool * list ascii :=
  match l with
  | c :: l' =>
      if PyChar.between 45 45 c then (true, l')
      else if PyChar.between 43 43 c then (false, l')
      else (false, l)
  | [] => (false, l)
  end.

(** [int(s)] in base ten; [None] stands for [ValueError]. *)
Definition py_int (s : string) : option Z :=
  let '(negative, l) :=
    signed (PyStr.drop_while is_int_space (PyStr.chars s)) in
  let numeral := PyStr.take_while in_numeral l in
  let rest := PyStr.drop_while in_numeral l in
  let digits := filter is_digit numeral in
  if negb (grouped false numeral) then None
  else if int_max_str_digits <? List.length digits then None
  else if negb (forallb is_int_space rest) then None
  else
    match NilEmpty.uint_of_string (PyStr.of_chars digits) with
    | Some d => Some (if negative then (- Z.of_uint d)%Z else Z.of_uint d)
    | None => None
    end.

(** ** Host and port *)

(** The entry of [hosts] given to the client. *)
Record Host := { host : string; port : Z }.

Definition opensearch_host (OPENSEARCH_HOST : string) : string :=
  str_replace "https://" "" (str_replace "http://" "" OPENSEARCH_HOST).

Definition host_parts (OPENSEARCH_HOST : string) : list string :=
  str_split ":" (opensearch_host OPENSEARCH_HOST).

Definition ValueError : string := "ValueError".
Definition IndexError : string := "IndexError".

(** [{"host": host_parts[0],
      "port": int(host_parts[1]) if len(host_parts) > 1 else 9200}] *)
Definition hosts (OPENSEARCH_HOST : string) : outcome Host :=
  match host_parts OPENSEARCH_HOST with
  | [] => Raised IndexError
  | first :: others =>
      match others with
      | [] => Returned {| host := first; port := 9200 |}
      | second :: _ =>
          match py_int second with
          | Some n => Returned {| host := first; port := n |}
          | None => Raised ValueError
          end
      end
  end.

(** [str(n)] for a natural number: its decimal numeral. *)
Definition decimal (n : N) : string := NilZero.string_of_uint (N.to_uint n).

(** The character [c] does not occur in [s]. *)
Definition without (c : ascii) (s : string) : Prop :=
  ~ In c (PyStr.chars s).

(** [s] begins with [p]. *)
Definition begins_with (p s : string) : Prop :=
  starts_with (PyStr.chars p) (PyStr.chars s) = true.

(** The characters that a numeral read by [int] is made of. *)
Definition int_character (c : ascii) : bool :=
  is_int_space c || in_numeral c
  || PyChar.between 43 43 c || PyChar.between 45 45 c.

(** What [int] cannot read: a text without a digit, or with a character
    that is no digit, underscore, sign or white space. *)
Definition unreadable (s : string) : Prop :=
  existsb is_digit (PyStr.chars s) = false \/
  forallb int_character (PyStr.chars s) = false.

(** * Properties *)

(** ** Loops that append *)

Section AppendLoops.
Context {A B : Type}.
Variable step : A -> list B.

Lemma fold_left_append (l : list A) (acc : list B) :
  fold_left (fun acc x => acc ++ step x) l acc = acc ++ flat_map step l.
Proof.
  revert acc; induction l as [|x l IH]; intros acc; simpl.
  - now rewrite app_nil_r.
  - now rewrite IH, app_assoc.
Qed.

Lemma fold_left_ext (f g : list B -> A -> list B) (l : list A) acc :
  (forall acc x, f acc x = g acc x) -> fold_left f l acc = fold_left g l acc.
Proof.
  intros E; revert acc; induction l as [|x l IH]; intros acc; simpl; auto.
  now rewrite E, IH.
Qed.
End AppendLoops.

Lemma flat_map_filter_map {A B} (p : A -> bool) (f : A -> B) (l : list A) :
  flat_map (fun x => if p x then [f x] else []) l = map f (filter p l).
Proof.
  induction l as [|x l IH]; simpl; auto.
  destruct (p x); simpl; now rewrite IH.
Qed.

Lemma filter_subseq {A} (p : A -> bool) (l : list A) : subseq (filter p l) l.
Proof.
  induction l as [|x l IH]; simpl; [constructor|].
  destruct (p x); now constructor.
Qed.

Lemma filter_length_le {A} (p : A -> bool) (l : list A) :
  List.length (filter p l) <= List.length l.
Proof.
  induction l as [|x l IH]; simpl; auto.
  destruct (p x); simpl; lia.
Qed.

(** ** The chunk filter as a filter *)

Lemma filter_chunks_filter cfg elements :
  filter_chunks cfg elements = map (chunk_of cfg) (filter (kept cfg) elements).
Proof.
  unfold filter_chunks.
  rewrite (fold_left_ext
             (filter_step cfg)
             (fun acc x =>
                acc ++ (if kept cfg x then [chunk_of cfg x] else []))).
  - rewrite fold_left_append; simpl. apply flat_map_filter_map.
  - intros acc x. unfold filter_step, kept, chunk_of.
    destruct (keeps cfg (resolve_text x)); auto using app_nil_r.
Qed.

Lemma keeps_spec cfg s :
  keeps cfg s = true <->
  s <> "" /\ (MIN_CHUNK_LENGTH cfg <= Z.of_nat (String.length s))%Z.
Proof.
  unfold keeps. rewrite andb_true_iff, Z.leb_le.
  destruct s; simpl; intuition congruence.
Qed.

(** ** The embedding enricher as a filter *)

Lemma generate_embeddings_filter cfg embed chunks :
  generate_embeddings cfg embed chunks =
  map (enrich cfg embed) (filter (accepted cfg embed) chunks).
Proof.
  unfold generate_embeddings.
  rewrite (fold_left_ext
             (embed_step cfg embed)
             (fun acc c => acc ++ (if accepted cfg embed c
                                   then [enrich cfg embed c] else []))).
  - rewrite fold_left_append; simpl. apply flat_map_filter_map.
  - intros acc c. unfold embed_step, accepted, enrich, accepted_vector.
    destruct (embed (text c)) as [e|v]; [auto using app_nil_r|].
    destruct (wrong_dimension cfg v); [auto using app_nil_r|].
    destruct (has_nan_or_inf v); auto using app_nil_r.
Qed.

Lemma accepted_vector_valid cfg embed c v :
  accepted_vector cfg embed c = Some v ->
  embed (text c) = Embedding v /\
  Z.of_nat (List.length v) = EMBEDDING_DIMENSION cfg /\
  Forall (fun x => is_finite x = true) v.
Proof.
  unfold accepted_vector.
  destruct (embed (text c)) as [e|w]; [discriminate|].
  destruct (wrong_dimension cfg w) eqn:D; [discriminate|].
  destruct (has_nan_or_inf w) eqn:N; [discriminate|].
  intros [= <-]. split; [reflexivity|]. split.
  - unfold wrong_dimension in D. apply negb_false_iff in D.
    now apply Z.eqb_eq.
  - apply Forall_forall. intros x Hx. unfold is_finite.
    apply negb_true_iff.
    destruct (is_nan x || is_infinity x) eqn:E; auto.
    assert (has_nan_or_inf w = true) as K; [|congruence].
    apply existsb_exists. now exists x.
Qed.

(** ** The actions of the bulk call *)

Lemma build_actions_map cfg chunks :
  build_actions cfg chunks =
  map (fun ic => make_action cfg (fst ic) (snd ic)) (enumerate chunks).
Proof.
  unfold build_actions.
  rewrite (fold_left_append (fun ic => [make_action cfg (fst ic) (snd ic)])).
  simpl. induction (enumerate chunks) as [|x l IH]; simpl; now f_equal.
Qed.

Lemma map_snd_enumerate {A} (l : list A) : map snd (enumerate l) = l.
Proof.
  unfold enumerate. generalize 0.
  induction l as [|x l IH]; intros n; simpl; now f_equal.
Qed.

Lemma build_actions_sources cfg chunks :
  map _source (build_actions cfg chunks) = map make_doc chunks.
Proof.
  rewrite build_actions_map, map_map. simpl.
  rewrite <- (map_snd_enumerate chunks) at 2. now rewrite map_map.
Qed.

Lemma build_actions_ids cfg chunks :
  map _id (build_actions cfg chunks) =
  map (fun ic => action_id (fst ic) (snd ic)) (enumerate chunks).
Proof. rewrite build_actions_map, map_map. reflexivity. Qed.

(** ** The chunk filter (C5, C8, C10) *)

(** C5, as stated, fails: with the threshold set to 0 an element whose text
    is empty has a resolved text of length 0, which is not below the
    threshold, and yet no chunk is produced for it. *)
Lemma threshold_zero_drops_empty_text :
  (MIN_CHUNK_LENGTH zero_config
   <= Z.of_nat (String.length (resolve_text (text_element ""))))%Z
  /\ filter_chunks zero_config [text_element ""] = []
  /\ ~ (forall cfg e,
          filter_chunks cfg [e] = [chunk_of cfg e] <->
          (MIN_CHUNK_LENGTH cfg
           <= Z.of_nat (String.length (resolve_text e)))%Z).
Proof.
  split; [vm_compute; discriminate|]. split; [reflexivity|].
  intros Claim.
  destruct (Claim zero_config (text_element "")) as [_ Produced].
  discriminate Produced. vm_compute. discriminate.
Qed.

(** C5, amended: the filter produces a chunk for an element exactly when the
    resolved text is non-empty and at least as long as the threshold, and no
    chunk otherwise; when the threshold is at least 1 this is exactly when
    the length is at least the threshold, a text of exactly the threshold
    length included; elements of resolved lengths 50, 150 and 100 under the
    threshold 100 give the two chunks of the second and the third. *)
Theorem filter_keeps_nonempty_at_least_threshold (cfg : Config) :
  (forall e,
      let long_enough :=
        resolve_text e <> "" /\
        (MIN_CHUNK_LENGTH cfg <= Z.of_nat (String.length (resolve_text e)))%Z in
      (filter_chunks cfg [e] = [chunk_of cfg e] <-> long_enough) /\
      (filter_chunks cfg [e] = [] <-> ~ long_enough)) /\
  ((1 <= MIN_CHUNK_LENGTH cfg)%Z ->
   forall e,
     let at_least :=
       (MIN_CHUNK_LENGTH cfg <= Z.of_nat (String.length (resolve_text e)))%Z in
     (filter_chunks cfg [e] = [chunk_of cfg e] <-> at_least) /\
     (filter_chunks cfg [e] = [] <-> ~ at_least)) /\
  (MIN_CHUNK_LENGTH cfg = 100%Z ->
   forall e1 e2 e3,
     String.length (resolve_text e1) = 50 ->
     String.length (resolve_text e2) = 150 ->
     String.length (resolve_text e3) = 100 ->
     filter_chunks cfg [e1; e2; e3] = [chunk_of cfg e2; chunk_of cfg e3]).
Proof.
  assert (forall e,
             (filter_chunks cfg [e] = [chunk_of cfg e] <-> kept cfg e = true) /\
             (filter_chunks cfg [e] = [] <-> kept cfg e <> true)) as One.
  { intros e. rewrite filter_chunks_filter. simpl.
    destruct (kept cfg e); simpl; intuition congruence. }
  split; [|split].
  - intros e long_enough. subst long_enough.
    destruct (One e) as [K D]. unfold kept in K, D.
    rewrite keeps_spec in K, D. now split.
  - intros Hmin e at_least. subst at_least.
    destruct (One e) as [K D]. unfold kept in K, D.
    rewrite keeps_spec in K, D.
    set (n := Z.of_nat (String.length (resolve_text e))) in *.
    assert (resolve_text e <> "" /\ (MIN_CHUNK_LENGTH cfg <= n)%Z
            <-> (MIN_CHUNK_LENGTH cfg <= n)%Z) as E.
    { split; [tauto|]. intros L. split; auto.
      intros Z0. subst n. rewrite Z0 in L. simpl in L. lia. }
    rewrite E in K, D. now split.
  - intros Hmin e1 e2 e3 L1 L2 L3.
    rewrite filter_chunks_filter. simpl.
    assert (forall e n, String.length (resolve_text e) = n ->
                        kept cfg e = (100 <=? n)) as K.
    { intros e n L. unfold kept, keeps. rewrite Hmin, L.
      destruct (resolve_text e); cbn [PyStr.truthy andb].
      - cbn in L. subst n. reflexivity.
      - destruct (Nat.leb_spec 100 n); [apply Z.leb_le | apply Z.leb_gt]; lia. }
    rewrite (K e1 50 L1), (K e2 150 L2), (K e3 100 L3). reflexivity.
Qed.

Lemma filter_keeps_nonempty_at_least_threshold_witness :
  filter_chunks default_config
    [text_element (letters "a" 50); text_element (letters "b" 150);
     text_element (letters "c" 100)]
  = [chunk_of default_config (text_element (letters "b" 150));
     chunk_of default_config (text_element (letters "c" 100))]
  /\ (filter_chunks default_config [text_element (letters "c" 100)]
      = [chunk_of default_config (text_element (letters "c" 100))]).
Proof.
  split.
  - apply (proj2 (proj2 (filter_keeps_nonempty_at_least_threshold
                           default_config)));
      reflexivity.
  - apply (proj1 (proj2 (filter_keeps_nonempty_at_least_threshold
                           default_config))).
    + simpl; lia.
    + vm_compute; discriminate.
Defined.

(** C8: the chunk filter returns the chunks of the kept elements and nothing
    else, in the order of the input; the enricher returns the accepted chunks
    with their vectors and nothing else, in the order of its input, so its
    output is a subsequence of its input and no longer than it. *)
Theorem filter_and_enricher_preserve_order
  (cfg : Config) (embed : provider) :
  (forall elements,
      filter_chunks cfg elements
      = map (chunk_of cfg) (filter (kept cfg) elements)
      /\ subseq (map text (filter_chunks cfg elements))
                (map resolve_text elements)) /\
  (forall chunks,
      map chunk (generate_embeddings cfg embed chunks)
      = filter (accepted cfg embed) chunks
      /\ subseq (map chunk (generate_embeddings cfg embed chunks)) chunks
      /\ List.length (generate_embeddings cfg embed chunks)
         <= List.length chunks).
Proof.
  split.
  - intros elements. split; [apply filter_chunks_filter|].
    rewrite filter_chunks_filter, map_map. simpl.
    induction elements as [|e l IH]; simpl; [constructor|].
    destruct (kept cfg e); simpl; now constructor.
  - intros chunks. rewrite generate_embeddings_filter, map_map. simpl.
    rewrite map_id, length_map.
    auto using filter_subseq, filter_length_le.
Qed.

Lemma join_items_truthy_strings items :
  join_items items = String.concat " " (truthy_strings items).
Proof.
  unfold join_items, PyStr.join. f_equal.
  induction items as [|[[|a s]|] l IH]; simpl; auto. now f_equal.
Qed.

(** C10: a ["text"] that is present but falsy -- [None], the empty string or
    the empty list -- makes the resolution read ["content"] instead, as an
    absent ["text"] does; and when the value read is a list, the resolved
    text is the strip of its truthy entries joined by single spaces. *)
Theorem falsy_text_falls_back_to_content (e : RawElement) :
  (truthy TNone = false /\ truthy (TStr "") = false
   /\ truthy (TList []) = false)
  /\ (forall v, el_text e = Some v -> truthy v = false ->
                raw_text e = get_or (el_content e) (TStr ""))
  /\ (el_text e = None -> raw_text e = get_or (el_content e) (TStr ""))
  /\ (forall items, raw_text e = TList items ->
        resolve_text e =
        let joined := String.concat " " (truthy_strings items) in
        if PyStr.truthy joined then PyStr.strip joined else "").
Proof.
  split; [now repeat split|]. split; [|split].
  - intros v Hv F. unfold raw_text, py_or. rewrite Hv. simpl. now rewrite F.
  - intros Hv. unfold raw_text, py_or. now rewrite Hv.
  - intros items R. unfold resolve_text. rewrite R.
    now rewrite join_items_truthy_strings.
Qed.

Lemma falsy_text_falls_back_to_content_witness :
  raw_text list_fallback_element
  = TList [Some "first"; None; Some ""; Some "second "]
  /\ resolve_text list_fallback_element = "first second".
Proof.
  split.
  - exact (proj1 (proj2 (falsy_text_falls_back_to_content
                           list_fallback_element))
             (TList []) eq_refl eq_refl).
  - exact (proj2 (proj2 (proj2
             (falsy_text_falls_back_to_content list_fallback_element)))
             [Some "first"; None; Some ""; Some "second "] eq_refl).
Defined.

(** ** The embedding enricher (C6) *)

Lemma rejected_not_accepted cfg embed c :
  rejected cfg embed c -> accepted cfg embed c = false.
Proof.
  unfold accepted.
  destruct (accepted_vector cfg embed c) as [v|] eqn:V; auto.
  apply accepted_vector_valid in V. destruct V as (E & L & F).
  intros [[e He] | (w & Hw & [D | N])]; try congruence.
  rewrite E in Hw. injection Hw as Hw. subst w. exfalso.
  apply Exists_exists in N. destruct N as (x & Hx & N).
  rewrite Forall_forall in F. specialize (F x Hx).
  unfold is_finite in F. apply negb_true_iff, orb_false_iff in F.
  destruct F, N; congruence.
Qed.

Lemma not_rejected_accepted cfg embed c :
  accepted cfg embed c = false -> rejected cfg embed c.
Proof.
  unfold accepted, accepted_vector, rejected.
  destruct (embed (text c)) as [e|v]; [left; now exists e|].
  destruct (wrong_dimension cfg v) eqn:D.
  - intros _. right. exists v. split; auto. left.
    unfold wrong_dimension in D. apply negb_true_iff, Z.eqb_neq in D. exact D.
  - destruct (has_nan_or_inf v) eqn:N; [|discriminate].
    intros _. right. exists v. split; auto. right.
    apply existsb_exists in N. destruct N as (x & Hx & N).
    apply Exists_exists. exists x. split; auto.
    now apply orb_true_iff in N.
Qed.

(** C6: every chunk that the enricher returns carries the vector the
    provider gave for its text, of the configured dimension and with finite
    components only; a chunk for which the provider raised, or returned a
    vector of another length or one with a NaN or infinite component, is not
    among the returned chunks; and every other chunk of the input is
    returned with its vector, whatever happened to the chunks around it. *)
Theorem enriched_vectors_valid
  (cfg : Config) (embed : provider) (chunks : list Chunk) :
  let enriched := generate_embeddings cfg embed chunks in
  Forall (fun ec =>
            In (chunk ec) chunks /\
            embed (text (chunk ec)) = Embedding (vector_field ec) /\
            Z.of_nat (List.length (vector_field ec))
            = EMBEDDING_DIMENSION cfg /\
            Forall (fun x => is_finite x = true) (vector_field ec)) enriched
  /\ (forall c, rejected cfg embed c -> ~ In c (map chunk enriched))
  /\ (forall c, In c chunks -> ~ rejected cfg embed c ->
                exists v, embed (text c) = Embedding v /\
                          In {| chunk := c; vector_field := v |} enriched).
Proof.
  intros enriched. subst enriched. rewrite generate_embeddings_filter.
  split; [|split].
  - apply Forall_forall. intros ec Hec.
    apply in_map_iff in Hec. destruct Hec as (c & <- & Hc).
    apply filter_In in Hc. destruct Hc as [Hin Hacc].
    unfold accepted in Hacc. unfold enrich. simpl.
    destruct (accepted_vector cfg embed c) as [v|] eqn:V; [|discriminate].
    apply accepted_vector_valid in V. simpl. tauto.
  - intros c R Hin. rewrite map_map in Hin. simpl in Hin. rewrite map_id in Hin.
    apply filter_In in Hin. destruct Hin as [_ A].
    rewrite (rejected_not_accepted _ _ _ R) in A. discriminate.
  - intros c Hin NR.
    destruct (accepted cfg embed c) eqn:A.
    + pose proof A as A'. unfold accepted in A'.
      destruct (accepted_vector cfg embed c) as [v|] eqn:V; [|discriminate].
      exists v. split; [now apply accepted_vector_valid in V|].
      apply in_map_iff. exists c. split.
      * unfold enrich. now rewrite V.
      * apply filter_In. now split.
    + contradiction NR. now apply not_rejected_accepted.
Qed.

Lemma enriched_vectors_valid_witness :
  ~ In (sample_chunk "n")
       (map chunk (generate_embeddings small_config faulty_provider
                     sample_chunks))
  /\ exists v, faulty_provider (text (sample_chunk "k")) = Embedding v /\
       In {| chunk := sample_chunk "k"; vector_field := v |}
          (generate_embeddings small_config faulty_provider sample_chunks).
Proof.
  pose proof (enriched_vectors_valid small_config faulty_provider sample_chunks)
    as (_ & Absent & Present).
  split.
  - apply Absent. right. exists [0%float; nan; 0%float].
    split; [reflexivity|]. right.
    apply Exists_cons_tl, Exists_cons_hd. left. reflexivity.
  - apply Present.
    + simpl. auto.
    + intros [[e He] | (v & Hv & [D | N])].
      * vm_compute in He. discriminate.
      * vm_compute in Hv. injection Hv as Hv. subst v. apply D. reflexivity.
      * vm_compute in Hv. injection Hv as Hv. subst v.
        apply Exists_exists in N. destruct N as (x & Hx & N).
        simpl in Hx. destruct Hx as [<-|[<-|[<-|[]]]];
          destruct N as [N | N]; vm_compute in N; discriminate.
Defined.

(** A provider that answers with 1500 components under the default
    dimension 1536: the chunk is dropped, and dropping it does not stop
    the chunks after it from being embedded. *)
Example short_vector_is_dropped :
  generate_embeddings default_config short_provider
    [chunk_of default_config (text_element (letters "a" 100))] = []
  /\ map (fun ec => text (chunk ec))
         (generate_embeddings small_config faulty_provider sample_chunks)
     = [letters "k" 100].
Proof. split; vm_compute; reflexivity. Qed.

(** ** The document assembler (C7, C1) *)

Lemma join_space_joined ks : PyStr.join " " ks = space_joined ks.
Proof.
  unfold PyStr.join.
  induction ks as [|k [|k' ks] IH]; auto.
  change (String.concat " " (k :: k' :: ks))
    with (k ++ " " ++ String.concat " " (k' :: ks))%string.
  now rewrite IH.
Qed.

(** C7: the action built for each enriched chunk, whatever its position,
    carries a document whose [content], [text] and [page_content] are the
    chunk's text, whose [keywords] are the chunk's keywords and whose
    [keywords_text] is these keywords separated by single spaces, the empty
    string when there are none. *)
Theorem document_fields_mirror_chunk
  (cfg : Config) (chunks : list EnrichedChunk) :
  Forall2 (fun c a =>
             doc_content (_source a) = text (chunk c) /\
             doc_text (_source a) = text (chunk c) /\
             doc_page_content (_source a) = text (chunk c) /\
             doc_keywords (_source a) = keywords (chunk c) /\
             doc_keywords_text (_source a) = space_joined (keywords (chunk c)))
          chunks (build_actions cfg chunks)
  /\ space_joined [] = "".
Proof.
  split; [|reflexivity].
  assert (Forall2 (fun c d => d = make_doc c) chunks
                  (map _source (build_actions cfg chunks))) as H.
  { rewrite build_actions_sources.
    induction chunks; simpl; constructor; auto. }
  remember (build_actions cfg chunks) as actions eqn:E. clear E.
  revert actions H. induction chunks as [|c l IH]; intros [|a actions] H;
    simpl in H; inversion H; subst; constructor; auto.
  match goal with K : _source a = make_doc c |- _ => rewrite K end.
  simpl. rewrite join_space_joined. now repeat split.
Qed.

(** C1 fails on the code: two elements that carry no [element_id] and pass
    both filters are indexed under the same identity key, the empty string,
    and no key of the form [support_chunk_<i>] is made. *)
Lemma ids_without_element_id_collide :
  map _id (ingest_actions default_config zero_provider
             [text_element (letters "a" 100); text_element (letters "b" 120)])
  = [""; ""].
Proof. vm_compute. reflexivity. Qed.

(** The cause: the metadata that [filter_chunks] builds always holds the key
    ["element_id"], so the default of the lookup is never used. *)
Lemma action_id_of_filtered_chunk cfg embed elements :
  map _id (ingest_actions cfg embed elements)
  = map (fun e => get_or (el_element_id e) "")
        (filter (fun e => accepted cfg embed (chunk_of cfg e))
                (filter (kept cfg) elements)).
Proof.
  unfold ingest_actions.
  rewrite build_actions_ids, generate_embeddings_filter, filter_chunks_filter.
  remember (filter (kept cfg) elements) as l eqn:E. clear E.
  unfold enumerate. generalize 0.
  induction l as [|e l IH]; intros n; simpl; auto.
  destruct (accepted cfg embed (chunk_of cfg e)); simpl; auto.
  f_equal. apply IH.
Qed.

(** ** The bulk indexer (C9) *)

Lemma failures_shown_map items :
  failures_shown (map report_failure items)
  = map (fun item => (failure_id item, failure_reason item)) items.
Proof. induction items as [|x l IH]; simpl; auto. now f_equal. Qed.

Lemma report_bulk_returned n failed :
  snd (report_bulk (BulkReturned n failed)) = Returns /\
  In (IndexingComplete n (List.length failed))
     (fst (report_bulk (BulkReturned n failed))) /\
  failures_shown (fst (report_bulk (BulkReturned n failed)))
  = map (fun item => (failure_id item, failure_reason item)) (firstn 5 failed).
Proof.
  destruct failed as [|x failed]; [simpl; auto|].
  remember (x :: failed) as l eqn:E.
  assert (fst (report_bulk (BulkReturned n l))
          = (FailedToIndex (List.length l) :: map report_failure (firstn 5 l))
              ++ [IndexingComplete n (List.length l)]) as P
      by (subst l; reflexivity).
  rewrite P. split; [subst l; reflexivity|]. split.
  - apply in_or_app. right. now left.
  - unfold failures_shown at 1. rewrite flat_map_app.
    cbn [flat_map app]. rewrite app_nil_r. apply failures_shown_map.
Qed.

Lemma failure_is_key_and_reason item :
  failure_id item = identity_key item /\
  failure_reason item = rejection_reason item.
Proof.
  destruct item as [[[[doc_id|] [[[reason|]|s]|]]|]]; split; reflexivity.
Qed.

Lemma report_bulk_expected n failed :
  fst (report_bulk (BulkReturned n failed)) = expected_report n failed.
Proof.
  destruct failed as [|x failed]; [reflexivity|].
  unfold report_bulk, expected_report, fst. f_equal. f_equal.
  apply map_ext. intros item. unfold report_failure.
  destruct (failure_is_key_and_reason item) as [-> ->]. reflexivity.
Qed.

(** C9: when the bulk call returns, [index_to_opensearch] returns too, prints
    the number of accepted and of rejected documents, and names the first
    five rejected documents at most, each with its identity key and reason:
    a rejected document that the response lists with the ['_id'] [doc_id]
    and the reason [reason] is named by exactly these two, at its place in
    the response. The lines printed are the heading followed by the expected
    report, and no other. When the bulk call raises, the same exception
    leaves [index_to_opensearch]. *)
Theorem bulk_report_counts_and_samples
  (cfg : Config) (bulk : bulk_client) (chunks : list EnrichedChunk) :
  let printed := fst (index_to_opensearch cfg bulk chunks) in
  let outcome := snd (index_to_opensearch cfg bulk chunks) in
  match bulk (build_actions cfg chunks) with
  | BulkReturned success_count failed =>
      outcome = Returns /\
      In (IndexingComplete success_count (List.length failed)) printed /\
      failures_shown printed
      = map (fun item => (failure_id item, failure_reason item))
            (firstn 5 failed) /\
      List.length (failures_shown printed) <= 5 /\
      printed
      = Indexing (List.length chunks) :: expected_report success_count failed /\
      failures_shown printed
      = map (fun item => (identity_key item, rejection_reason item))
            (firstn 5 failed) /\
      (forall i doc_id reason,
          i < 5 -> nth_error failed i = Some (rejection doc_id reason) ->
          nth_error (failures_shown printed) i = Some (doc_id, reason))
  | BulkRaised e => outcome = Raises e
  end.
Proof.
  intros printed outcome. subst printed outcome.
  unfold index_to_opensearch.
  destruct (bulk (build_actions cfg chunks)) as [e | n failed];
    [reflexivity|].
  destruct (report_bulk_returned n failed) as (R & C & F).
  pose proof (report_bulk_expected n failed) as X.
  destruct (report_bulk (BulkReturned n failed)) as [printed outcome].
  cbn [fst snd] in *. split; [assumption|]. split; [now right|].
  change (failures_shown (Indexing (List.length chunks) :: printed))
    with (failures_shown printed).
  assert (K : failures_shown printed
              = map (fun item => (identity_key item, rejection_reason item))
                    (firstn 5 failed)).
  { rewrite F. apply map_ext. intros item.
    destruct (failure_is_key_and_reason item) as [-> ->]. reflexivity. }
  split; [exact F|]. split; [rewrite F, length_map; apply firstn_le_length|].
  split; [now rewrite X|]. split; [exact K|].
  intros i doc_id reason Hi Hn.
  rewrite K, nth_error_map, nth_error_firstn.
  apply Nat.ltb_lt in Hi. rewrite Hi, Hn. reflexivity.
Qed.

Lemma bulk_report_counts_and_samples_witness :
  nth_error
    (failures_shown
       (fst (index_to_opensearch default_config
               (fun _ => BulkReturned 8
                           [rejection "a1" "mapper_parsing_exception";
                            rejection "a2" "version_conflict"])
               [])))
    1
  = Some ("a2", "version_conflict").
Proof.
  apply (bulk_report_counts_and_samples default_config
           (fun _ => BulkReturned 8
                       [rejection "a1" "mapper_parsing_exception";
                        rejection "a2" "version_conflict"])
           []).
  - apply Nat.ltb_lt. reflexivity.
  - reflexivity.
Defined.

(** Eight documents accepted and two rejected: the lines printed. *)
Example report_of_partial_failure :
  map render
      (fst (index_to_opensearch default_config
              (fun _ => BulkReturned 8
                          [rejection "a1" "mapper_parsing_exception";
                           rejection "a2" "version_conflict"])
              []))
  = [ "Indexing 0 chunks into OpenSearch...";
      String PyStr.newline "Failed to index 2 documents:";
      "  - a1: mapper_parsing_exception";
      "  - a2: version_conflict";
      String PyStr.newline "Indexing complete: 8 succeeded, 2 failed" ].
Proof. reflexivity. Qed.

(** ** Characters and strings *)

Lemma letter_is_word c :
  PyChar.is_ascii_letter c = true -> PyChar.is_word c = true.
Proof.
  assert (implb (PyChar.is_ascii_letter c) (PyChar.is_word c) = true) as H
      by (destruct c as [[] [] [] [] [] [] [] []]; reflexivity).
  intros E. now rewrite E in H.
Qed.

Lemma lower_not_upper c : PyChar.is_ascii_upper (PyChar.lower c) = false.
Proof. destruct c as [[] [] [] [] [] [] [] []]; reflexivity. Qed.

Lemma letter_not_upper_lower c :
  PyChar.is_ascii_letter c = true -> PyChar.is_ascii_upper c = false ->
  PyChar.is_ascii_lower c = true.
Proof.
  unfold PyChar.is_ascii_letter. intros L U. rewrite U in L.
  now rewrite orb_false_r in L.
Qed.

Lemma lower_fixes_lowercase c :
  PyChar.is_ascii_lower c = true -> PyChar.lower c = c.
Proof.
  assert (implb (PyChar.is_ascii_lower c)
                (Ascii.eqb (PyChar.lower c) c) = true) as H
      by (destruct c as [[] [] [] [] [] [] [] []]; reflexivity).
  intros E. rewrite E in H. now apply Ascii.eqb_eq.
Qed.

Lemma chars_of_chars l : PyStr.chars (PyStr.of_chars l) = l.
Proof. apply list_ascii_of_string_of_list_ascii. Qed.

Lemma length_of_chars l : String.length (PyStr.of_chars l) = List.length l.
Proof. induction l as [|c l IH]; simpl; auto. Qed.

Lemma mem_In w l : PyStr.mem w l = true <-> In w l.
Proof.
  unfold PyStr.mem. rewrite existsb_exists. split.
  - intros (x & Hx & E). apply String.eqb_eq in E. now subst.
  - intros H. exists w. split; auto. apply String.eqb_refl.
Qed.

(** ** Prefixes cut by a predicate *)

Section TakeDrop.
Context {A : Type}.
Variable p : A -> bool.

Lemma take_drop (l : list A) :
  PyStr.take_while p l ++ PyStr.drop_while p l = l.
Proof.
  induction l as [|x l IH]; simpl; auto.
  destruct (p x); simpl; now f_equal.
Qed.

Lemma take_while_all (l : list A) : forallb p (PyStr.take_while p l) = true.
Proof.
  induction l as [|x l IH]; simpl; auto.
  destruct (p x) eqn:E; simpl; auto. now rewrite E.
Qed.

Lemma firstn_take_while (l : list A) :
  firstn (List.length (PyStr.take_while p l)) l = PyStr.take_while p l.
Proof.
  induction l as [|x l IH]; simpl; auto.
  destruct (p x); simpl; now f_equal.
Qed.

Lemma skipn_take_while (l : list A) :
  skipn (List.length (PyStr.take_while p l)) l = PyStr.drop_while p l.
Proof.
  induction l as [|x l IH]; simpl; auto.
  destruct (p x); simpl; auto.
Qed.

Lemma nth_take_while (l : list A) :
  nth_error l (List.length (PyStr.take_while p l))
  = hd_error (PyStr.drop_while p l).
Proof.
  induction l as [|x l IH]; simpl; auto.
  destruct (p x); simpl; auto.
Qed.

Lemma nth_inside_take_while (l : list A) k :
  k < List.length (PyStr.take_while p l) ->
  exists x, nth_error l k = Some x /\ p x = true.
Proof.
  revert k; induction l as [|x l IH]; intros k; simpl; [lia|].
  destruct (p x) eqn:E; simpl; [|lia].
  destruct k as [|k]; simpl; [now exists x|].
  intros H. apply IH. lia.
Qed.

Lemma drop_while_stuck (l : list A) :
  match hd_error l with Some x => p x = false | None => True end ->
  PyStr.drop_while p l = l /\ PyStr.take_while p l = [].
Proof.
  destruct l as [|x l]; simpl; auto. now intros ->.
Qed.
End TakeDrop.

(** ** What [findall] finds *)

Local Abbreviation letter := PyChar.is_ascii_letter.
Local Abbreviation wordc := PyChar.is_word.
Local Abbreviation take_while := PyStr.take_while.
Local Abbreviation drop_while := PyStr.drop_while.

Lemma backtrack_inside s k :
  k < List.length (take_while letter s) -> Regex.backtrack s k = None.
Proof.
  induction k as [|k IH]; intros H; [reflexivity|].
  cbn [Regex.backtrack]. destruct (3 <=? S k); [|reflexivity].
  destruct (nth_inside_take_while letter s k) as (x & Hx & Lx); [lia|].
  destruct (nth_inside_take_while letter s (S k)) as (y & Hy & Ly); [lia|].
  rewrite Hx, Hy. unfold Regex.at_boundary. simpl.
  rewrite (letter_is_word _ Lx), (letter_is_word _ Ly). simpl.
  apply IH. lia.
Qed.

Lemma match_here_spec prev s :
  Regex.match_here prev s =
  if Regex.at_boundary prev (hd_error s)
     && (3 <=? List.length (take_while letter s))
     && negb (Regex.is_word_opt (hd_error (drop_while letter s)))
  then Some (take_while letter s)
  else None.
Proof.
  unfold Regex.match_here.
  destruct (Regex.at_boundary prev (hd_error s)); [|reflexivity].
  cbn [andb].
  pose proof (nth_take_while letter s) as Next.
  pose proof (firstn_take_while letter s) as First.
  pose proof (backtrack_inside s) as Inside.
  pose proof (nth_inside_take_while letter s) as Nth.
  destruct (List.length (take_while letter s)) as [|k]; [reflexivity|].
  cbn [Regex.backtrack]. destruct (3 <=? S k); [|reflexivity].
  destruct (Nth k) as (x & Hx & Lx); [lia|].
  rewrite Hx, Next, First. unfold Regex.at_boundary at 1.
  cbn [Regex.is_word_opt]. rewrite (letter_is_word _ Lx). cbn [andb xorb].
  destruct (Regex.is_word_opt (hd_error (drop_while letter s)));
    cbn [negb]; [apply Inside; lia | reflexivity].
Qed.

Lemma runs_split p acc s :
  runs p acc s =
  flush (acc ++ take_while p s) ++ runs p [] (drop_while p s).
Proof.
  revert acc; induction s as [|c s IH]; intros acc.
  - simpl. now rewrite !app_nil_r.
  - cbn [runs take_while drop_while]. destruct (p c) eqn:E.
    + rewrite IH, <- app_assoc. reflexivity.
    + rewrite app_nil_r. cbn [runs]. rewrite E. reflexivity.
Qed.

(** With a word character at the head, the first run is the longest
    prefix of word characters. *)
Lemma runs_word_head p c s :
  p c = true ->
  runs p [] (c :: s) =
  take_while p (c :: s) :: runs p [] (drop_while p (c :: s)).
Proof.
  intros E. rewrite runs_split. cbn [app take_while]. now rewrite E.
Qed.

(** Letters up to a character that is not a word character: the run of
    letters is the run of word characters. *)
Lemma letters_then_separator s :
  Regex.is_word_opt (hd_error (drop_while letter s)) = false ->
  take_while wordc s = take_while letter s /\
  drop_while wordc s = drop_while letter s.
Proof.
  induction s as [|c s IH]; [auto|].
  cbn [take_while drop_while]. destruct (letter c) eqn:E.
  - intros H. assert (wordc c = true) as Wc by now apply letter_is_word.
    rewrite Wc. destruct (IH H) as [-> ->]. auto.
  - cbn [hd_error Regex.is_word_opt]. now intros ->.
Qed.

Lemma word_run_of_letters s :
  forallb letter (take_while wordc s) = true ->
  take_while letter s = take_while wordc s /\
  Regex.is_word_opt (hd_error (drop_while letter s)) = false.
Proof.
  induction s as [|c s IH]; [auto|].
  cbn [take_while drop_while]. destruct (wordc c) eqn:E.
  - cbn [forallb]. intros H. apply andb_true_iff in H. destruct H as [Lc H].
    rewrite Lc. destruct (IH H) as [-> ->]. auto.
  - intros _. destruct (letter c) eqn:Lc.
    + apply letter_is_word in Lc. congruence.
    + cbn [hd_error Regex.is_word_opt]. auto.
Qed.

(** Passing over matched characters. *)
Lemma scan_skip n : forall s prev,
  n <= List.length s ->
  Regex.is_word_opt prev = true ->
  forallb wordc (firstn n s) = true ->
  exists prev', Regex.is_word_opt prev' = true /\
                Regex.scan prev n s = Regex.scan prev' 0 (skipn n s).
Proof.
  induction n as [|n IH]; intros s prev Len P F.
  - exists prev. auto.
  - destruct s as [|c s]; [simpl in Len; lia|].
    cbn [firstn forallb] in F. apply andb_true_iff in F. destruct F as [Wc F].
    destruct (IH s (Some c)) as (prev' & P' & E); auto.
    { simpl in Len. lia. }
    exists prev'. split; auto.
Qed.

Lemma tokens_of_runs_separator c s :
  wordc c = false -> tokens_of_runs (c :: s) = tokens_of_runs s.
Proof. intros E. unfold tokens_of_runs. cbn [runs]. now rewrite E. Qed.

Lemma tokens_of_runs_word c s :
  wordc c = true ->
  tokens_of_runs (c :: s) =
  (if is_token (take_while wordc (c :: s))
   then [take_while wordc (c :: s)] else [])
  ++ tokens_of_runs (drop_while wordc (c :: s)).
Proof.
  intros E. unfold tokens_of_runs. rewrite (runs_word_head wordc c s E).
  cbn [filter]. now destruct (is_token (take_while wordc (c :: s))).
Qed.

Lemma is_token_spec r :
  is_token r = true <->
  3 <= List.length r /\ Forall (fun c => letter c = true) r.
Proof.
  unfold is_token. rewrite andb_true_iff, Nat.leb_le, forallb_forall.
  now rewrite Forall_forall.
Qed.

(** The scan, started to the right of a non-word position, finds the runs of
    word characters that are tokens; started to the right of a word
    character, it first leaves the run it is in. *)
Lemma scan_tokens m : forall s,
  List.length s <= m ->
  (forall prev, Regex.is_word_opt prev = false ->
                Regex.scan prev 0 s = tokens_of_runs s) /\
  (forall prev, Regex.is_word_opt prev = true ->
                Regex.scan prev 0 s
                = tokens_of_runs (drop_while wordc s)).
Proof.
  induction m as [|m IH]; intros s Len.
  { destruct s; [split; reflexivity | simpl in Len; lia]. }
  destruct s as [|c s]; [split; reflexivity|].
  assert (List.length s <= m) as Len' by (simpl in Len; lia).
  destruct (IH s Len') as [A B].
  split; intros prev P; cbn [Regex.scan]; rewrite match_here_spec;
    cbn [hd_error]; unfold Regex.at_boundary at 1; rewrite P;
    cbn [Regex.is_word_opt xorb]; destruct (wordc c) eqn:Wc;
    cbn [andb negb xorb].
  - destruct ((3 <=? List.length (take_while letter (c :: s)))
              && negb (Regex.is_word_opt
                         (hd_error (drop_while letter (c :: s)))))
      eqn:M.
    + apply andb_true_iff in M. destruct M as [M3 Msep].
      apply negb_true_iff in Msep. apply Nat.leb_le in M3.
      destruct (letters_then_separator (c :: s) Msep) as [TW DW].
      rewrite (tokens_of_runs_word c s Wc), TW, DW.
      assert (is_token (take_while letter (c :: s)) = true)
        as Tok.
      { unfold is_token. rewrite take_while_all, andb_true_r.
        now apply Nat.leb_le. }
      rewrite Tok. cbn [app]. f_equal.
      revert M3 Msep. cbn [take_while drop_while].
      destruct (letter c); [|simpl; lia].
      intros M3 Msep. cbn [List.length]. rewrite Nat.sub_succ, Nat.sub_0_r.
      destruct (scan_skip
                  (List.length (take_while letter s))
                  s (Some c)) as (prev' & P' & E).
      * rewrite <- (take_drop letter s) at 2.
        rewrite length_app. lia.
      * exact Wc.
      * rewrite firstn_take_while. apply forallb_forall. intros x Hx.
        apply letter_is_word.
        pose proof (take_while_all letter s) as T.
        rewrite forallb_forall in T. now apply T.
      * rewrite E, skipn_take_while.
        assert (List.length (drop_while letter s) <= m)
          as LenR.
        { rewrite <- (take_drop letter s) in Len'.
          rewrite length_app in Len'. lia. }
        destruct (IH _ LenR) as [_ BR]. rewrite (BR prev' P').
        destruct (drop_while_stuck wordc
                    (drop_while letter s)) as [-> _];
          [|reflexivity].
        destruct (hd_error (drop_while letter s));
          [exact Msep | exact I].
    + rewrite (B (Some c) Wc), (tokens_of_runs_word c s Wc).
      destruct (is_token (take_while wordc (c :: s))) eqn:Tok.
      * exfalso. unfold is_token in Tok. apply andb_true_iff in Tok.
        destruct Tok as [T3 TL].
        destruct (word_run_of_letters (c :: s) TL) as [E Sep].
        rewrite E, T3, Sep in M. discriminate.
      * cbn [app drop_while]. now rewrite Wc.
  - rewrite (A (Some c) Wc). symmetry. now apply tokens_of_runs_separator.
  - rewrite (B (Some c) Wc). cbn [drop_while]. now rewrite Wc.
  - assert (letter c = false) as Lc.
    { destruct (letter c) eqn:Lc; auto.
      apply letter_is_word in Lc. congruence. }
    cbn [take_while drop_while]. rewrite Lc, Wc.
    cbn [List.length Nat.leb andb].
    rewrite (A (Some c) Wc). symmetry. now apply tokens_of_runs_separator.
Qed.

Lemma scan_tokens_of_runs s : Regex.scan None 0 s = tokens_of_runs s.
Proof. now apply (scan_tokens (List.length s) s (le_n _)). Qed.

(** ** Tokenization (C3) *)

Lemma filter_map_comm {A B} (f : B -> bool) (g : A -> B) (l : list A) :
  filter f (map g l) = map g (filter (fun x => f (g x)) l).
Proof.
  induction l as [|x l IH]; simpl; auto.
  destruct (f (g x)); simpl; now rewrite IH.
Qed.

Lemma findall_word_tokens s : Regex.findall s = word_tokens s.
Proof.
  unfold Regex.findall, word_tokens, maximal_runs.
  rewrite scan_tokens_of_runs, filter_map_comm. unfold tokens_of_runs.
  f_equal. apply filter_ext. intros r. now rewrite chars_of_chars.
Qed.

Lemma runs_ext p q : forall s acc,
  Forall (fun c => p c = q c) s -> runs p acc s = runs q acc s.
Proof.
  induction s as [|c s IH]; intros acc H; [reflexivity|].
  inversion H as [|? ? E F]; subst. cbn [runs]. rewrite E.
  destruct (q c); now rewrite !IH.
Qed.

Lemma runs_all p : forall s acc r,
  forallb p acc = true -> In r (runs p acc s) -> forallb p r = true.
Proof.
  induction s as [|c s IH]; intros acc r Hacc; cbn [runs].
  - destruct acc; simpl; [tauto|]. now intros [<-|[]].
  - destruct (p c) eqn:E.
    + apply IH. rewrite forallb_app, Hacc. simpl. now rewrite E.
    + intros H. apply in_app_or in H. destruct H as [H|H].
      * destruct acc; simpl in H; [tauto|]. now destruct H as [<-|[]].
      * now apply IH with (acc := []).
Qed.

Lemma runs_chars p : forall s acc r c,
  In r (runs p acc s) -> In c r -> In c acc \/ In c s.
Proof.
  induction s as [|x s IH]; intros acc r c; cbn [runs].
  - destruct acc; simpl; [tauto|]. intros [<-|[]]. auto.
  - destruct (p x).
    + intros Hr Hc. destruct (IH _ _ _ Hr Hc) as [H|H].
      * apply in_app_or in H. simpl in H. simpl. tauto.
      * simpl. tauto.
    + intros Hr Hc. apply in_app_or in Hr. destruct Hr as [Hr|Hr].
      * destruct acc; simpl in Hr; [tauto|]. destruct Hr as [<-|[]]. auto.
      * destruct (IH _ _ _ Hr Hc) as [[]|H]. simpl. tauto.
Qed.

Lemma lower_keeps_letters_only c :
  PyChar.is_word c = PyChar.is_ascii_letter c ->
  PyChar.is_word (PyChar.lower c) = PyChar.is_ascii_letter (PyChar.lower c).
Proof.
  assert (implb (Bool.eqb (PyChar.is_word c) (PyChar.is_ascii_letter c))
                (Bool.eqb (PyChar.is_word (PyChar.lower c))
                          (PyChar.is_ascii_letter (PyChar.lower c))) = true) as H
      by (destruct c as [[] [] [] [] [] [] [] []]; reflexivity).
  intros E. rewrite E, Bool.eqb_reflx in H. now apply Bool.eqb_prop.
Qed.

Lemma word_tokens_letter_runs s :
  letters_only_words s -> word_tokens s = letter_runs s.
Proof.
  unfold letters_only_words, word_tokens, letter_runs, maximal_runs.
  intros H. rewrite (runs_ext _ _ _ [] H), !filter_map_comm. f_equal.
  apply filter_ext_in. intros r Hr. rewrite chars_of_chars, length_of_chars.
  unfold is_token. rewrite (runs_all _ _ [] r eq_refl Hr). apply andb_true_r.
Qed.

(** C3, as stated, fails: in "abc123" the letters are followed by a digit,
    which is a word character, so the pattern finds no token there, while
    the runs of letters of length three or more are just "abc". *)
Lemma digits_do_not_separate :
  letter_runs (PyStr.lower "abc123") = ["abc"] /\
  words_of "abc123" = [] /\
  ~ In "abc" (words_of "abc123") /\
  ~ (forall text, words_of text = letter_runs (PyStr.lower text)).
Proof.
  split; [reflexivity|]. split; [reflexivity|]. split.
  - vm_compute. tauto.
  - intros Claim. specialize (Claim "abc123"). discriminate Claim.
Qed.

(** C3, amended: the tokens of a text are, in text order, the maximal runs
    of word characters (letters, digits, underscore) of the lowercased text
    that consist of ASCII letters only, at least three of them; non-word
    characters separate, digits and underscores do not, so that "abc123"
    gives no token while "abc 123" gives "abc"; for a text whose word
    characters are all ASCII letters the tokens are the maximal runs of
    letters of length three or more. *)
Theorem tokens_are_letter_only_word_runs (text : string) :
  words_of text = word_tokens (PyStr.lower text) /\
  (letters_only_words text -> words_of text = letter_runs (PyStr.lower text)) /\
  words_of "abc123" = [] /\
  words_of "abc 123" = ["abc"].
Proof.
  split; [apply findall_word_tokens|]. split; [|split; reflexivity].
  intros H. unfold words_of. rewrite findall_word_tokens.
  apply word_tokens_letter_runs. unfold letters_only_words, PyStr.lower.
  rewrite chars_of_chars. apply Forall_forall. intros c Hc.
  apply in_map_iff in Hc. destruct Hc as (x & <- & Hx).
  apply lower_keeps_letters_only.
  unfold letters_only_words in H. rewrite Forall_forall in H. now apply H.
Qed.

Lemma tokens_are_letter_only_word_runs_witness :
  words_of "Reset the router, then WAIT"
  = ["reset"; "the"; "router"; "then"; "wait"].
Proof.
  rewrite (proj1 (proj2 (tokens_are_letter_only_word_runs
                           "Reset the router, then WAIT"))).
  - reflexivity.
  - unfold letters_only_words. simpl.
    repeat (constructor; [reflexivity|]). constructor.
Defined.

(** ** Counting and ranking *)

Section SortedFacts.
Context {A B : Type}.

Lemma StronglySorted_weaken (R R' : A -> A -> Prop) (l : list A) :
  (forall a b, In a l -> In b l -> R a b -> R' a b) ->
  StronglySorted R l -> StronglySorted R' l.
Proof.
  induction l as [|x l IH]; intros H S; [constructor|].
  inversion S as [|? ? S' F]; subst. constructor.
  - apply IH; auto. intros a b Ha Hb. apply H; now right.
  - rewrite Forall_forall in *. intros y Hy.
    apply H; [now left | now right | auto].
Qed.

Lemma StronglySorted_snoc (R : A -> A -> Prop) (l : list A) (x : A) :
  StronglySorted R l -> Forall (fun a => R a x) l ->
  StronglySorted R (l ++ [x]).
Proof.
  induction l as [|y l IH]; intros S F; simpl.
  - repeat constructor.
  - inversion S as [|? ? S' F']; subst. inversion F; subst.
    constructor; auto. apply Forall_app. split; auto.
Qed.

Lemma StronglySorted_unmap (R : B -> B -> Prop) (f : A -> B) (l : list A) :
  StronglySorted R (map f l) ->
  StronglySorted (fun a b => R (f a) (f b)) l.
Proof.
  induction l as [|x l IH]; simpl; intros S; [constructor|].
  inversion S as [|? ? S' F]; subst. constructor; auto.
  rewrite Forall_forall in *. intros y Hy. apply F. now apply in_map.
Qed.

Lemma StronglySorted_map (R : A -> A -> Prop) (R' : B -> B -> Prop)
      (f : A -> B) (l : list A) :
  (forall a b, In a l -> In b l -> R a b -> R' (f a) (f b)) ->
  StronglySorted R l -> StronglySorted R' (map f l).
Proof.
  induction l as [|x l IH]; intros H S; simpl; [constructor|].
  inversion S as [|? ? S' F]; subst. constructor.
  - apply IH; auto. intros a b Ha Hb. apply H; now right.
  - rewrite Forall_forall in *. intros y Hy.
    apply in_map_iff in Hy. destruct Hy as (z & <- & Hz).
    apply H; [now left | now right | auto].
Qed.

Lemma StronglySorted_app_inv (R : A -> A -> Prop) (l1 l2 : list A) :
  StronglySorted R (l1 ++ l2) ->
  forall a b, In a l1 -> In b l2 -> R a b.
Proof.
  induction l1 as [|x l1 IH]; simpl; intros S a b Ha Hb; [tauto|].
  inversion S as [|? ? S' F]; subst. destruct Ha as [<-|Ha]; auto.
  rewrite Forall_forall in F. apply F, in_or_app. now right.
Qed.
End SortedFacts.

Section FirstIndex.
Variable k : string.

Lemma first_index_lt ws : In k ws -> first_index k ws < List.length ws.
Proof.
  induction ws as [|x ws IH]; simpl; [tauto|].
  destruct (String.eqb_spec x k); [lia|].
  intros [E|H]; [congruence|]. apply IH in H. lia.
Qed.

Lemma first_index_app_in ws ws' :
  In k ws -> first_index k (ws ++ ws') = first_index k ws.
Proof.
  induction ws as [|x ws IH]; simpl; [tauto|].
  destruct (String.eqb_spec x k); auto.
  intros [E|H]; [congruence|]. f_equal. auto.
Qed.

Lemma first_index_app_absent ws ws' :
  ~ In k ws ->
  first_index k (ws ++ ws') = List.length ws + first_index k ws'.
Proof.
  induction ws as [|x ws IH]; simpl; auto.
  destruct (String.eqb_spec x k); [tauto|].
  intros H. f_equal. apply IH. tauto.
Qed.
End FirstIndex.

(** *** The counter of a list *)

Lemma add_keys w c :
  keys (Counter.add w c) =
  keys c ++ (if in_dec string_dec w (keys c) then [] else [w]).
Proof.
  unfold keys. induction c as [|[k n] c IH]; simpl.
  - reflexivity.
  - destruct (String.eqb_spec k w) as [->|N]; simpl.
    + destruct (string_dec w w); [|congruence]. now rewrite app_nil_r.
    + rewrite IH. destruct (string_dec k w); [congruence|].
      now destruct (in_dec string_dec w (map fst c)).
Qed.

Lemma add_count_of w c k :
  count_of (Counter.add w c) k =
  count_of c k + (if string_dec w k then 1 else 0).
Proof.
  induction c as [|[k' n] c IH]; simpl.
  - destruct (String.eqb_spec w k), (string_dec w k); congruence || auto.
  - destruct (String.eqb_spec k' w) as [->|N]; simpl.
    + destruct (String.eqb_spec w k), (string_dec w k); try congruence; lia.
    + destruct (String.eqb_spec k' k) as [->|N']; auto.
      destruct (string_dec w k); [congruence|lia].
Qed.

Lemma of_list_snoc ws w :
  Counter.of_list (ws ++ [w]) = Counter.add w (Counter.of_list ws).
Proof. unfold Counter.of_list. now rewrite fold_left_app. Qed.

Lemma count_of_entry c k n :
  NoDup (keys c) -> In (k, n) c -> count_of c k = n.
Proof.
  unfold keys. induction c as [|[k' n'] c IH]; simpl; [tauto|].
  intros D H. inversion D as [|? ? Hk D']; subst.
  destruct H as [[= -> ->]|H].
  - now rewrite String.eqb_refl.
  - destruct (String.eqb_spec k' k) as [->|N]; auto.
    contradiction Hk. apply in_map_iff. now exists (k, n).
Qed.

(** The counter of [ws] holds each word of [ws] once, with the number of its
    occurrences, and the words are in the order of their first occurrence. *)
Lemma of_list_spec ws :
  NoDup (keys (Counter.of_list ws)) /\
  (forall k, In k (keys (Counter.of_list ws)) <-> In k ws) /\
  (forall k, count_of (Counter.of_list ws) k = frequency ws k) /\
  StronglySorted (fun a b => first_index a ws < first_index b ws)
                 (keys (Counter.of_list ws)).
Proof.
  induction ws as [|w ws IH] using rev_ind.
  - simpl. repeat split; try constructor; simpl; tauto.
  - destruct IH as (D & K & C & S).
    rewrite of_list_snoc, add_keys.
    assert (forall k, In k (keys (Counter.of_list ws)) ->
                      first_index k (ws ++ [w]) = first_index k ws) as Same.
    { intros k Hk. apply first_index_app_in. now apply K. }
    assert (StronglySorted
              (fun a b => first_index a (ws ++ [w]) < first_index b (ws ++ [w]))
              (keys (Counter.of_list ws))) as S'.
    { revert S. apply StronglySorted_weaken. intros a b Ha Hb.
      now rewrite (Same a Ha), (Same b Hb). }
    split; [|split; [|split]].
    + destruct (in_dec string_dec w (keys (Counter.of_list ws))).
      * now rewrite app_nil_r.
      * apply (Permutation_NoDup (Permutation_cons_append _ w)).
        now constructor.
    + intros k. rewrite !in_app_iff, K.
      destruct (in_dec string_dec w (keys (Counter.of_list ws))) as [Hw|Hw];
        simpl; [|tauto].
      apply K in Hw. intuition (subst; auto).
    + intros k. rewrite add_count_of, C. unfold frequency.
      rewrite count_occ_app. simpl. now destruct (string_dec w k).
    + destruct (in_dec string_dec w (keys (Counter.of_list ws))) as [Hw|Hw].
      * now rewrite app_nil_r.
      * apply StronglySorted_snoc; auto.
        apply Forall_forall. intros a Ha. rewrite (Same a Ha).
        rewrite first_index_app_absent by (now rewrite <- K).
        simpl. rewrite String.eqb_refl.
        apply K in Ha. apply first_index_lt in Ha. lia.
Qed.

(** *** The stable descending sort *)

Lemma insert_perm e l : Permutation (Counter.insert e l) (e :: l).
Proof.
  induction l as [|y l IH]; simpl; auto.
  destruct (snd y <=? snd e); auto.
  rewrite IH. apply perm_swap.
Qed.

Lemma sorted_desc_perm l : Permutation (Counter.sorted_desc l) l.
Proof.
  induction l as [|x l IH]; simpl; auto.
  rewrite insert_perm. now constructor.
Qed.

Section Ranking.
Variable ws : list string.

Lemma entry_before_count e1 e2 : entry_before ws e1 e2 -> snd e2 <= snd e1.
Proof. unfold entry_before. lia. Qed.

Lemma insert_sorted x l :
  StronglySorted (entry_before ws) l ->
  Forall (fun z => first_index (fst x) ws < first_index (fst z) ws) l ->
  StronglySorted (entry_before ws) (Counter.insert x l).
Proof.
  induction l as [|y l IH]; intros S F; simpl.
  - repeat constructor.
  - inversion S as [|? ? S' Fy]; subst.
    inversion F as [|? ? Hy F']; subst.
    destruct (Nat.leb_spec (snd y) (snd x)) as [Le|Gt].
    + constructor; auto.
      assert (forall z, In z (y :: l) -> snd z <= snd y) as Below.
      { intros z [<-|Hz]; auto.
        rewrite Forall_forall in Fy. now apply entry_before_count, Fy. }
      apply Forall_forall. intros z Hz.
      specialize (Below z Hz).
      rewrite Forall_forall in F. specialize (F z Hz).
      unfold entry_before. lia.
    + constructor; auto.
      apply (Permutation_Forall (Permutation_sym (insert_perm x l))).
      constructor; auto. left. exact Gt.
Qed.

Lemma sorted_desc_sorted l :
  StronglySorted
    (fun a b => first_index (fst a) ws < first_index (fst b) ws) l ->
  StronglySorted (entry_before ws) (Counter.sorted_desc l).
Proof.
  induction l as [|x l IH]; intros S; simpl; [constructor|].
  inversion S as [|? ? S' F]; subst.
  apply insert_sorted; auto.
  apply (Permutation_Forall (Permutation_sym (sorted_desc_perm l))).
  exact F.
Qed.
End Ranking.

(** *** Dropping the stop words keeps counts and order *)

Section Filtered.
Variable p : string -> bool.

Lemma frequency_filter l w :
  p w = true -> frequency (filter p l) w = frequency l w.
Proof.
  intros Hw. unfold frequency. induction l as [|x l IH]; simpl; auto.
  destruct (p x) eqn:E; simpl.
  - now rewrite IH.
  - destruct (string_dec x w); [congruence | auto].
Qed.

Lemma first_index_filter l a b :
  p a = true -> p b = true ->
  (first_index a (filter p l) < first_index b (filter p l)
   <-> first_index a l < first_index b l).
Proof.
  intros Ha Hb. induction l as [|x l IH]; simpl; [tauto|].
  destruct (p x) eqn:E; simpl.
  - destruct (String.eqb x a), (String.eqb x b); lia.
  - destruct (String.eqb_spec x a), (String.eqb_spec x b);
      try congruence. lia.
Qed.
End Filtered.

Lemma NoDup_firstn {A} n (l : list A) : NoDup l -> NoDup (firstn n l).
Proof.
  intros D. rewrite <- (firstn_skipn n l) in D.
  now apply NoDup_app_remove_r in D.
Qed.

Lemma In_firstn {A} n (l : list A) x : In x (firstn n l) -> In x l.
Proof.
  intros H. rewrite <- (firstn_skipn n l). apply in_or_app. now left.
Qed.

(** *** The ranking behind [extract_keywords] *)

Lemma extract_keywords_ranked text :
  extract_keywords text = firstn 20 (ranked_keywords text).
Proof.
  unfold extract_keywords, Counter.most_common, ranked_keywords, keys.
  now rewrite firstn_map.
Qed.

Lemma non_stop_word_spec w : non_stop_word w = true <-> ~ In w stop_words.
Proof.
  unfold non_stop_word. rewrite negb_true_iff, <- mem_In.
  destruct (PyStr.mem w stop_words); intuition congruence.
Qed.

Lemma keywords_of_In text w :
  In w (keywords_of text) <-> In w (words_of text) /\ ~ In w stop_words.
Proof.
  unfold keywords_of. fold non_stop_word.
  rewrite filter_In. now rewrite non_stop_word_spec.
Qed.

Lemma ranked_keywords_perm text :
  Permutation (ranked_keywords text)
              (keys (Counter.of_list (keywords_of text))).
Proof.
  unfold ranked_keywords, keys. apply Permutation_map, sorted_desc_perm.
Qed.

Lemma ranked_keywords_NoDup text : NoDup (ranked_keywords text).
Proof.
  apply (Permutation_NoDup (Permutation_sym (ranked_keywords_perm text))).
  apply of_list_spec.
Qed.

Lemma ranked_keywords_In text w :
  In w (ranked_keywords text) <-> In w (words_of text) /\ ~ In w stop_words.
Proof.
  rewrite <- keywords_of_In.
  destruct (of_list_spec (keywords_of text)) as (_ & K & _).
  rewrite <- K. split; apply Permutation_in;
    [|apply Permutation_sym]; apply ranked_keywords_perm.
Qed.

Lemma ranked_keywords_sorted text :
  StronglySorted (rank_before (words_of text)) (ranked_keywords text).
Proof.
  destruct (of_list_spec (keywords_of text)) as (D & K & C & S).
  unfold ranked_keywords, keys.
  apply StronglySorted_map
    with (R := entry_before (keywords_of text)).
  - intros a b Ha Hb.
    assert (forall e, In e (Counter.sorted_desc
                              (Counter.of_list (keywords_of text))) ->
                      snd e = frequency (words_of text) (fst e)
                      /\ non_stop_word (fst e) = true) as Entry.
    { intros [k n] He.
      apply (Permutation_in _ (sorted_desc_perm _)) in He.
      assert (In k (keywords_of text)) as Hk.
      { apply K. unfold keys. apply in_map_iff. now exists (k, n). }
      apply keywords_of_In in Hk. destruct Hk as [_ Hk].
      apply non_stop_word_spec in Hk. simpl. split; auto.
      rewrite <- (count_of_entry _ _ _ D He), C.
      unfold keywords_of. fold non_stop_word.
      now apply frequency_filter. }
    destruct (Entry a Ha) as [Ca Pa]. destruct (Entry b Hb) as [Cb Pb].
    unfold entry_before, rank_before. rewrite Ca, Cb.
    unfold keywords_of. fold non_stop_word.
    rewrite (first_index_filter non_stop_word (words_of text) _ _ Pa Pb).
    tauto.
  - apply sorted_desc_sorted.
    apply (StronglySorted_unmap
             (fun a b => first_index a (keywords_of text)
                         < first_index b (keywords_of text)) fst).
    exact S.
Qed.

(** ** The keyword extractor (C2, C4) *)

(** A word of the text is a token of the lowercased text: three letters or
    more, each of them the [lower] of a character of the text. *)
Lemma words_of_token text w :
  In w (words_of text) ->
  exists r, w = PyStr.of_chars r /\ is_token r = true /\
            Forall (fun c => PyChar.is_ascii_upper c = false) r.
Proof.
  unfold words_of, Regex.findall, PyStr.lower.
  rewrite chars_of_chars, scan_tokens_of_runs. unfold tokens_of_runs.
  intros H. apply in_map_iff in H. destruct H as (r & <- & Hr).
  apply filter_In in Hr. destruct Hr as [Hr Tok].
  exists r. repeat split; auto.
  apply Forall_forall. intros c Hc.
  destruct (runs_chars _ _ _ _ _ Hr Hc) as [[]|H].
  apply in_map_iff in H. destruct H as (x & <- & _).
  apply lower_not_upper.
Qed.

Lemma words_of_lowercase text w :
  In w (words_of text) ->
  3 <= String.length w /\
  Forall (fun c => PyChar.is_ascii_lower c = true) (PyStr.chars w) /\
  PyStr.lower w = w.
Proof.
  intros H. destruct (words_of_token text w H) as (r & -> & Tok & Up).
  apply is_token_spec in Tok. destruct Tok as [Len Let].
  assert (Forall (fun c => PyChar.is_ascii_lower c = true) r) as Low.
  { rewrite Forall_forall in *. intros c Hc.
    apply letter_not_upper_lower; auto. }
  rewrite length_of_chars, chars_of_chars. repeat split; auto.
  unfold PyStr.lower. rewrite chars_of_chars. f_equal.
  clear - Low. induction Low as [|c r Hc _ IH]; simpl; auto.
  now rewrite IH, (lower_fixes_lowercase c Hc).
Qed.

(** C2: whatever the text, [extract_keywords] returns at most 20 entries, no
    entry twice, and every entry has three characters or more, all of them
    the lowercase letters a..z -- so that lowercasing leaves the entry as it
    is -- and is no stop word. *)
Theorem keywords_bounded_distinct_lowercase (text : string) :
  List.length (extract_keywords text) <= 20 /\
  NoDup (extract_keywords text) /\
  Forall (fun w =>
            3 <= String.length w /\
            Forall (fun c => PyChar.is_ascii_lower c = true) (PyStr.chars w) /\
            PyStr.lower w = w /\
            ~ In w stop_words)
         (extract_keywords text).
Proof.
  rewrite extract_keywords_ranked. split; [apply firstn_le_length|].
  split; [apply NoDup_firstn, ranked_keywords_NoDup|].
  apply Forall_forall. intros w Hw.
  apply In_firstn, ranked_keywords_In in Hw. destruct Hw as [Hw Stop].
  destruct (words_of_lowercase text w Hw) as (Len & Low & Fix). auto.
Qed.

(** C4: the keywords of a text are the first 20 entries of the list that
    holds every word of the text other than a stop word exactly once,
    ordered by descending frequency and, among words of equal frequency, by
    the position of their first occurrence in the text; so every keyword
    returned ranks before every such word left out. On "the quick brown fox
    the quick brown fox jumps" this gives quick, brown, fox, jumps. *)
Theorem keywords_top_twenty_by_frequency (text : string) :
  (exists ranked,
      extract_keywords text = firstn 20 ranked /\
      NoDup ranked /\
      (forall w, In w ranked <-> In w (words_of text) /\ ~ In w stop_words) /\
      StronglySorted (rank_before (words_of text)) ranked) /\
  (forall a b,
      In a (extract_keywords text) ->
      In b (words_of text) -> ~ In b stop_words ->
      ~ In b (extract_keywords text) ->
      rank_before (words_of text) a b) /\
  extract_keywords "the quick brown fox the quick brown fox jumps"
  = ["quick"; "brown"; "fox"; "jumps"].
Proof.
  split; [|split; [|reflexivity]].
  - exists (ranked_keywords text).
    split; [apply extract_keywords_ranked|].
    split; [apply ranked_keywords_NoDup|].
    split; [apply ranked_keywords_In | apply ranked_keywords_sorted].
  - intros a b Ha Hb Stop Out. rewrite extract_keywords_ranked in Ha, Out.
    pose proof (ranked_keywords_sorted text) as S.
    rewrite <- (firstn_skipn 20 (ranked_keywords text)) in S.
    apply (StronglySorted_app_inv _ _ _ S); auto.
    assert (In b (ranked_keywords text)) as Hr
        by (apply ranked_keywords_In; auto).
    rewrite <- (firstn_skipn 20 (ranked_keywords text)) in Hr.
    apply in_app_or in Hr. tauto.
Qed.

Lemma keywords_top_twenty_by_frequency_witness :
  rank_before (words_of crowded_text) "uniform" "tango".
Proof.
  apply (proj1 (proj2 (keywords_top_twenty_by_frequency crowded_text))).
  - vm_compute. tauto.
  - vm_compute. tauto.
  - vm_compute. intuition discriminate.
  - vm_compute. intuition discriminate.
Defined.

(** * Further properties *)

(** ** [str.strip] *)

Lemma drop_while_clean {A} (p : A -> bool) (l : list A) :
  match PyStr.drop_while p l with
  | [] => True
  | c :: _ => p c = false
  end.
Proof.
  induction l as [|x l IH]; simpl; auto.
  destruct (p x) eqn:E; auto.
Qed.

Lemma drop_while_app_all {A} (p : A -> bool) (l1 l2 : list A) :
  forallb p l1 = true ->
  PyStr.drop_while p (l1 ++ l2) = PyStr.drop_while p l2.
Proof.
  induction l1 as [|x l1 IH]; simpl; auto.
  intros H. apply andb_true_iff in H. destruct H as [-> H]. auto.
Qed.

Lemma drop_while_length {A} (p : A -> bool) (l : list A) :
  List.length (PyStr.drop_while p l) <= List.length l.
Proof.
  induction l as [|x l IH]; simpl; auto.
  destruct (p x); simpl; lia.
Qed.

(** Dropping from the end, as [strip] does by reversing twice. *)
Lemma drop_end_snoc {A} (p : A -> bool) (l : list A) (x : A) :
  rev (PyStr.drop_while p (rev (l ++ [x]))) =
  if p x then rev (PyStr.drop_while p (rev l)) else l ++ [x].
Proof.
  rewrite rev_app_distr. simpl. destruct (p x); auto.
  simpl. now rewrite rev_involutive.
Qed.

Lemma drop_end_split {A} (p : A -> bool) (l : list A) :
  exists tail,
    l = rev (PyStr.drop_while p (rev l)) ++ tail /\ forallb p tail = true.
Proof.
  induction l as [|x l IH] using rev_ind.
  - exists []. auto.
  - rewrite drop_end_snoc. destruct (p x) eqn:E.
    + destruct IH as (tail & Hl & Ht). exists (tail ++ [x]). split.
      * rewrite app_assoc, <- Hl. reflexivity.
      * rewrite forallb_app, Ht. simpl. now rewrite E.
    + exists []. now rewrite app_nil_r.
Qed.

Lemma drop_end_head {A} (p : A -> bool) (c : A) (l : list A) :
  p c = false ->
  exists l', rev (PyStr.drop_while p (rev (c :: l))) = c :: l'.
Proof.
  intros Hc. induction l as [|x l IH] using rev_ind.
  - exists []. simpl. now rewrite Hc.
  - rewrite app_comm_cons, drop_end_snoc.
    destruct (p x); [exact IH | now exists (l ++ [x])].
Qed.

Lemma strip_chars s :
  PyStr.chars (PyStr.strip s) =
  rev (PyStr.drop_while PyChar.is_space
         (rev (PyStr.drop_while PyChar.is_space (PyStr.chars s)))).
Proof. unfold PyStr.strip. apply chars_of_chars. Qed.

Lemma strip_stripped s : stripped (PyStr.strip s).
Proof.
  unfold stripped. rewrite strip_chars, rev_involutive. split.
  - pose proof (drop_while_clean PyChar.is_space (PyStr.chars s)) as H.
    destruct (PyStr.drop_while PyChar.is_space (PyStr.chars s)) as [|c l];
      [exact I|].
    destruct (drop_end_head PyChar.is_space c l H) as (l' & ->). exact H.
  - apply drop_while_clean.
Qed.

Lemma chars_inj s1 s2 : PyStr.chars s1 = PyStr.chars s2 -> s1 = s2.
Proof.
  intros H. apply (f_equal PyStr.of_chars) in H.
  unfold PyStr.of_chars, PyStr.chars in H.
  now rewrite !string_of_list_ascii_of_string in H.
Qed.

Lemma stripped_strip s : stripped s -> PyStr.strip s = s.
Proof.
  unfold stripped. intros [Head Tail]. apply chars_inj. rewrite strip_chars.
  assert (PyStr.drop_while PyChar.is_space (PyStr.chars s) = PyStr.chars s) as ->.
  { destruct (PyStr.chars s) as [|c l]; simpl in *; auto. now rewrite Head. }
  assert (PyStr.drop_while PyChar.is_space (rev (PyStr.chars s))
          = rev (PyStr.chars s)) as ->.
  { destruct (rev (PyStr.chars s)) as [|c l]; simpl in *; auto.
    now rewrite Tail. }
  apply rev_involutive.
Qed.

Lemma strip_idempotent s : PyStr.strip (PyStr.strip s) = PyStr.strip s.
Proof. apply stripped_strip, strip_stripped. Qed.

Lemma chars_length s : List.length (PyStr.chars s) = String.length s.
Proof. induction s; simpl; auto. Qed.

Lemma strip_length s : String.length (PyStr.strip s) <= String.length s.
Proof.
  rewrite <- !chars_length, strip_chars, length_rev.
  etransitivity; [apply drop_while_length|].
  rewrite length_rev. apply drop_while_length.
Qed.

(** What [strip] removes: whitespace before and whitespace after. *)
Lemma strip_split s :
  exists before after,
    PyStr.chars s = before ++ PyStr.chars (PyStr.strip s) ++ after /\
    forallb PyChar.is_space before = true /\
    forallb PyChar.is_space after = true.
Proof.
  rewrite strip_chars.
  exists (PyStr.take_while PyChar.is_space (PyStr.chars s)).
  destruct (drop_end_split PyChar.is_space
              (PyStr.drop_while PyChar.is_space (PyStr.chars s)))
    as (tail & Hl & Ht).
  exists tail. split; [|split; auto using take_while_all].
  rewrite <- Hl. symmetry. apply take_drop.
Qed.

(** ** The text of a chunk *)

Lemma resolve_text_stripped e : stripped (resolve_text e).
Proof.
  unfold resolve_text.
  destruct (raw_text e) as [|s|items].
  - split; exact I.
  - destruct (PyStr.truthy s); [apply strip_stripped | split; exact I].
  - destruct (PyStr.truthy (join_items items));
      [apply strip_stripped | split; exact I].
Qed.

Lemma truthy_nonempty s : PyStr.truthy s = true <-> s <> "".
Proof. destruct s; simpl; intuition congruence. Qed.

Lemma truthy_length s : PyStr.truthy s = true <-> 0 < String.length s.
Proof. destruct s; simpl; intuition (try congruence; lia). Qed.

Lemma blank_strip s : blank s -> PyStr.strip s = "".
Proof.
  intros [_ B]. apply chars_inj. rewrite strip_chars.
  rewrite <- (app_nil_r (PyStr.chars s)), (drop_while_app_all _ _ [] B).
  reflexivity.
Qed.

(** X1: a ["text"] made of whitespace only is truthy, so ["content"] is not
    read, and it strips to nothing, so the element gives no chunk --
    whatever its ["content"] holds and whatever the threshold is. *)
Theorem blank_text_masks_content (cfg : Config) (e : RawElement) (s : string) :
  el_text e = Some (TStr s) -> blank s ->
  raw_text e = TStr s /\ resolve_text e = "" /\ filter_chunks cfg [e] = [].
Proof.
  intros T B.
  assert (PyStr.truthy s = true) as Ts by (apply truthy_nonempty, B).
  assert (raw_text e = TStr s) as R.
  { unfold raw_text, py_or. rewrite T. simpl. now rewrite Ts. }
  assert (resolve_text e = "") as E.
  { unfold resolve_text. rewrite R, Ts. now apply blank_strip. }
  repeat split; auto.
  rewrite filter_chunks_filter. simpl. unfold kept. now rewrite E.
Qed.

Lemma blank_text_masks_content_witness :
  filter_chunks default_config [blank_text_element] = [].
Proof.
  apply (blank_text_masks_content default_config blank_text_element "   ").
  - reflexivity.
  - split; [discriminate | reflexivity].
Defined.

(** X2: every chunk that [filter_chunks] returns has a text that is not
    empty, carries no whitespace at either end and is at least as long as
    the threshold; its keywords are those of that text; and its type is
    the element's, ["unknown"] standing in for a missing one. *)
Theorem chunks_are_clean (cfg : Config) (elements : list RawElement) :
  Forall (fun c =>
            text c <> "" /\
            stripped (text c) /\
            (MIN_CHUNK_LENGTH cfg <= Z.of_nat (String.length (text c)))%Z /\
            keywords c = extract_keywords (text c) /\
            exists e, In e elements /\ text c = resolve_text e /\
                      type c = get_or (el_type e) "unknown")
         (filter_chunks cfg elements).
Proof.
  rewrite filter_chunks_filter. apply Forall_forall. intros c Hc.
  apply in_map_iff in Hc. destruct Hc as (e & <- & He).
  apply filter_In in He. destruct He as [He K].
  unfold kept in K. apply keeps_spec in K. destruct K as [N L].
  simpl. repeat split; auto using resolve_text_stripped.
  - apply resolve_text_stripped.
  - apply resolve_text_stripped.
  - now exists e.
Qed.

(** X3: [filter_chunks] judges each element on its own: the chunks of a
    concatenation are the chunks of its parts, one after the other, so an
    element is kept or dropped whatever stands around it. *)
Theorem filter_chunks_app (cfg : Config) (l1 l2 : list RawElement) :
  filter_chunks cfg (l1 ++ l2) = filter_chunks cfg l1 ++ filter_chunks cfg l2.
Proof. rewrite !filter_chunks_filter, filter_app. apply map_app. Qed.

Lemma filter_implied_subseq {A} (p q : A -> bool) (l : list A) :
  (forall x, q x = true -> p x = true) -> subseq (filter q l) (filter p l).
Proof.
  intros H. induction l as [|x l IH]; simpl; [constructor|].
  destruct (q x) eqn:Q.
  - rewrite (H x Q). now constructor.
  - destruct (p x); [now constructor | exact IH].
Qed.

Lemma subseq_map {A B} (f : A -> B) (l1 l2 : list A) :
  subseq l1 l2 -> subseq (map f l1) (map f l2).
Proof. induction 1; simpl; now constructor. Qed.

(** X4: raising the threshold only removes chunks: the texts kept under the
    larger threshold are, in the same order, among those kept under the
    smaller one. *)
Theorem higher_threshold_keeps_less (cfg1 cfg2 : Config)
  (elements : list RawElement) :
  (MIN_CHUNK_LENGTH cfg1 <= MIN_CHUNK_LENGTH cfg2)%Z ->
  subseq (map text (filter_chunks cfg2 elements))
         (map text (filter_chunks cfg1 elements)).
Proof.
  intros H. rewrite !filter_chunks_filter, !map_map. simpl.
  apply subseq_map, filter_implied_subseq.
  intros e. unfold kept. rewrite !keeps_spec. intros [N L]. split; auto. lia.
Qed.

Lemma higher_threshold_keeps_less_witness :
  subseq (map text (filter_chunks small_config
                      [text_element (letters "a" 50);
                       text_element (letters "b" 150)]))
         (map text (filter_chunks zero_config
                      [text_element (letters "a" 50);
                       text_element (letters "b" 150)])).
Proof.
  apply (higher_threshold_keeps_less zero_config small_config). simpl. lia.
Defined.

Lemma resolve_text_text_element s :
  resolve_text (text_element s) = if PyStr.truthy s then PyStr.strip s else "".
Proof. destruct s; reflexivity. Qed.

Lemma resolve_text_of_resolved e :
  resolve_text (text_element (resolve_text e)) = resolve_text e.
Proof.
  rewrite resolve_text_text_element.
  destruct (PyStr.truthy (resolve_text e)) eqn:T.
  - apply stripped_strip, resolve_text_stripped.
  - destruct (resolve_text e); [reflexivity | discriminate].
Qed.

(** X5: the text of a chunk resolves to itself: when the texts of the chunks
    are sent through [filter_chunks] again, under the same configuration,
    none is dropped and every text and keyword list comes back unchanged. *)
Theorem filter_chunks_again (cfg : Config) (elements : list RawElement) :
  let chunks := filter_chunks cfg elements in
  let again := filter_chunks cfg (map (fun c => text_element (text c)) chunks) in
  map text again = map text chunks /\
  map keywords again = map keywords chunks.
Proof.
  intros chunks again. subst chunks again.
  rewrite (filter_chunks_filter cfg elements).
  set (l := filter (kept cfg) elements).
  assert (forall e, In e l -> kept cfg e = true) as K
      by (intros e He; now apply filter_In in He).
  clearbody l. rewrite filter_chunks_filter, !map_map.
  assert (forall e, kept cfg (text_element (text (chunk_of cfg e)))
                    = kept cfg e) as Same.
  { intros e. unfold kept. cbn [chunk_of make_chunk text].
    now rewrite resolve_text_of_resolved. }
  induction l as [|e l IH]; [split; reflexivity|].
  cbn [map filter]. rewrite Same, (K e (or_introl eq_refl)). cbn [map].
  destruct IH as [IHt IHk]; [intros x Hx; apply K; now right|].
  split; f_equal; auto; cbn [chunk_of make_chunk text keywords];
    now rewrite resolve_text_of_resolved.
Qed.

(** ** The title and the metadata of a chunk *)

(** X6: a non-empty ["title"] of the metadata is the title of the chunk;
    failing that, a non-empty ["filename"] is. *)
Theorem title_from_metadata (cfg : Config) (e : RawElement)
  (t f : option string) :
  el_metadata e = Some (MDict t f) ->
  (get_or t "" <> "" -> title (chunk_of cfg e) = get_or t "") /\
  (get_or t "" = "" -> get_or f "" <> "" ->
   title (chunk_of cfg e) = get_or f "").
Proof.
  intros M. unfold chunk_of, make_chunk. cbn [title]. rewrite M.
  cbn [get_or]. unfold resolve_title, str_or. split.
  - intros N. destruct (get_or t "") as [|a s]; [congruence | reflexivity].
  - intros E N. rewrite E.
    destruct (get_or f "") as [|a s]; [congruence | reflexivity].
Qed.

Lemma title_from_metadata_witness :
  title (chunk_of default_config titled_element) = "Returns policy".
Proof.
  apply (proj1 (title_from_metadata default_config titled_element
                  (Some "Returns policy") (Some "policy.md") eq_refl)).
  discriminate.
Defined.

Lemma untitled_title cfg e :
  untitled e ->
  title (chunk_of cfg e) =
  if String.length (first_line_title (resolve_text e)) <? 100
  then first_line_title (resolve_text e) else "".
Proof.
  unfold untitled, chunk_of, make_chunk, resolve_title, first_line_title.
  cbn [title].
  destruct (el_metadata e) as [[t f|]|]; cbn [get_or]; try reflexivity.
  intros [T F]. unfold str_or.
  destruct (get_or t ""); [|discriminate].
  destruct (get_or f ""); [reflexivity | discriminate].
Qed.

Lemma first_line_no_newline s : no_newline (PyStr.first_line s).
Proof.
  unfold no_newline, PyStr.first_line. rewrite chars_of_chars.
  intros H.
  pose proof (take_while_all (fun c => negb (Ascii.eqb c PyStr.newline))
                (PyStr.chars s)) as A.
  rewrite forallb_forall in A. specialize (A _ H).
  now rewrite Ascii.eqb_refl in A.
Qed.

Lemma strip_keeps_chars s c :
  In c (PyStr.chars (PyStr.strip s)) -> In c (PyStr.chars s).
Proof.
  destruct (strip_split s) as (b & a & -> & _). intros H.
  apply in_or_app. right. apply in_or_app. now left.
Qed.

Lemma first_line_title_nonempty s :
  s <> "" -> stripped s -> first_line_title s <> "".
Proof.
  intros N [Head _]. unfold first_line_title.
  destruct s as [|c s]; [congruence|].
  change (PyChar.is_space c = false) in Head.
  assert (Ascii.eqb c PyStr.newline = false) as Nl.
  { destruct (Ascii.eqb_spec c PyStr.newline) as [E|]; [|reflexivity].
    subst c. vm_compute in Head. discriminate. }
  intros E. apply (f_equal PyStr.chars) in E. rewrite strip_chars in E.
  unfold PyStr.first_line in E. rewrite chars_of_chars in E.
  cbn [PyStr.chars list_ascii_of_string PyStr.take_while] in E.
  rewrite Nl in E. cbn [negb PyStr.drop_while] in E. rewrite Head in E.
  destruct (drop_end_head PyChar.is_space c
              (PyStr.take_while
                 (fun c0 => negb (Ascii.eqb c0 PyStr.newline))
                 (list_ascii_of_string s)) Head) as (l' & Hl).
  rewrite Hl in E. discriminate.
Qed.

(** X7: when the metadata offers no title, the title of a chunk is the first
    line of its text, stripped, if that has fewer than 100 characters, and
    empty otherwise. Such a title is shorter than 100 characters, has no
    line break and no whitespace at either end; and for a chunk that
    [filter_chunks] keeps it is empty only when the first line is too
    long. *)
Theorem title_from_first_line (cfg : Config) (e : RawElement) :
  untitled e ->
  let t := title (chunk_of cfg e) in
  let line := first_line_title (resolve_text e) in
  (String.length line < 100 -> t = line) /\
  (100 <= String.length line -> t = "") /\
  String.length t < 100 /\ no_newline t /\ stripped t /\
  (kept cfg e = true -> (t = "" <-> 100 <= String.length line)).
Proof.
  intros U t line. subst t line. rewrite (untitled_title cfg e U).
  set (line := first_line_title (resolve_text e)).
  assert (no_newline line) as NN.
  { intros H. apply strip_keeps_chars in H.
    now apply (first_line_no_newline (resolve_text e)). }
  assert (stripped line) as St by apply strip_stripped.
  destruct (Nat.ltb_spec (String.length line) 100) as [Lt|Ge];
    (split; [|split; [|split; [|split; [|split]]]]); auto.
  - intros H. lia.
  - intros K. split; [|lia]. intros E. exfalso.
    apply keeps_spec in K. destruct K as [N _].
    now apply (first_line_title_nonempty (resolve_text e) N
                 (resolve_text_stripped e)).
  - intros H. lia.
  - simpl. lia.
  - unfold no_newline. simpl. tauto.
  - split; exact I.
  - intros K. split; auto.
Qed.

Lemma title_from_first_line_witness :
  title (chunk_of default_config (text_element (letters "c" 100))) = "".
Proof.
  apply (proj1 (proj2 (title_from_first_line default_config
                         (text_element (letters "c" 100)) I))).
  apply Nat.leb_le. vm_compute. reflexivity.
Defined.

(** X8: the metadata of a chunk answers the three keys ["source"],
    ["element_id"] and ["category"] and no other: a lookup of one of them
    never falls to its default. The source is the ["filename"] of the
    metadata whenever that key is there, an empty string included, and the
    configured document path when the key or the whole dict is missing. *)
Theorem chunk_metadata_lookup (cfg : Config) (e : RawElement)
  (default : string) :
  let md := metadata (chunk_of cfg e) in
  dict_get md "element_id" default = get_or (el_element_id e) "" /\
  dict_get md "category" default = get_or (el_category e) "" /\
  (forall key, key <> "source" -> key <> "element_id" -> key <> "category" ->
               dict_get md key default = default) /\
  (forall t f, el_metadata e = Some (MDict t (Some f)) ->
               dict_get md "source" default = f) /\
  ((el_metadata e = None \/ el_metadata e = Some MOther \/
    exists t, el_metadata e = Some (MDict t None)) ->
   dict_get md "source" default = DOCUMENT_PATH cfg).
Proof.
  intros md. subst md. unfold chunk_of, make_chunk. cbn [metadata].
  split; [reflexivity|]. split; [reflexivity|]. split; [|split].
  - intros key S I C. cbn [dict_get].
    destruct (String.eqb_spec "source" key); [congruence|].
    destruct (String.eqb_spec "element_id" key); [congruence|].
    destruct (String.eqb_spec "category" key); [congruence|reflexivity].
  - intros t f ->. reflexivity.
  - intros [-> | [-> | [t ->]]]; reflexivity.
Qed.

Lemma chunk_metadata_lookup_witness :
  dict_get (metadata (chunk_of default_config nameless_file_element))
           "source" "LEXORA_SUPPORT_KNOWLEDGE_BASE.md" = "".
Proof.
  apply (proj1 (proj2 (proj2 (proj2
           (chunk_metadata_lookup default_config nameless_file_element
              "LEXORA_SUPPORT_KNOWLEDGE_BASE.md")))) None ""). reflexivity.
Defined.

(** ** More on the keyword extractor *)

Lemma runs_occurrence p : forall s acc r,
  In r (runs p acc s) ->
  exists before after,
    acc ++ s = before ++ r ++ after /\
    match rev before with [] => True | x :: _ => p x = false end /\
    match after with [] => True | x :: _ => p x = false end.
Proof.
  induction s as [|c s IH]; intros acc r; cbn [runs].
  - destruct acc as [|a acc]; simpl; [tauto|]. intros [<-|[]].
    exists [], []. simpl. now rewrite !app_nil_r.
  - destruct (p c) eqn:E.
    + intros H. destruct (IH _ _ H) as (b & a & Eq & Hb & Ha).
      exists b, a. rewrite <- Eq, <- app_assoc. auto.
    + intros H. apply in_app_or in H. destruct H as [H|H].
      * destruct acc as [|a acc]; simpl in H; [tauto|].
        destruct H as [<-|[]]. exists [], (c :: s). simpl. auto.
      * destruct (IH _ _ H) as (b & a & Eq & Hb & Ha). simpl in Eq.
        exists (acc ++ c :: b), a. split; [|split; auto].
        -- rewrite Eq, <- !app_assoc. reflexivity.
        -- rewrite rev_app_distr. simpl.
           destruct (rev b) as [|x l]; simpl; auto.
Qed.

(** X9: every keyword that [extract_keywords] returns stands in the
    lowercased text as a whole word: its letters are consecutive there, with
    no letter, digit or underscore right before or right after them. *)
Theorem keywords_are_whole_words (text : string) :
  Forall (fun w => whole_word_in w (PyStr.lower text))
         (extract_keywords text).
Proof.
  apply Forall_forall. intros w Hw.
  rewrite extract_keywords_ranked in Hw.
  apply In_firstn, ranked_keywords_In in Hw. destruct Hw as [Hw _].
  unfold words_of, Regex.findall in Hw. rewrite scan_tokens_of_runs in Hw.
  apply in_map_iff in Hw. destruct Hw as (r & <- & Hr).
  unfold tokens_of_runs in Hr. apply filter_In in Hr. destruct Hr as [Hr _].
  destruct (runs_occurrence _ _ _ _ Hr) as (b & a & Eq & Hb & Ha).
  exists b, a. rewrite chars_of_chars. simpl in Eq. auto.
Qed.

Lemma ranked_keywords_length text :
  List.length (ranked_keywords text) = distinct_keywords text.
Proof.
  unfold distinct_keywords. apply Permutation_length.
  apply NoDup_Permutation.
  - apply ranked_keywords_NoDup.
  - apply NoDup_nodup.
  - intros w. rewrite nodup_In, ranked_keywords_In, keywords_of_In. tauto.
Qed.

(** X10: [extract_keywords] returns as many keywords as the text has
    distinct words that are no stop words, up to 20; so it returns nothing
    exactly when the text has no such word, and when there are 20 or fewer
    of them it returns them all. *)
Theorem keywords_count (text : string) :
  List.length (extract_keywords text) = Nat.min 20 (distinct_keywords text) /\
  (extract_keywords text = [] <-> keywords_of text = []) /\
  (distinct_keywords text <= 20 ->
   forall w, In w (extract_keywords text)
             <-> In w (words_of text) /\ ~ In w stop_words).
Proof.
  rewrite extract_keywords_ranked.
  pose proof (ranked_keywords_length text) as L.
  split; [now rewrite length_firstn, L|]. split.
  - split.
    + intros E. apply (f_equal (@List.length string)) in E.
      rewrite length_firstn, L in E. cbn [List.length] in E.
      assert (distinct_keywords text = 0) as Z by lia.
      unfold distinct_keywords in Z.
      destruct (keywords_of text) as [|w l] eqn:K; auto.
      assert (In w (nodup string_dec (w :: l))) as H
          by (apply nodup_In; now left).
      destruct (nodup string_dec (w :: l)); [destruct H | discriminate].
    + intros E. unfold distinct_keywords in L. rewrite E in L. simpl in L.
      destruct (ranked_keywords text); [reflexivity | discriminate].
  - intros Le w. rewrite firstn_all2 by lia. apply ranked_keywords_In.
Qed.

Lemma keywords_count_witness :
  In "modem" (extract_keywords "reset the router, then reset the modem").
Proof.
  apply (proj2 (proj2 (keywords_count
                         "reset the router, then reset the modem"))).
  - vm_compute. lia.
  - split.
    + vm_compute. tauto.
    + vm_compute. intuition discriminate.
Defined.

(** ** Words across separators *)

Lemma space_not_word c : PyChar.is_space c = true -> PyChar.is_word c = false.
Proof.
  assert (implb (PyChar.is_space c) (negb (PyChar.is_word c)) = true) as H
      by (destruct c as [[] [] [] [] [] [] [] []]; reflexivity).
  intros E. rewrite E in H. now apply negb_true_iff.
Qed.

Lemma lower_space c : PyChar.is_space c = true -> PyChar.lower c = c.
Proof.
  assert (implb (PyChar.is_space c) (Ascii.eqb (PyChar.lower c) c) = true)
    as H by (destruct c as [[] [] [] [] [] [] [] []]; reflexivity).
  intros E. rewrite E in H. now apply Ascii.eqb_eq.
Qed.

Lemma runs_app_separator p c : forall s1 s2 acc,
  p c = false ->
  runs p acc (s1 ++ c :: s2) = runs p acc s1 ++ runs p [] s2.
Proof.
  induction s1 as [|x s1 IH]; intros s2 acc E; cbn [app runs].
  - now rewrite E.
  - destruct (p x); [now apply IH|].
    rewrite (IH s2 [] E). apply app_assoc.
Qed.

Lemma runs_separators p : forall s acc,
  forallb (fun c => negb (p c)) s = true -> runs p acc s = flush acc.
Proof.
  induction s as [|c s IH]; intros acc H; cbn [runs]; auto.
  cbn [forallb] in H. apply andb_true_iff in H. destruct H as [Hc H].
  apply negb_true_iff in Hc. rewrite Hc, (IH [] H). apply app_nil_r.
Qed.

Lemma runs_between_separators p before s after :
  forallb (fun c => negb (p c)) before = true ->
  forallb (fun c => negb (p c)) after = true ->
  runs p [] (before ++ s ++ after) = runs p [] s.
Proof.
  intros Hb Ha. induction before as [|c b IH]; cbn [app].
  - destruct after as [|c a]; [now rewrite app_nil_r|].
    cbn [forallb] in Ha. apply andb_true_iff in Ha. destruct Ha as [Hc Ha].
    apply negb_true_iff in Hc.
    rewrite (runs_app_separator p c s a [] Hc), (runs_separators p a [] Ha).
    apply app_nil_r.
  - cbn [forallb] in Hb. apply andb_true_iff in Hb. destruct Hb as [Hc Hb].
    apply negb_true_iff in Hc. cbn [runs]. rewrite Hc. now apply IH.
Qed.

Lemma chars_app s1 s2 :
  PyStr.chars (s1 ++ s2)%string = PyStr.chars s1 ++ PyStr.chars s2.
Proof. induction s1 as [|c s1 IH]; simpl; auto. now f_equal. Qed.

Lemma words_of_tokens text :
  words_of text =
  map PyStr.of_chars (tokens_of_runs (map PyChar.lower (PyStr.chars text))).
Proof.
  unfold words_of, Regex.findall, PyStr.lower.
  now rewrite chars_of_chars, scan_tokens_of_runs.
Qed.

Lemma words_of_strip s : words_of (PyStr.strip s) = words_of s.
Proof.
  rewrite !words_of_tokens. f_equal. unfold tokens_of_runs. f_equal.
  destruct (strip_split s) as (b & a & Eq & Hb & Ha).
  rewrite Eq, !map_app.
  symmetry. apply runs_between_separators.
  - rewrite forallb_forall in *. intros c Hc.
    apply in_map_iff in Hc. destruct Hc as (x & <- & Hx).
    rewrite (lower_space x (Hb x Hx)).
    apply negb_true_iff, space_not_word. auto.
  - rewrite forallb_forall in *. intros c Hc.
    apply in_map_iff in Hc. destruct Hc as (x & <- & Hx).
    rewrite (lower_space x (Ha x Hx)).
    apply negb_true_iff, space_not_word. auto.
Qed.

Lemma words_of_space_joined s l :
  words_of (String.concat " " (s :: l)) =
  words_of s ++ words_of (String.concat " " l).
Proof.
  destruct l as [|s' l].
  - simpl. rewrite (words_of_tokens ""). simpl. now rewrite app_nil_r.
  - change (String.concat " " (s :: s' :: l))
      with (s ++ " " ++ String.concat " " (s' :: l))%string.
    rewrite !words_of_tokens, <- map_app. f_equal.
    unfold tokens_of_runs. rewrite <- filter_app. f_equal.
    rewrite !chars_app, map_app.
    change (PyStr.chars " ") with [" "%char]. cbn [map app].
    apply runs_app_separator. reflexivity.
Qed.

Lemma words_of_join l :
  words_of (String.concat " " l) = flat_map words_of l.
Proof.
  induction l as [|s l IH]; [reflexivity|].
  rewrite words_of_space_joined, IH. reflexivity.
Qed.

(** X11: when the value read from an element is a list, the words of the
    resolved text are the words of the list's non-empty entries, entry by
    entry and in order: joining with spaces and stripping neither merges
    nor loses a word. *)
Theorem words_of_list_text (e : RawElement) (items : list (option string)) :
  raw_text e = TList items ->
  words_of (resolve_text e) = flat_map words_of (truthy_strings items).
Proof.
  intros R. unfold resolve_text. rewrite R, join_items_truthy_strings.
  destruct (PyStr.truthy (String.concat " " (truthy_strings items))) eqn:T.
  - rewrite words_of_strip. apply words_of_join.
  - rewrite <- words_of_join.
    destruct (String.concat " " (truthy_strings items));
      [reflexivity | discriminate].
Qed.

Lemma words_of_list_text_witness :
  words_of (resolve_text list_fallback_element)
  = flat_map words_of ["first"; "second "].
Proof.
  apply (words_of_list_text list_fallback_element
           [Some "first"; None; Some ""; Some "second "]).
  reflexivity.
Defined.

Lemma words_of_lowercase_word w :
  3 <= String.length w ->
  Forall (fun c => PyChar.is_ascii_lower c = true) (PyStr.chars w) ->
  words_of w = [w].
Proof.
  intros Len Low. rewrite words_of_tokens.
  assert (map PyChar.lower (PyStr.chars w) = PyStr.chars w) as ->.
  { clear Len. induction Low as [|c l Hc _ IH]; simpl; auto.
    now rewrite IH, (lower_fixes_lowercase c Hc). }
  assert (forallb PyChar.is_ascii_letter (PyStr.chars w) = true) as Let.
  { apply forallb_forall. intros c Hc. rewrite Forall_forall in Low.
    unfold PyChar.is_ascii_letter. now rewrite (Low c Hc). }
  assert (forallb PyChar.is_word (PyStr.chars w) = true) as Wd.
  { rewrite forallb_forall in *. intros c Hc. apply letter_is_word. auto. }
  unfold tokens_of_runs. rewrite runs_split.
  rewrite <- chars_length in Len.
  assert (PyStr.take_while PyChar.is_word (PyStr.chars w) = PyStr.chars w
          /\ PyStr.drop_while PyChar.is_word (PyStr.chars w) = []) as [-> ->].
  { clear - Wd. induction (PyStr.chars w) as [|c l IH]; [auto|].
    cbn [forallb] in Wd. apply andb_true_iff in Wd. destruct Wd as [Hc Wd].
    cbn [PyStr.take_while PyStr.drop_while]. rewrite Hc.
    destruct (IH Wd) as [-> ->]. auto. }
  cbn [app runs flush].
  destruct (PyStr.chars w) as [|c l] eqn:E; [simpl in Len; lia|].
  cbn [flush app filter]. unfold is_token. rewrite Let.
  assert ((3 <=? List.length (c :: l)) = true) as -> by now apply Nat.leb_le.
  cbn [andb map]. rewrite <- E. unfold PyStr.of_chars, PyStr.chars.
  now rewrite string_of_list_ascii_of_string.
Qed.

Lemma keyword_shape text w :
  In w (extract_keywords text) ->
  3 <= String.length w /\
  Forall (fun c => PyChar.is_ascii_lower c = true) (PyStr.chars w).
Proof.
  rewrite extract_keywords_ranked. intros H.
  apply In_firstn, ranked_keywords_In in H. destruct H as [H _].
  destruct (words_of_lowercase text w H) as (Len & Low & _). auto.
Qed.

(** X12: the keywords of a text can be read back from their space-joined
    form: tokenizing [" ".join(keywords)] returns the keywords, each once
    and in the same order. *)
Theorem keywords_text_round_trip (text : string) :
  words_of (PyStr.join " " (extract_keywords text)) = extract_keywords text.
Proof.
  unfold PyStr.join. rewrite words_of_join.
  pose proof (keyword_shape text) as H.
  induction (extract_keywords text) as [|w l IH]; [reflexivity|].
  destruct (H w (or_introl eq_refl)) as [Len Low].
  cbn [flat_map]. rewrite (words_of_lowercase_word w Len Low), IH.
  - reflexivity.
  - intros x Hx. apply H. now right.
Qed.

(** ** What reaches the index *)

Lemma ingest_actions_In cfg embed elements a :
  In a (ingest_actions cfg embed elements) ->
  exists i e v,
    In e elements /\ kept cfg e = true /\
    accepted_vector cfg embed (chunk_of cfg e) = Some v /\
    a = make_action cfg i {| chunk := chunk_of cfg e; vector_field := v |}.
Proof.
  unfold ingest_actions.
  rewrite build_actions_map, generate_embeddings_filter, filter_chunks_filter.
  intros H. apply in_map_iff in H. destruct H as ([i c] & <- & H).
  assert (In c (map snd (enumerate
            (map (enrich cfg embed)
               (filter (accepted cfg embed)
                  (map (chunk_of cfg) (filter (kept cfg) elements)))))))
    as Hc by (apply in_map_iff; now exists (i, c)).
  rewrite map_snd_enumerate in Hc.
  apply in_map_iff in Hc. destruct Hc as (ch & <- & Hch).
  apply filter_In in Hch. destruct Hch as [Hch A].
  apply in_map_iff in Hch. destruct Hch as (e & <- & He).
  apply filter_In in He. destruct He as [He K].
  unfold accepted in A.
  destruct (accepted_vector cfg embed (chunk_of cfg e)) as [v|] eqn:V;
    [|discriminate].
  exists i, e, v. repeat split; auto.
  cbn [fst snd]. unfold enrich. now rewrite V.
Qed.

Lemma ingest_actions_length cfg embed elements :
  List.length (ingest_actions cfg embed elements) <= List.length elements.
Proof.
  unfold ingest_actions.
  rewrite build_actions_map, length_map. unfold enumerate.
  rewrite length_combine, length_seq, Nat.min_id.
  rewrite generate_embeddings_filter, length_map.
  etransitivity; [apply filter_length_le|].
  rewrite filter_chunks_filter, length_map. apply filter_length_le.
Qed.

(** X13: whatever the elements and the provider, every action that the
    pipeline hands to the bulk call targets the configured index and carries
    a document whose content is non-empty, stripped and at least as long as
    the threshold, whose keywords are those of that content, whose vector
    is the provider's answer for that content, of the configured dimension
    and finite, and whose type is set; and there are no more actions than
    elements. *)
Theorem indexed_documents_are_valid
  (cfg : Config) (embed : provider) (elements : list RawElement) :
  List.length (ingest_actions cfg embed elements) <= List.length elements /\
  Forall (fun a =>
            _index a = OPENSEARCH_INDEX cfg /\
            doc_content (_source a) <> "" /\
            stripped (doc_content (_source a)) /\
            (MIN_CHUNK_LENGTH cfg
             <= Z.of_nat (String.length (doc_content (_source a))))%Z /\
            doc_keywords (_source a)
            = extract_keywords (doc_content (_source a)) /\
            embed (doc_content (_source a))
            = Embedding (doc_vector_field (_source a)) /\
            Z.of_nat (List.length (doc_vector_field (_source a)))
            = EMBEDDING_DIMENSION cfg /\
            Forall (fun x => is_finite x = true)
                   (doc_vector_field (_source a)) /\
            exists ty, doc_type (_source a) = Some ty)
         (ingest_actions cfg embed elements).
Proof.
  split; [apply ingest_actions_length|].
  apply Forall_forall. intros a Ha.
  destruct (ingest_actions_In _ _ _ _ Ha) as (i & e & v & He & K & V & ->).
  apply accepted_vector_valid in V. destruct V as (E & D & F).
  unfold kept in K. apply keeps_spec in K. destruct K as [N L].
  cbn. repeat split; auto.
  - apply resolve_text_stripped.
  - apply resolve_text_stripped.
  - eauto.
Qed.

Lemma subseq_In {A} (l1 l2 : list A) (x : A) :
  subseq l1 l2 -> In x l1 -> In x l2.
Proof. induction 1; simpl; tauto. Qed.

Lemma subseq_NoDup {A} (l1 l2 : list A) :
  subseq l1 l2 -> NoDup l2 -> NoDup l1.
Proof.
  induction 1 as [|x l1 l2 S IH|x l1 l2 S IH]; intros D; auto;
    inversion D as [|? ? N D']; subst; auto.
  constructor; auto. intros H. apply N. eapply subseq_In; eauto.
Qed.

Lemma kept_ids_NoDup {A} (f : A -> string) (p : A -> bool) (l : list A) :
  NoDup (map f l) -> NoDup (map f (filter p l)).
Proof. apply subseq_NoDup, subseq_map, filter_subseq. Qed.

Lemma ingest_actions_of_elements cfg embed elements :
  ingest_actions cfg embed elements
  = map (action_of cfg embed) (indexed_elements cfg embed elements).
Proof.
  unfold ingest_actions, indexed_elements.
  rewrite build_actions_map, generate_embeddings_filter, filter_chunks_filter.
  remember (filter (kept cfg) elements) as l eqn:E. clear E.
  unfold enumerate. generalize 0.
  induction l as [|e l IH]; intros n; simpl; auto.
  destruct (accepted cfg embed (chunk_of cfg e)); simpl; auto.
  f_equal. apply IH.
Qed.

(** X14: the actions are built one from each element that reaches the
    index, in input order, and the identity key of an action is the
    [element_id] of the very element whose text its document holds (the
    empty string when that element has none); so when the elements carry
    pairwise distinct ids, the keys of the actions are pairwise distinct. *)
Theorem ids_are_element_ids
  (cfg : Config) (embed : provider) (elements : list RawElement) :
  let actions := ingest_actions cfg embed elements in
  let sources := indexed_elements cfg embed elements in
  actions = map (action_of cfg embed) sources /\
  (forall i a,
      nth_error actions i = Some a ->
      exists e,
        nth_error sources i = Some e /\ In e elements /\
        _id a = element_id_of e /\
        doc_text (_source a) = resolve_text e /\
        dict_get (doc_metadata (_source a)) "element_id" "" = _id a) /\
  (forall k, In k (map _id actions) ->
             exists e, In e elements /\ k = element_id_of e) /\
  (NoDup (map element_id_of elements) -> NoDup (map _id actions)).
Proof.
  intros actions sources. subst actions sources.
  rewrite ingest_actions_of_elements.
  assert (Sub : forall e, In e (indexed_elements cfg embed elements) ->
                          In e elements).
  { intros e He. unfold indexed_elements in He.
    apply filter_In in He. destruct He as [He _].
    apply filter_In in He. now destruct He. }
  split; [reflexivity|]. split; [|split].
  - intros i a H. rewrite nth_error_map in H.
    destruct (nth_error (indexed_elements cfg embed elements) i)
      as [e|] eqn:N; [|discriminate].
    injection H as <-. exists e. split; [reflexivity|].
    split; [apply Sub; eapply nth_error_In; eassumption|].
    repeat split.
  - intros k H. rewrite map_map in H. apply in_map_iff in H.
    destruct H as (e & <- & He). exists e. split; [now apply Sub|reflexivity].
  - intros D. rewrite map_map. cbn [_id action_of].
    unfold indexed_elements. now apply kept_ids_NoDup, kept_ids_NoDup.
Qed.

Lemma ids_are_element_ids_witness :
  NoDup (map _id (ingest_actions default_config zero_provider
                    identified_elements)).
Proof.
  apply (ids_are_element_ids default_config zero_provider
           identified_elements).
  repeat constructor; simpl; intuition discriminate.
Defined.

Lemma to_uint_not_nil n : Nat.to_uint n <> Decimal.Nil.
Proof.
  intros E. pose proof (DecimalNat.Unsigned.of_to n) as H.
  pose proof (DecimalNat.Unsigned.to_of (Nat.to_uint n)) as T.
  rewrite H in T. rewrite E in T. discriminate T.
Qed.

Lemma of_nat_injective n m : PyStr.of_nat n = PyStr.of_nat m -> n = m.
Proof.
  unfold PyStr.of_nat. intros E.
  apply DecimalNat.Unsigned.to_uint_inj.
  pose proof (NilZero.usu _ (to_uint_not_nil n)) as Hn.
  pose proof (NilZero.usu _ (to_uint_not_nil m)) as Hm.
  rewrite E in Hn. rewrite Hn in Hm. now injection Hm.
Qed.

Lemma dict_get_absent d key default :
  ~ In key (map fst d) -> dict_get d key default = default.
Proof.
  induction d as [|[k v] d IH]; simpl; auto.
  intros H. destruct (String.eqb_spec k key); [tauto|]. apply IH. tauto.
Qed.

Lemma append_injective (p s1 s2 : string) :
  (p ++ s1)%string = (p ++ s2)%string -> s1 = s2.
Proof. induction p as [|c p IH]; simpl; auto. intros [= E]. auto. Qed.

Lemma NoDup_map_injective {A B} (f : A -> B) (l : list A) :
  (forall a b, f a = f b -> a = b) -> NoDup l -> NoDup (map f l).
Proof.
  intros Inj D. induction D as [|x l N D IH]; simpl; constructor; auto.
  intros H. apply in_map_iff in H. destruct H as (y & E & Hy).
  apply Inj in E. now subst.
Qed.

(** X15: for chunks whose metadata holds no [element_id] at all, the
    identity key of the action at position [i] is [support_chunk_<i>], and
    these keys are pairwise distinct. *)
Theorem synthetic_ids_are_distinct
  (cfg : Config) (chunks : list EnrichedChunk) :
  Forall lacks_element_id chunks ->
  map _id (build_actions cfg chunks)
  = map (fun i => ("support_chunk_" ++ PyStr.of_nat i)%string)
        (seq 0 (List.length chunks))
  /\ NoDup (map _id (build_actions cfg chunks)).
Proof.
  intros H.
  assert (map _id (build_actions cfg chunks)
          = map (fun i => ("support_chunk_" ++ PyStr.of_nat i)%string)
                (seq 0 (List.length chunks))) as E.
  { rewrite build_actions_ids. unfold enumerate. generalize 0.
    induction H as [|c l Hc _ IH]; intros n; simpl; auto.
    rewrite IH. f_equal. unfold action_id. now apply dict_get_absent. }
  split; auto. rewrite E.
  apply NoDup_map_injective; [|apply seq_NoDup].
  intros a b Eq. now apply append_injective, of_nat_injective in Eq.
Qed.

Lemma synthetic_ids_are_distinct_witness :
  map _id (build_actions default_config [bare_chunk "one"; bare_chunk "two"])
  = ["support_chunk_0"; "support_chunk_1"].
Proof.
  refine (proj1 (synthetic_ids_are_distinct default_config
                   [bare_chunk "one"; bare_chunk "two"] _)).
  repeat constructor; unfold lacks_element_id; simpl; intuition discriminate.
Defined.

(** ** The loops with their effects *)

(** Two sides that are the same list up to the bracketing of [++]. *)
Ltac same_list :=
  repeat (f_equal; []); repeat (rewrite <- app_assoc; cbn [app]);
  cbn [app]; reflexivity.

Lemma filter_chunks_io_fold cfg elements acc done :
  fold_left (filter_step_io cfg) elements (acc, done) =
  (acc ++ map (chunk_of cfg) (filter (kept cfg) elements),
   done ++ flat_map (skip_effects cfg) elements).
Proof.
  revert acc done. induction elements as [|e l IH]; intros acc done.
  - simpl. now rewrite !app_nil_r.
  - cbn [fold_left filter_step_io flat_map filter]. unfold skip_effects at 1.
    change (keeps cfg (resolve_text e)) with (kept cfg e).
    change (make_chunk cfg e (resolve_text e)) with (chunk_of cfg e).
    destruct (kept cfg e); rewrite IH.
    + cbn [map app]. now rewrite <- app_assoc.
    + now rewrite <- app_assoc.
Qed.

Lemma filter_chunks_io_spec cfg elements :
  filter_chunks_io cfg elements =
  (filter_chunks cfg elements,
   flat_map (skip_effects cfg) elements
   ++ [Print (Filtered (List.length elements)
                       (List.length (filter_chunks cfg elements)))]).
Proof.
  unfold filter_chunks_io. rewrite filter_chunks_io_fold.
  now rewrite filter_chunks_filter.
Qed.

Lemma embed_step_io_fold cfg embed n : forall l acc done,
  fold_left (embed_step_io cfg embed n) l (acc, done) =
  (fold_left (embed_step cfg embed) (map snd l) acc,
   done ++ flat_map (embed_effects cfg embed n) l).
Proof.
  induction l as [|[i c] l IH]; intros acc done.
  - simpl. now rewrite app_nil_r.
  - cbn [fold_left map snd flat_map embed_step_io]. unfold embed_step at 2.
    unfold embed_effects at 1. cbn [fst snd].
    destruct (embed (text c)) as [e|v]; [now rewrite IH; same_list|].
    destruct (wrong_dimension cfg v); [now rewrite IH; same_list|].
    destruct (has_nan_or_inf v); rewrite IH; same_list.
Qed.

Lemma generate_embeddings_io_spec cfg embed chunks :
  generate_embeddings_io cfg embed chunks =
  (generate_embeddings cfg embed chunks,
   Print (Generating (List.length chunks))
   :: flat_map (embed_effects cfg embed (List.length chunks))
               (enumerate chunks)
   ++ [Print (Generated
                (List.length (generate_embeddings cfg embed chunks)))]).
Proof.
  unfold generate_embeddings_io. rewrite embed_step_io_fold.
  rewrite map_snd_enumerate. reflexivity.
Qed.

Lemma printed_lines_app l1 l2 :
  printed_lines (l1 ++ l2) = printed_lines l1 ++ printed_lines l2.
Proof. apply flat_map_app. Qed.

Lemma embedding_calls_app l1 l2 :
  embedding_calls (l1 ++ l2) = embedding_calls l1 ++ embedding_calls l2.
Proof. apply flat_map_app. Qed.

Lemma bulk_calls_app l1 l2 :
  bulk_calls (l1 ++ l2) = bulk_calls l1 ++ bulk_calls l2.
Proof. apply flat_map_app. Qed.

Lemma pauses_app l1 l2 : pauses (l1 ++ l2) = pauses l1 + pauses l2.
Proof. unfold pauses. now rewrite filter_app, length_app. Qed.

Lemma filter_partition_length {A} (p : A -> bool) (l : list A) :
  List.length (filter (fun x => negb (p x)) l) + List.length (filter p l)
  = List.length l.
Proof.
  induction l as [|x l IH]; simpl; auto.
  destruct (p x); simpl; lia.
Qed.

Lemma skip_lines cfg elements :
  printed_lines (flat_map (skip_effects cfg) elements) =
  map (fun e => Skipped (String.length (resolve_text e))
                        (take 50 (resolve_text e)))
      (filter (fun e => negb (kept cfg e)) elements).
Proof.
  induction elements as [|e l IH]; [reflexivity|].
  cbn [flat_map filter]. rewrite printed_lines_app, IH.
  unfold skip_effects. destruct (kept cfg e); reflexivity.
Qed.

(** X16: [filter_chunks] prints one line for each element it drops, in
    order, with the length of the resolved text -- 0, or less than the
    threshold -- and its first 50 characters, and then one line with the
    number of elements and of chunks; the dropped and the kept add up to
    the elements. *)
Theorem filter_chunks_reports_skips
  (cfg : Config) (elements : list RawElement) :
  let chunks := fst (filter_chunks_io cfg elements) in
  let lines := printed_lines (snd (filter_chunks_io cfg elements)) in
  chunks = filter_chunks cfg elements /\
  lines = map (fun e => Skipped (String.length (resolve_text e))
                                (take 50 (resolve_text e)))
              (filter (fun e => negb (kept cfg e)) elements)
          ++ [Filtered (List.length elements) (List.length chunks)] /\
  List.length (filter is_skip_line lines) + List.length chunks
  = List.length elements /\
  Forall (fun l => match l with
                   | Skipped len _ =>
                       len = 0 \/ (Z.of_nat len < MIN_CHUNK_LENGTH cfg)%Z
                   | _ => True
                   end) lines.
Proof.
  intros chunks lines. subst chunks lines.
  rewrite filter_chunks_io_spec. cbn [fst snd].
  rewrite printed_lines_app, skip_lines. cbn [printed_lines flat_map app].
  split; [reflexivity|]. split; [reflexivity|]. split.
  - rewrite filter_app, length_app. cbn [filter is_skip_line List.length].
    rewrite Nat.add_0_r.
    rewrite forallb_filter_id
      by (apply forallb_forall; intros l Hl; apply in_map_iff in Hl;
          destruct Hl as (e & <- & _); reflexivity).
    rewrite length_map, filter_chunks_filter, length_map.
    apply filter_partition_length.
  - apply Forall_app. split; [|repeat constructor].
    apply Forall_forall. intros l Hl. apply in_map_iff in Hl.
    destruct Hl as (e & <- & He). apply filter_In in He.
    destruct He as [_ K]. apply negb_true_iff in K.
    unfold kept, keeps in K. apply andb_false_iff in K.
    destruct K as [K|K].
    + left. destruct (resolve_text e); [reflexivity | discriminate].
    + right. now apply Z.leb_gt.
Qed.

Lemma enumerate_from_In {A} (l : list A) : forall k i (x : A),
  In (i, x) (combine (seq k (List.length l)) l)
  <-> k <= i /\ nth_error l (i - k) = Some x.
Proof.
  induction l as [|y l IH]; intros k i x; simpl.
  - split; [tauto|]. intros [_ H]. destruct (i - k); discriminate.
  - rewrite IH. split.
    + intros [[= <- <-]|[Le H]].
      * rewrite Nat.sub_diag. auto.
      * split; [lia|]. replace (i - k) with (S (i - S k)) by lia. exact H.
    + intros [Le H]. destruct (i - k) as [|m] eqn:E.
      * left. injection H as <-. f_equal. lia.
      * right. split; [lia|]. replace (i - S k) with m by lia. exact H.
Qed.

Lemma enumerate_In {A} (l : list A) i (x : A) :
  In (i, x) (enumerate l) <-> nth_error l i = Some x.
Proof.
  unfold enumerate. rewrite enumerate_from_In, Nat.sub_0_r.
  split; [tauto | split; [lia | assumption]].
Qed.

Lemma embed_effects_calls cfg embed n l :
  embedding_calls (flat_map (embed_effects cfg embed n) l)
  = map (fun ic => text (snd ic)) l.
Proof.
  induction l as [|ic l IH]; [reflexivity|].
  cbn [flat_map map]. rewrite embedding_calls_app, IH. f_equal.
  unfold embed_effects. cbn [embedding_calls flat_map app].
  destruct (embed (text (snd ic))) as [e|v]; [reflexivity|].
  destruct (wrong_dimension cfg v); [reflexivity|].
  destruct (has_nan_or_inf v); [reflexivity|].
  destruct ((fst ic + 1) mod 10 =? 0); reflexivity.
Qed.

(** What one iteration contributes: a vector or a line about its loss, and
    a pause with the vector only. *)
Lemma embed_effects_tally cfg embed n ic :
  let done := embed_effects cfg embed n ic in
  List.length (filter is_drop_line (printed_lines done))
  + (if accepted cfg embed (snd ic) then 1 else 0) = 1 /\
  pauses done = if accepted cfg embed (snd ic) then 1 else 0.
Proof.
  unfold embed_effects, accepted, accepted_vector.
  destruct (embed (text (snd ic))) as [e|v]; [split; reflexivity|].
  destruct (wrong_dimension cfg v); [split; reflexivity|].
  destruct (has_nan_or_inf v); [split; reflexivity|].
  destruct ((fst ic + 1) mod 10 =? 0); split; reflexivity.
Qed.

Lemma embed_effects_tally_all cfg embed n l :
  let done := flat_map (embed_effects cfg embed n) l in
  List.length (filter is_drop_line (printed_lines done))
  + List.length (filter (accepted cfg embed) (map snd l)) = List.length l /\
  pauses done = List.length (filter (accepted cfg embed) (map snd l)).
Proof.
  induction l as [|ic l [IH1 IH2]]; [split; reflexivity|].
  cbn [flat_map map filter List.length].
  rewrite printed_lines_app, filter_app, length_app, pauses_app.
  destruct (embed_effects_tally cfg embed n ic) as [T1 T2].
  cbn zeta in T1, T2, IH1, IH2.
  destruct (accepted cfg embed (snd ic)); cbn [List.length]; split; lia.
Qed.

Lemma embed_effects_lines cfg embed n chunks (l : line) :
  In l (printed_lines
          (flat_map (embed_effects cfg embed n) (enumerate chunks)))
  <-> exists i c, nth_error chunks i = Some c /\
                  In l (printed_lines (embed_effects cfg embed n (i, c))).
Proof.
  unfold printed_lines. rewrite in_flat_map. split.
  - intros (ef & Hef & Hl). apply in_flat_map in Hef.
    destruct Hef as ([i c] & Hic & Hef). apply enumerate_In in Hic.
    exists i, c. split; auto. apply in_flat_map. now exists ef.
  - intros (i & c & Hic & Hl). apply in_flat_map in Hl.
    destruct Hl as (ef & Hef & Hl). exists ef. split; auto.
    apply in_flat_map. exists (i, c). split; auto. now apply enumerate_In.
Qed.

Lemma embed_effects_printed cfg embed n i c :
  printed_lines (embed_effects cfg embed n (i, c)) =
  match embed (text c) with
  | ProviderError e => [EmbeddingError i e; TextPreview (take 100 (text c))]
  | Embedding v =>
      if wrong_dimension cfg v then [WrongDimension i (List.length v)]
      else if has_nan_or_inf v then [NanOrInf i]
      else if (i + 1) mod 10 =? 0 then [Processed (i + 1) n] else []
  end.
Proof.
  unfold embed_effects. cbn [fst snd].
  destruct (embed (text c)) as [e|v]; [reflexivity|].
  destruct (wrong_dimension cfg v); [reflexivity|].
  destruct (has_nan_or_inf v); [reflexivity|].
  destruct ((i + 1) mod 10 =? 0); reflexivity.
Qed.

(** X17: [generate_embeddings] asks the provider once for every chunk, in
    order, whatever happened to the chunks before; every chunk either comes
    out with a vector or has one line printed about its loss, so the lines
    about lost chunks and the enriched chunks add up to the chunks; each
    such line names the position of the chunk it is about; and the pause
    is made after an accepted chunk only. *)
Theorem generate_embeddings_reports_drops
  (cfg : Config) (embed : provider) (chunks : list Chunk) :
  let enriched := fst (generate_embeddings_io cfg embed chunks) in
  let done := snd (generate_embeddings_io cfg embed chunks) in
  enriched = generate_embeddings cfg embed chunks /\
  embedding_calls done = map text chunks /\
  pauses done = List.length enriched /\
  List.length (filter is_drop_line (printed_lines done))
  + List.length enriched = List.length chunks /\
  (forall i len,
      In (WrongDimension i len) (printed_lines done) <->
      exists c v, nth_error chunks i = Some c /\
                  embed (text c) = Embedding v /\
                  Z.of_nat (List.length v) <> EMBEDDING_DIMENSION cfg /\
                  len = List.length v) /\
  (forall i,
      In (NanOrInf i) (printed_lines done) <->
      exists c v, nth_error chunks i = Some c /\
                  embed (text c) = Embedding v /\
                  Z.of_nat (List.length v) = EMBEDDING_DIMENSION cfg /\
                  has_nan_or_inf v = true) /\
  (forall i e,
      In (EmbeddingError i e) (printed_lines done) <->
      exists c, nth_error chunks i = Some c /\
                embed (text c) = ProviderError e).
Proof.
  intros enriched done. subst enriched done.
  rewrite generate_embeddings_io_spec. cbn [fst snd].
  set (n := List.length chunks).
  set (body := flat_map (embed_effects cfg embed n) (enumerate chunks)).
  assert (forall l, is_drop_line l = true ->
            (In l (printed_lines
                     (Print (Generating n) :: body
                      ++ [Print (Generated
                            (List.length
                               (generate_embeddings cfg embed chunks)))]))
             <-> exists i c, nth_error chunks i = Some c /\
                   In l (printed_lines (embed_effects cfg embed n (i, c)))))
    as Lines.
  { intros l D. rewrite <- embed_effects_lines. fold body.
    change (Print (Generating n) :: body ++ ?t)
      with ([Print (Generating n)] ++ body ++ t).
    rewrite !printed_lines_app, !in_app_iff. cbn.
    split; [|tauto]. intros [[<-|[]]|[H|[<-|[]]]]; auto; discriminate. }
  pose proof (embed_effects_tally_all cfg embed n (enumerate chunks))
    as [T1 T2]. cbn zeta in T1, T2. fold body in T1, T2.
  rewrite map_snd_enumerate in T1, T2.
  assert (List.length (enumerate chunks) = n) as Len.
  { unfold enumerate. rewrite length_combine, length_seq. apply Nat.min_id. }
  assert (List.length (generate_embeddings cfg embed chunks)
          = List.length (filter (accepted cfg embed) chunks)) as LenE
      by now rewrite generate_embeddings_filter, length_map.
  split; [reflexivity|]. split; [|split; [|split; [|split; [|split]]]].
  - cbn [embedding_calls flat_map app]. fold (embedding_calls (body ++
      [Print (Generated (List.length
                           (generate_embeddings cfg embed chunks)))])).
    rewrite embedding_calls_app. cbn [embedding_calls flat_map app].
    rewrite app_nil_r. unfold body. rewrite embed_effects_calls.
    rewrite <- (map_snd_enumerate chunks) at 2. now rewrite map_map.
  - change (Print (Generating n) :: body ++ ?t)
      with ([Print (Generating n)] ++ body ++ t).
    rewrite !pauses_app, T2, LenE. unfold pauses. cbn [filter List.length].
    lia.
  - change (Print (Generating n) :: body ++ ?t)
      with ([Print (Generating n)] ++ body ++ t).
    rewrite !printed_lines_app, !filter_app, !length_app, LenE.
    cbn [printed_lines flat_map app filter is_drop_line List.length].
    lia.
  - intros i len. rewrite (Lines (WrongDimension i len) eq_refl). split.
    + intros (j & c & Hc & Hl). rewrite embed_effects_printed in Hl.
      destruct (embed (text c)) as [e|v] eqn:E.
      { destruct Hl as [H|[H|[]]]; discriminate. }
      destruct (wrong_dimension cfg v) eqn:D.
      { destruct Hl as [H|[]]. injection H as <- <-. exists c, v.
        unfold wrong_dimension in D.
        apply negb_true_iff, Z.eqb_neq in D. auto. }
      destruct (has_nan_or_inf v).
      { destruct Hl as [H|[]]; discriminate. }
      destruct ((j + 1) mod 10 =? 0); [|destruct Hl].
      destruct Hl as [H|[]]; discriminate.
    + intros (c & v & Hc & E & D & ->). exists i, c. split; auto.
      rewrite embed_effects_printed, E.
      unfold wrong_dimension. apply Z.eqb_neq in D. rewrite D. now left.
  - intros i. rewrite (Lines (NanOrInf i) eq_refl). split.
    + intros (j & c & Hc & Hl). rewrite embed_effects_printed in Hl.
      destruct (embed (text c)) as [e|v] eqn:E.
      { destruct Hl as [H|[H|[]]]; discriminate. }
      destruct (wrong_dimension cfg v) eqn:D.
      { destruct Hl as [H|[]]; discriminate. }
      destruct (has_nan_or_inf v) eqn:N.
      { destruct Hl as [H|[]]. injection H as <-. exists c, v.
        unfold wrong_dimension in D.
        apply negb_false_iff, Z.eqb_eq in D. auto. }
      destruct ((j + 1) mod 10 =? 0); [|destruct Hl].
      destruct Hl as [H|[]]; discriminate.
    + intros (c & v & Hc & E & D & N). exists i, c. split; auto.
      rewrite embed_effects_printed, E.
      unfold wrong_dimension. apply Z.eqb_eq in D. rewrite D, N. now left.
  - intros i e. rewrite (Lines (EmbeddingError i e) eq_refl). split.
    + intros (j & c & Hc & Hl). rewrite embed_effects_printed in Hl.
      destruct (embed (text c)) as [e'|v] eqn:E.
      { destruct Hl as [H|[H|[]]]; [|discriminate].
        injection H as <- <-. now exists c. }
      destruct (wrong_dimension cfg v).
      { destruct Hl as [H|[]]; discriminate. }
      destruct (has_nan_or_inf v).
      { destruct Hl as [H|[]]; discriminate. }
      destruct ((j + 1) mod 10 =? 0); [|destruct Hl].
      destruct Hl as [H|[]]; discriminate.
    + intros (c & Hc & E). exists i, c. split; auto.
      rewrite embed_effects_printed, E. now left.
Qed.

(** ** [main] *)

Lemma build_actions_length cfg chunks :
  List.length (build_actions cfg chunks) = List.length chunks.
Proof.
  rewrite build_actions_map, length_map. unfold enumerate.
  rewrite length_combine, length_seq. apply Nat.min_id.
Qed.

Lemma build_actions_nil cfg chunks :
  build_actions cfg chunks = [] <-> chunks = [].
Proof.
  split; [|intros ->; reflexivity].
  intros H. apply (f_equal (@List.length Action)) in H.
  rewrite build_actions_length in H. now destruct chunks.
Qed.

Lemma generate_embeddings_nil cfg embed : generate_embeddings cfg embed [] = [].
Proof. reflexivity. Qed.

(** The effects of [filter_chunks] are prints about skipped elements and
    the summary. *)
Lemma filter_effects_are_prints cfg elements ef :
  In ef (snd (filter_chunks_io cfg elements)) ->
  exists l, ef = Print l /\
            (is_skip_line l = true \/ exists n m, l = Filtered n m).
Proof.
  rewrite filter_chunks_io_spec. cbn [snd]. intros H.
  apply in_app_or in H. destruct H as [H|[<-|[]]].
  - apply in_flat_map in H. destruct H as (e & _ & H).
    unfold skip_effects in H. destruct (kept cfg e); [destruct H|].
    destruct H as [<-|[]]. eexists. split; [reflexivity|]. now left.
  - eexists. split; [reflexivity|]. right. eauto.
Qed.

(** The effects of [generate_embeddings] are calls to the provider, pauses
    and prints of its own lines. *)
Lemma embed_effects_kinds cfg embed chunks ef :
  In ef (snd (generate_embeddings_io cfg embed chunks)) ->
  (exists t, ef = CallEmbeddings t) \/ ef = Sleep \/
  exists l, ef = Print l /\
            match l with
            | Generating _ | WrongDimension _ _ | NanOrInf _ | Processed _ _
            | EmbeddingError _ _ | TextPreview _ | Generated _ => True
            | _ => False
            end.
Proof.
  rewrite generate_embeddings_io_spec. cbn [snd]. intros [<-|H].
  { right. right. eexists. split; [reflexivity | exact I]. }
  apply in_app_or in H. destruct H as [H|[<-|[]]].
  2: { right. right. eexists. split; [reflexivity | exact I]. }
  apply in_flat_map in H. destruct H as ([i c] & _ & H).
  unfold embed_effects in H. cbn [fst snd] in H.
  destruct H as [<-|H]; [left; eauto|].
  destruct (embed (text c)) as [e|v].
  { destruct H as [<-|[<-|[]]]; right; right; eexists;
      (split; [reflexivity | exact I]). }
  destruct (wrong_dimension cfg v).
  { destruct H as [<-|[]]. right; right; eexists;
      (split; [reflexivity | exact I]). }
  destruct (has_nan_or_inf v).
  { destruct H as [<-|[]]. right; right; eexists;
      (split; [reflexivity | exact I]). }
  apply in_app_or in H. destruct H as [H|[<-|[]]]; [|now right; left].
  destruct ((i + 1) mod 10 =? 0); [|destruct H].
  destruct H as [<-|[]]. right; right; eexists;
    (split; [reflexivity | exact I]).
Qed.

Lemma no_bulk_calls done :
  (forall a, ~ In (CallBulk a) done) -> bulk_calls done = [].
Proof.
  induction done as [|ef l IH]; intros H; [reflexivity|].
  cbn [bulk_calls flat_map]. fold (bulk_calls l).
  rewrite IH by (intros a Ha; apply (H a); now right).
  destruct ef; try reflexivity. exfalso. apply (H actions). now left.
Qed.

Lemma no_embedding_calls done :
  (forall t, ~ In (CallEmbeddings t) done) -> embedding_calls done = [].
Proof.
  induction done as [|ef l IH]; intros H; [reflexivity|].
  cbn [embedding_calls flat_map]. fold (embedding_calls l).
  rewrite IH by (intros a Ha; apply (H a); now right).
  destruct ef; try reflexivity. exfalso. apply (H input). now left.
Qed.

Lemma filter_log_bulk_calls cfg elements :
  bulk_calls (snd (filter_chunks_io cfg elements)) = [].
Proof.
  apply no_bulk_calls. intros a H.
  apply filter_effects_are_prints in H. destruct H as (l & E & _).
  discriminate.
Qed.

Lemma filter_log_embedding_calls cfg elements :
  embedding_calls (snd (filter_chunks_io cfg elements)) = [].
Proof.
  apply no_embedding_calls. intros a H.
  apply filter_effects_are_prints in H. destruct H as (l & E & _).
  discriminate.
Qed.

Lemma embed_log_bulk_calls cfg embed chunks :
  bulk_calls (snd (generate_embeddings_io cfg embed chunks)) = [].
Proof.
  apply no_bulk_calls. intros a H.
  apply embed_effects_kinds in H.
  destruct H as [[t E]|[E|(l & E & _)]]; discriminate.
Qed.

Lemma embed_log_embedding_calls cfg embed chunks :
  embedding_calls (snd (generate_embeddings_io cfg embed chunks))
  = map text chunks.
Proof.
  rewrite generate_embeddings_io_spec. cbn [snd].
  change (Print ?g :: ?body ++ ?t) with ([Print g] ++ body ++ t).
  rewrite !embedding_calls_app, embed_effects_calls.
  cbn [embedding_calls flat_map app]. rewrite app_nil_r.
  rewrite <- (map_snd_enumerate chunks) at 2. now rewrite map_map.
Qed.

Lemma index_log_bulk_calls cfg bulk chunks :
  bulk_calls (snd (index_to_opensearch_io cfg bulk chunks))
  = [build_actions cfg chunks].
Proof.
  unfold index_to_opensearch_io.
  destruct (report_bulk (bulk (build_actions cfg chunks))) as [printed o].
  cbn [snd bulk_calls flat_map app]. f_equal.
  induction printed as [|r l IH]; [reflexivity | exact IH].
Qed.

Lemma index_log_embedding_calls cfg bulk chunks :
  embedding_calls (snd (index_to_opensearch_io cfg bulk chunks)) = [].
Proof.
  unfold index_to_opensearch_io.
  destruct (report_bulk (bulk (build_actions cfg chunks))) as [printed o].
  cbn [snd embedding_calls flat_map app].
  induction printed as [|r l IH]; [reflexivity | exact IH].
Qed.

Lemma index_log_outcome cfg bulk chunks :
  fst (index_to_opensearch_io cfg bulk chunks) =
  match bulk (build_actions cfg chunks) with
  | BulkReturned _ _ => Returns
  | BulkRaised e => Raises e
  end.
Proof.
  unfold index_to_opensearch_io, report_bulk.
  now destruct (bulk (build_actions cfg chunks)).
Qed.

Lemma main_pipeline_spec cfg w :
  main_pipeline cfg w =
  let path := DOCUMENT_PATH cfg in
  match unstructured w with
  | Raised e =>
      (Raises e,
       [Print (Processing path); CallUnstructured path;
        Print (IngestionError e); PrintTraceback])
  | Returned elements =>
      let start := [Print (Processing path); CallUnstructured path;
                    Print (Received (List.length elements))] in
      let chunks := filter_chunks cfg elements in
      let enriched := generate_embeddings cfg (embeddings w) chunks in
      let done2 := snd (filter_chunks_io cfg elements) in
      let done3 := snd (generate_embeddings_io cfg (embeddings w) chunks) in
      let done4 :=
        snd (index_to_opensearch_io cfg (bulk_call w) enriched) in
      match chunks with
      | [] => (Returns, start ++ done2 ++ [Print NoValidChunks])
      | _ :: _ =>
          match enriched with
          | [] =>
              (Returns, start ++ done2 ++ done3 ++ [Print NoValidEmbeddings])
          | _ :: _ =>
              match bulk_call w (build_actions cfg enriched) with
              | BulkReturned _ _ =>
                  (Returns,
                   start ++ done2 ++ done3 ++ done4
                   ++ [Print BlankRule; Print Completed; Print Rule])
              | BulkRaised e =>
                  (Raises e,
                   start ++ done2 ++ done3 ++ done4
                   ++ [Print (IngestionError e); PrintTraceback])
              end
          end
      end
  end.
Proof.
  unfold main_pipeline, process_with_unstructured_io, main_failed.
  destruct (unstructured w) as [e|elements]; [reflexivity|]. cbn zeta.
  rewrite (filter_chunks_io_spec cfg elements). cbn [snd].
  destruct (filter_chunks cfg elements) as [|c chunks] eqn:F; [same_list|].
  rewrite (generate_embeddings_io_spec cfg (embeddings w) (c :: chunks)).
  cbn [snd].
  destruct (generate_embeddings cfg (embeddings w) (c :: chunks))
    as [|ec enriched] eqn:G; [same_list|].
  pose proof (index_log_outcome cfg (bulk_call w) (ec :: enriched)) as O.
  destruct (index_to_opensearch_io cfg (bulk_call w) (ec :: enriched))
    as [result done4]. cbn [fst snd] in *. subst result.
  destruct (bulk_call w (build_actions cfg (ec :: enriched))); same_list.
Qed.

Lemma ready_or_not w : ready w \/ ~ ready w.
Proof.
  unfold ready.
  destruct (key_set (UNSTRUCTURED_API_KEY w)); [|right; intuition congruence].
  destruct (key_set (OPENAI_API_KEY w)); [|right; intuition congruence].
  destruct (indices_exists w) as [e|[|]];
    try (right; intuition congruence).
  destruct (indices_get w) as [e|u].
  { right. intros (_ & _ & _ & [u H] & _). discriminate. }
  destruct (path_exists w); [|right; intuition congruence].
  left. repeat split; eauto.
Qed.

Lemma main_io_ready cfg w :
  ready w ->
  main_io cfg w =
  (fst (main_pipeline cfg w), preamble cfg ++ snd (main_pipeline cfg w)).
Proof.
  intros (K1 & K2 & E & [u G] & P).
  unfold main_io, verify_index_io. rewrite K1, K2, E, G, P. cbn [negb].
  now destruct (main_pipeline cfg w).
Qed.

Lemma main_io_unready cfg w :
  ~ ready w ->
  fst (main_io cfg w) = Returns /\
  forallb is_check (snd (main_io cfg w)) = true.
Proof.
  intros N. unfold main_io, verify_index_io, ready in *.
  destruct (key_set (UNSTRUCTURED_API_KEY w)); [|split; reflexivity].
  destruct (key_set (OPENAI_API_KEY w)); [|split; reflexivity].
  destruct (indices_exists w) as [e|[|]]; try (split; reflexivity).
  destruct (indices_get w) as [e|u]; [split; reflexivity|].
  destruct (path_exists w); [|split; reflexivity].
  exfalso. apply N. repeat split; eauto.
Qed.

Lemma checks_only done :
  forallb is_check done = true ->
  filter is_call done = filter
    (fun ef => match ef with
               | CallIndicesExists _ | CallIndicesGet _ | CallPathExists _ =>
                   true
               | _ => false
               end) done /\
  bulk_calls done = [] /\ embedding_calls done = [] /\
  ~ In (Print Completed) done /\ forall p, ~ In (CallUnstructured p) done.
Proof.
  induction done as [|ef l IH]; intros H.
  - repeat split; auto.
  - cbn [forallb] in H. apply andb_true_iff in H. destruct H as [C H].
    destruct (IH H) as (F & B & E & N & U).
    repeat split.
    + cbn [filter]. rewrite F. destruct ef; try discriminate; reflexivity.
    + cbn [bulk_calls flat_map]. fold (bulk_calls l). rewrite B.
      destruct ef; try discriminate; reflexivity.
    + cbn [embedding_calls flat_map]. fold (embedding_calls l). rewrite E.
      destruct ef; try discriminate; reflexivity.
    + intros [->|I]; [discriminate | tauto].
    + intros p [->|I]; [discriminate | now apply (U p)].
Qed.

Lemma ingest_actions_nil cfg embed elements :
  ingest_actions cfg embed elements = [] <->
  generate_embeddings cfg embed (filter_chunks cfg elements) = [].
Proof. unfold ingest_actions. apply build_actions_nil. Qed.

(** The calls to the bulk helper that the [try] block of [main] makes. *)
Lemma main_pipeline_bulk_calls cfg w :
  bulk_calls (snd (main_pipeline cfg w)) =
  match unstructured w with
  | Raised _ => []
  | Returned elements =>
      match ingest_actions cfg (embeddings w) elements with
      | [] => []
      | a :: l => [a :: l]
      end
  end.
Proof.
  rewrite main_pipeline_spec. cbn zeta.
  destruct (unstructured w) as [e|elements]; [reflexivity|].
  unfold ingest_actions.
  destruct (filter_chunks cfg elements) as [|c chunks] eqn:F.
  { cbn [snd]. rewrite !bulk_calls_app, filter_log_bulk_calls. reflexivity. }
  destruct (generate_embeddings cfg (embeddings w) (c :: chunks))
    as [|ec enriched] eqn:G.
  { cbn [snd]. rewrite !bulk_calls_app, filter_log_bulk_calls,
      embed_log_bulk_calls. reflexivity. }
  destruct (build_actions cfg (ec :: enriched)) as [|a l] eqn:B.
  { apply build_actions_nil in B. discriminate. }
  rewrite <- B.
  destruct (bulk_call w (build_actions cfg (ec :: enriched))); cbn [snd];
    rewrite !bulk_calls_app, filter_log_bulk_calls, embed_log_bulk_calls,
      index_log_bulk_calls; reflexivity.
Qed.

(** X18: [main] calls the bulk helper at most once, and only when both keys
    are set, the index is there, the document exists and the chunking
    service has answered; the batch is then the actions of the whole
    pipeline on the elements received, and it is never empty. *)
Theorem main_calls_bulk_at_most_once (cfg : Config) (w : World) :
  let done := snd (main_io cfg w) in
  bulk_calls done = [] \/
  (ready w /\
   exists elements,
     unstructured w = Returned elements /\
     ingest_actions cfg (embeddings w) elements <> [] /\
     bulk_calls done = [ingest_actions cfg (embeddings w) elements]).
Proof.
  intros done. subst done.
  destruct (ready_or_not w) as [R|N].
  - rewrite (main_io_ready cfg w R). cbn [snd].
    rewrite bulk_calls_app, main_pipeline_bulk_calls. cbn [preamble app].
    destruct (unstructured w) as [e|elements]; [now left|].
    destruct (ingest_actions cfg (embeddings w) elements) as [|a l] eqn:A;
      [now left|].
    right. split; auto. exists elements. rewrite A.
    repeat split; auto. discriminate.
  - left. now apply checks_only, main_io_unready.
Qed.

Lemma main_pipeline_outcome cfg w :
  fst (main_pipeline cfg w) =
  match unstructured w with
  | Raised e => Raises e
  | Returned elements =>
      match ingest_actions cfg (embeddings w) elements with
      | [] => Returns
      | a :: l =>
          match bulk_call w (a :: l) with
          | BulkReturned _ _ => Returns
          | BulkRaised e => Raises e
          end
      end
  end.
Proof.
  rewrite main_pipeline_spec. cbn zeta.
  destruct (unstructured w) as [e|elements]; [reflexivity|].
  unfold ingest_actions.
  destruct (filter_chunks cfg elements) as [|c chunks] eqn:F;
    [reflexivity|].
  destruct (generate_embeddings cfg (embeddings w) (c :: chunks))
    as [|ec enriched] eqn:G; [reflexivity|].
  destruct (build_actions cfg (ec :: enriched)) as [|a l] eqn:B.
  { apply build_actions_nil in B. discriminate. }
  now destruct (bulk_call w (a :: l)).
Qed.

(** X19: [main] ends with an exception in two cases only, both after its
    checks have passed: the chunking service raised, or the bulk call --
    made on a batch that is not empty -- raised; the exception is then the
    one that was raised. Missing keys, a missing index or document, elements
    that are all too short and embeddings that all fail make it return. *)
Theorem main_raises_iff (cfg : Config) (w : World) (e : string) :
  fst (main_io cfg w) = Raises e <->
  ready w /\
  (unstructured w = Raised e \/
   exists elements,
     unstructured w = Returned elements /\
     ingest_actions cfg (embeddings w) elements <> [] /\
     bulk_call w (ingest_actions cfg (embeddings w) elements) = BulkRaised e).
Proof.
  destruct (ready_or_not w) as [R|N].
  - rewrite (main_io_ready cfg w R). cbn [fst].
    rewrite main_pipeline_outcome.
    destruct (unstructured w) as [e'|elements].
    + split.
      * intros [= ->]. auto.
      * intros [_ [[= ->]|(x & H & _)]]; [reflexivity | discriminate].
    + destruct (ingest_actions cfg (embeddings w) elements) as [|a l] eqn:A.
      * split; [discriminate|].
        intros [_ [H|(x & [= <-] & H & _)]]; [discriminate|].
        rewrite A in H. congruence.
      * destruct (bulk_call w (a :: l)) as [e'|n failed] eqn:B.
        -- split.
           ++ intros [= ->]. split; auto. right. exists elements.
              rewrite A. repeat split; auto. discriminate.
           ++ intros [_ [H|(x & [= <-] & _ & H)]]; [discriminate|].
              rewrite A in H. congruence.
        -- split; [discriminate|].
           intros [_ [H|(x & [= <-] & _ & H)]]; [discriminate|].
           rewrite A in H. congruence.
  - destruct (main_io_unready cfg w N) as [-> _].
    split; [discriminate | tauto].
Qed.

Lemma main_raises_iff_witness :
  fst (main_io small_config failing_world) = Raises "401 Client Error".
Proof.
  apply (proj2 (main_raises_iff small_config failing_world
                  "401 Client Error")).
  split; [|now left].
  repeat split; try reflexivity. now exists tt.
Defined.

Lemma index_log_no_banner cfg bulk chunks :
  ~ In (Print Completed) (snd (index_to_opensearch_io cfg bulk chunks)).
Proof.
  unfold index_to_opensearch_io.
  destruct (report_bulk (bulk (build_actions cfg chunks))) as [printed o].
  cbn [snd]. intros [H|[H|H]]; try discriminate.
  apply in_map_iff in H. destruct H as (r & H & _). discriminate.
Qed.

Lemma filter_log_no_banner cfg elements :
  ~ In (Print Completed) (snd (filter_chunks_io cfg elements)).
Proof.
  intros H. apply filter_effects_are_prints in H.
  destruct H as (l & [= <-] & [H|(n & m & H)]); discriminate.
Qed.

Lemma embed_log_no_banner cfg embed chunks :
  ~ In (Print Completed) (snd (generate_embeddings_io cfg embed chunks)).
Proof.
  intros H. apply embed_effects_kinds in H.
  destruct H as [[t H]|[H|(l & [= <-] & H)]]; try discriminate.
  exact H.
Qed.

Lemma main_pipeline_banner cfg w :
  In (Print Completed) (snd (main_pipeline cfg w)) <->
  exists elements n failed,
    unstructured w = Returned elements /\
    ingest_actions cfg (embeddings w) elements <> [] /\
    bulk_call w (ingest_actions cfg (embeddings w) elements)
    = BulkReturned n failed.
Proof.
  rewrite main_pipeline_spec. cbn zeta.
  pose proof (filter_log_no_banner cfg) as NF.
  pose proof (embed_log_no_banner cfg (embeddings w)) as NE.
  pose proof (index_log_no_banner cfg (bulk_call w)) as NI.
  destruct (unstructured w) as [e|elements].
  { split.
    - cbn. intuition discriminate.
    - intros (x & n & f & H & _). discriminate. }
  unfold ingest_actions.
  destruct (filter_chunks cfg elements) as [|c chunks] eqn:F.
  { split.
    - cbn [snd]. rewrite !in_app_iff. cbn.
      specialize (NF elements). intuition discriminate.
    - intros (x & n & f & [= <-] & H & _). rewrite F in H. now elim H. }
  destruct (generate_embeddings cfg (embeddings w) (c :: chunks))
    as [|ec enriched] eqn:G.
  { split.
    - cbn [snd]. rewrite !in_app_iff. cbn.
      specialize (NF elements). specialize (NE (c :: chunks)).
      intuition discriminate.
    - intros (x & n & f & [= <-] & H & _). rewrite F, G in H. now elim H. }
  destruct (bulk_call w (build_actions cfg (ec :: enriched)))
    as [e|n failed] eqn:B.
  - split.
    + cbn [snd]. rewrite !in_app_iff. cbn.
      specialize (NF elements). specialize (NE (c :: chunks)).
      specialize (NI (ec :: enriched)). intuition discriminate.
    + intros (x & n & f & [= <-] & _ & H). rewrite F, G in H. congruence.
  - split.
    + intros _. exists elements, n, failed. rewrite F, G.
      repeat split; auto. intros H. apply build_actions_nil in H.
      discriminate.
    + intros _. cbn [snd]. rewrite !in_app_iff. cbn. tauto.
Qed.

(** X20: [main] prints that the ingestion completed successfully exactly
    when its checks passed, the chunking service answered, the batch was
    not empty and the bulk call returned -- whatever the bulk call
    returned: a run in which the index rejects every document prints it
    too. *)
Theorem main_success_banner (cfg : Config) (w : World) :
  In (Print Completed) (snd (main_io cfg w)) <->
  ready w /\
  exists elements n failed,
    unstructured w = Returned elements /\
    ingest_actions cfg (embeddings w) elements <> [] /\
    bulk_call w (ingest_actions cfg (embeddings w) elements)
    = BulkReturned n failed.
Proof.
  destruct (ready_or_not w) as [R|N].
  - rewrite (main_io_ready cfg w R). cbn [snd].
    rewrite in_app_iff, main_pipeline_banner. split; [|tauto].
    intros [H|H]; [|tauto]. cbn in H. intuition discriminate.
  - split; [|tauto]. intros H. exfalso.
    destruct (main_io_unready cfg w N) as [_ C].
    apply checks_only in C. tauto.
Qed.

Lemma main_success_banner_witness :
  In (Print Completed) (snd (main_io small_config rejecting_world)).
Proof.
  apply (proj2 (main_success_banner small_config rejecting_world)).
  split.
  - repeat split; try reflexivity. now exists tt.
  - eexists. exists 0. eexists. split; [reflexivity|]. split.
    + vm_compute. discriminate.
    + reflexivity.
Defined.

Lemma no_unstructured_calls done :
  (forall p, ~ In (CallUnstructured p) done) -> unstructured_calls done = [].
Proof.
  induction done as [|ef l IH]; intros H; [reflexivity|].
  cbn [unstructured_calls flat_map]. fold (unstructured_calls l).
  rewrite IH by (intros a Ha; apply (H a); now right).
  destruct ef; try reflexivity. exfalso. apply (H file_path). now left.
Qed.

Lemma unstructured_calls_app l1 l2 :
  unstructured_calls (l1 ++ l2)
  = unstructured_calls l1 ++ unstructured_calls l2.
Proof. apply flat_map_app. Qed.

Lemma main_pipeline_unstructured_calls cfg w :
  unstructured_calls (snd (main_pipeline cfg w)) = [DOCUMENT_PATH cfg].
Proof.
  rewrite main_pipeline_spec. cbn zeta.
  assert (forall elements,
             unstructured_calls (snd (filter_chunks_io cfg elements)) = [])
    as PF.
  { intros elements. apply no_unstructured_calls. intros p I.
    apply filter_effects_are_prints in I. destruct I as (l & I & _).
    discriminate. }
  assert (forall chunks,
             unstructured_calls
               (snd (generate_embeddings_io cfg (embeddings w) chunks)) = [])
    as PE.
  { intros chunks. apply no_unstructured_calls. intros p I.
    apply embed_effects_kinds in I.
    destruct I as [[t I]|[I|(l & I & _)]]; discriminate. }
  assert (forall chunks,
             unstructured_calls
               (snd (index_to_opensearch_io cfg (bulk_call w) chunks)) = [])
    as PI.
  { intros chunks. apply no_unstructured_calls. intros p.
    unfold index_to_opensearch_io.
    destruct (report_bulk (bulk_call w (build_actions cfg chunks))).
    cbn [snd]. intros [I|[I|I]]; try discriminate.
    apply in_map_iff in I. destruct I as (r & I & _). discriminate. }
  destruct (unstructured w) as [e|elements]; [reflexivity|].
  destruct (filter_chunks cfg elements) as [|c chunks].
  { cbn [snd]. now rewrite !unstructured_calls_app, PF. }
  destruct (generate_embeddings cfg (embeddings w) (c :: chunks))
    as [|ec enriched].
  { cbn [snd]. now rewrite !unstructured_calls_app, PF, PE. }
  destruct (bulk_call w (build_actions cfg (ec :: enriched))); cbn [snd];
    now rewrite !unstructured_calls_app, PF, PE, PI.
Qed.

(** X21: without both keys [main] calls no service at all; and it calls the
    chunking service at most once, for the configured document, and only
    when its checks have passed. *)
Theorem main_checks_before_calling (cfg : Config) (w : World) :
  let done := snd (main_io cfg w) in
  (key_set (UNSTRUCTURED_API_KEY w) = false \/
   key_set (OPENAI_API_KEY w) = false ->
   filter is_call done = []) /\
  (unstructured_calls done = [] \/
   (ready w /\ unstructured_calls done = [DOCUMENT_PATH cfg])).
Proof.
  intros done. subst done. split.
  - unfold main_io.
    destruct (key_set (UNSTRUCTURED_API_KEY w)); [|reflexivity].
    destruct (key_set (OPENAI_API_KEY w)); [|reflexivity].
    intros [H|H]; discriminate.
  - destruct (ready_or_not w) as [R|N].
    + right. split; auto. rewrite (main_io_ready cfg w R). cbn [snd].
      now rewrite unstructured_calls_app, main_pipeline_unstructured_calls.
    + left. destruct (main_io_unready cfg w N) as [_ C].
      apply checks_only in C. destruct C as (_ & _ & _ & _ & U).
      now apply no_unstructured_calls.
Qed.

Lemma main_checks_before_calling_witness :
  filter is_call (snd (main_io small_config keyless_world)) = [].
Proof.
  apply (proj1 (main_checks_before_calling small_config keyless_world)).
  right. reflexivity.
Defined.

Lemma main_pipeline_embedding_calls cfg w :
  embedding_calls (snd (main_pipeline cfg w)) =
  match unstructured w with
  | Raised _ => []
  | Returned elements => map text (filter_chunks cfg elements)
  end.
Proof.
  rewrite main_pipeline_spec. cbn zeta.
  destruct (unstructured w) as [e|elements]; [reflexivity|].
  pose proof (embed_log_embedding_calls cfg (embeddings w)
                (filter_chunks cfg elements)) as PE.
  destruct (filter_chunks cfg elements) as [|c chunks].
  { cbn [snd]. now rewrite !embedding_calls_app, filter_log_embedding_calls. }
  destruct (generate_embeddings cfg (embeddings w) (c :: chunks))
    as [|ec enriched].
  { cbn [snd].
    rewrite !embedding_calls_app, filter_log_embedding_calls, PE.
    cbn [embedding_calls flat_map app]. now rewrite app_nil_r. }
  destruct (bulk_call w (build_actions cfg (ec :: enriched))); cbn [snd];
    rewrite !embedding_calls_app, filter_log_embedding_calls, PE,
      index_log_embedding_calls; cbn [embedding_calls flat_map app];
    now rewrite app_nil_r.
Qed.

(** X22: in a run of [main] the embedding provider is asked for the texts of
    the chunks that [filter_chunks] keeps, each once and in order, and for
    nothing else: not for a dropped element, and not at all when a check
    fails or the chunking service raises. *)
Theorem main_embeds_kept_chunks (cfg : Config) (w : World) :
  let done := snd (main_io cfg w) in
  (forall elements,
      ready w -> unstructured w = Returned elements ->
      embedding_calls done = map text (filter_chunks cfg elements)) /\
  (~ ready w \/ (exists e, unstructured w = Raised e) ->
   embedding_calls done = []).
Proof.
  intros done. subst done. split.
  - intros elements R U. rewrite (main_io_ready cfg w R). cbn [snd].
    rewrite embedding_calls_app, main_pipeline_embedding_calls, U.
    reflexivity.
  - intros [N|[e U]].
    + now apply checks_only, main_io_unready.
    + destruct (ready_or_not w) as [R|N].
      * rewrite (main_io_ready cfg w R). cbn [snd].
        rewrite embedding_calls_app, main_pipeline_embedding_calls, U.
        reflexivity.
      * now apply checks_only, main_io_unready.
Qed.

Lemma main_embeds_kept_chunks_witness :
  embedding_calls (snd (main_io small_config rejecting_world))
  = [letters "b" 150; letters "c" 100].
Proof.
  refine (proj1 (main_embeds_kept_chunks small_config rejecting_world)
            _ _ eq_refl).
  repeat split; try reflexivity. now exists tt.
Defined.


(** ** The OpenSearch endpoint *)

Lemma starts_with_prefix old s :
  starts_with old s = true -> exists rest, s = old ++ rest.
Proof.
  revert s. induction old as [|a old IH]; intros s H.
  - now exists s.
  - destruct s as [|b s]; simpl in H; [discriminate|].
    apply andb_prop in H. destruct H as [E H].
    apply Ascii.eqb_eq in E. subst b.
    destruct (IH s H) as [rest ->]. now exists rest.
Qed.

Lemma starts_with_In old s c :
  starts_with old s = true -> In c old -> In c s.
Proof.
  intros H Hin. destruct (starts_with_prefix old s H) as [rest ->].
  apply in_or_app. now left.
Qed.

Lemma replace_absent old new s :
  (forall before after, s = before ++ after -> starts_with old after = false) ->
  replace_from old new 0 s = s.
Proof.
  induction s as [|c s IH]; intros H; [reflexivity|].
  cbn [replace_from]. rewrite (H [] (c :: s) eq_refl). f_equal.
  apply IH. intros before after E. apply (H (c :: before) after).
  simpl. now rewrite E.
Qed.

Lemma first_separator {A} (c : A) a b a' b' :
  a ++ c :: b = a' ++ c :: b' -> ~ In c a -> ~ In c a' -> a = a' /\ b = b'.
Proof.
  revert a'. induction a as [|x a IH]; intros [|y a'] E Ha Ha'; simpl in *.
  - injection E as E. now split.
  - injection E as E1 E2. exfalso. apply Ha'. now left.
  - injection E as E1 E2. exfalso. apply Ha. now left.
  - injection E as E1 E2. subst y.
    destruct (IH a' E2) as [-> ->]; auto.
Qed.

(** No occurrence of a pattern [pre ++ "://"] begins in [h] or at the colon,
    when [h] has no colon and what follows the colon does not begin with
    two slashes. *)
Lemma scheme_absent pre h q :
  let old := pre ++ PyStr.chars "://" in
  ~ In ":"%char pre -> ~ In ":"%char h ->
  starts_with (PyStr.chars "//") q = false ->
  (forall before after, q = before ++ after -> starts_with old after = false) ->
  forall before after,
    h ++ ":"%char :: q = before ++ after -> starts_with old after = false.
Proof.
  intros old Hpre Hh Hq Hin before after E.
  destruct (starts_with old after) eqn:S; [exfalso|reflexivity].
  destruct (starts_with_prefix _ _ S) as [rest R].
  unfold old in R. rewrite <- app_assoc in R. simpl in R.
  destruct (app_eq_app _ _ _ _ E) as [l [[E1 E2]|[E1 E2]]].
  - assert (Hl : ~ In ":"%char l).
    { intros I. apply Hh. rewrite E1. apply in_or_app. now right. }
    rewrite R in E2.
    destruct (first_separator _ _ _ _ _ E2 Hpre Hl) as [_ E3].
    rewrite <- E3 in Hq. simpl in Hq. discriminate.
  - destruct l as [|x l]; simpl in E2.
    + rewrite R in E2.
      assert (Hnil : ~ In ":"%char (@nil ascii)) by (intros []).
      change (":"%char :: q) with ([] ++ ":"%char :: q) in E2.
      destruct (first_separator _ _ _ _ _ E2 Hnil Hpre) as [_ E3].
      rewrite E3 in Hq. simpl in Hq. discriminate.
    + injection E2 as _ E2. rewrite (Hin l after E2) in S. discriminate.
Qed.

Lemma pattern_absent c old s :
  In c old -> ~ In c s ->
  forall before after, s = before ++ after -> starts_with old after = false.
Proof.
  intros Hc Hs before after E.
  destruct (starts_with old after) eqn:S; [exfalso|reflexivity].
  apply Hs. rewrite E. apply in_or_app. right.
  now apply (starts_with_In old).
Qed.

Lemma opensearch_host_plain s :
  (forall pre, In pre [PyStr.chars "http"; PyStr.chars "https"] ->
   forall before after, PyStr.chars s = before ++ after ->
   starts_with (pre ++ PyStr.chars "://") after = false) ->
  opensearch_host s = s.
Proof.
  intros H. unfold opensearch_host.
  assert (E : str_replace "http://" "" s = s).
  { unfold str_replace. apply chars_inj. rewrite chars_of_chars.
    apply replace_absent. apply (H (PyStr.chars "http")). simpl. auto. }
  rewrite E. unfold str_replace. apply chars_inj. rewrite chars_of_chars.
  apply replace_absent. apply (H (PyStr.chars "https")). simpl. auto.
Qed.

Lemma colon_not_in_scheme pre :
  In pre [PyStr.chars "http"; PyStr.chars "https"] -> ~ In ":"%char pre.
Proof.
  intros [<-|[<-|[]]]; simpl; intros H;
    repeat (destruct H as [H|H]; [discriminate|]); exact H.
Qed.

Lemma split_on_absent sep s : ~ In sep s -> split_on sep s = [s].
Proof.
  induction s as [|c s IH]; intros H; [reflexivity|].
  simpl. destruct (Ascii.eqb c sep) eqn:E.
  - apply Ascii.eqb_eq in E. exfalso. apply H. now left.
  - rewrite IH; [reflexivity|]. intros I. apply H. now right.
Qed.

Lemma split_on_first sep h t :
  ~ In sep h -> split_on sep (h ++ sep :: t) = h :: split_on sep t.
Proof.
  induction h as [|c h IH]; intros H; simpl.
  - now rewrite Ascii.eqb_refl.
  - destruct (Ascii.eqb c sep) eqn:E.
    + apply Ascii.eqb_eq in E. exfalso. apply H. now left.
    + rewrite IH; [reflexivity|]. intros I. apply H. now right.
Qed.

Lemma of_chars_chars s : PyStr.of_chars (PyStr.chars s) = s.
Proof. apply string_of_list_ascii_of_string. Qed.

(** The endpoint read from [h:q], when no scheme stands in it. *)
Lemma hosts_two_parts h q :
  without ":" h -> without ":" q -> ~ begins_with "//" q ->
  hosts (h ++ ":" ++ q) =
  match py_int q with
  | Some n => Returned {| host := h; port := n |}
  | None => Raised ValueError
  end.
Proof.
  intros Hh Hq Hs. unfold hosts, host_parts.
  rewrite opensearch_host_plain.
  - unfold str_split. rewrite chars_app. simpl.
    rewrite split_on_first by exact Hh.
    rewrite split_on_absent by exact Hq.
    simpl. now rewrite !of_chars_chars.
  - intros pre Hpre before after E. rewrite chars_app in E. simpl in E.
    refine (scheme_absent pre _ _ (colon_not_in_scheme _ Hpre) Hh _ _ _ _ E).
    + unfold begins_with in Hs. now destruct (starts_with _ _).
    + apply (pattern_absent ":"%char); [|exact Hq].
      apply in_or_app. right. simpl. auto.
Qed.

(** *** Numerals *)

Lemma drop_while_keeps {A} (p : A -> bool) c l :
  In c l -> p c = false -> In c (PyStr.drop_while p l).
Proof.
  induction l as [|x l IH]; intros Hin Hc; [destruct Hin|].
  simpl. destruct (p x) eqn:E.
  - destruct Hin as [->|Hin]; [congruence|]. now apply IH.
  - exact Hin.
Qed.

Lemma drop_while_sub {A} (p : A -> bool) c l :
  In c (PyStr.drop_while p l) -> In c l.
Proof.
  induction l as [|x l IH]; simpl; auto.
  destruct (p x); simpl; auto.
Qed.

Lemma take_while_sub {A} (p : A -> bool) c l :
  In c (PyStr.take_while p l) -> In c l.
Proof.
  induction l as [|x l IH]; simpl; auto.
  destruct (p x); simpl; [intros [->|H]; auto|intros []].
Qed.

Lemma signed_sub c l : In c (snd (signed l)) -> In c l.
Proof.
  destruct l as [|x l]; simpl; auto.
  destruct (PyChar.between 45 45 x); simpl; auto.
  destruct (PyChar.between 43 43 x); simpl; auto.
Qed.

Lemma signed_keeps c l :
  In c l -> PyChar.between 43 43 c = false -> PyChar.between 45 45 c = false ->
  In c (snd (signed l)).
Proof.
  destruct l as [|x l]; simpl; auto.
  intros Hin Hp Hm.
  destruct (PyChar.between 45 45 x) eqn:E1; simpl.
  - destruct Hin as [->|Hin]; [congruence|exact Hin].
  - destruct (PyChar.between 43 43 x) eqn:E2; simpl.
    + destruct Hin as [->|Hin]; [congruence|exact Hin].
    + exact Hin.
Qed.

Lemma grouped_digit b l :
  grouped b l = true -> b = true \/ existsb is_digit l = true.
Proof.
  revert b. induction l as [|c l IH]; intros b H; simpl in *; auto.
  destruct (is_digit c); simpl; auto.
  destruct (is_underscore c); [|discriminate].
  apply andb_prop in H. destruct H as [-> _]. now left.
Qed.

Lemma existsb_sub {A} (p : A -> bool) l l' :
  (forall c, In c l -> In c l') -> existsb p l = true -> existsb p l' = true.
Proof.
  intros Hsub H. apply existsb_exists in H. destruct H as [c [Hin Hc]].
  apply existsb_exists. exists c. auto.
Qed.

Lemma py_int_unreadable s : unreadable s -> py_int s = None.
Proof.
  intros H. unfold py_int.
  destruct (signed (PyStr.drop_while is_int_space (PyStr.chars s)))
    as [negative l] eqn:Es.
  assert (El : l = snd (signed (PyStr.drop_while is_int_space (PyStr.chars s))))
    by now rewrite Es.
  destruct (grouped false (PyStr.take_while in_numeral l)) eqn:G;
    [|reflexivity].
  simpl negb. cbv iota.
  destruct (int_max_str_digits <?
            List.length (filter is_digit (PyStr.take_while in_numeral l)));
    [reflexivity|].
  assert (R : forallb is_int_space (PyStr.drop_while in_numeral l) = false);
    [|now rewrite R].
  destruct H as [H|H].
  - exfalso. apply grouped_digit in G. destruct G as [G|G]; [discriminate|].
    assert (existsb is_digit (PyStr.chars s) = true); [|congruence].
    revert G. apply existsb_sub. intros c Hc.
    apply take_while_sub in Hc. rewrite El in Hc.
    apply signed_sub in Hc. now apply drop_while_sub in Hc.
  - destruct (forallb is_int_space (PyStr.drop_while in_numeral l)) eqn:F;
      [exfalso|reflexivity].
    assert (forallb int_character (PyStr.chars s) = true); [|congruence].
    apply forallb_forall. intros c Hc.
    destruct (int_character c) eqn:Ec; [reflexivity|exfalso].
    unfold int_character in Ec.
    apply orb_false_elim in Ec. destruct Ec as [Ec Em].
    apply orb_false_elim in Ec. destruct Ec as [Ec Ep].
    apply orb_false_elim in Ec. destruct Ec as [Ew En].
    assert (Hl : In c l).
    { rewrite El. apply signed_keeps; auto. now apply drop_while_keeps. }
    assert (Hr : In c (PyStr.drop_while in_numeral l))
      by now apply drop_while_keeps.
    rewrite forallb_forall in F. specialize (F c Hr). congruence.
Qed.

Lemma uint_digits d :
  forallb is_digit (PyStr.chars (NilEmpty.string_of_uint d)) = true.
Proof. induction d; simpl; auto. Qed.

Lemma decimal_uint n :
  decimal n = NilEmpty.string_of_uint (N.to_uint n) /\
  N.to_uint n <> Decimal.Nil.
Proof.
  unfold decimal. destruct n as [|p]; simpl.
  { split; [reflexivity|discriminate]. }
  pose proof (DecimalPos.Unsigned.to_uint_nonnil p) as H.
  destruct (Pos.to_uint p); try (split; [reflexivity|discriminate]).
  now destruct H.
Qed.

Lemma decimal_digits n :
  exists c l, PyStr.chars (decimal n) = c :: l /\
              is_digit c = true /\ forallb is_digit l = true.
Proof.
  destruct (decimal_uint n) as [E H]. rewrite E.
  pose proof (uint_digits (N.to_uint n)) as D.
  destruct (N.to_uint n) eqn:U; try congruence; simpl in *;
    eexists; eexists; (split; [reflexivity|]); split; auto.
Qed.

Lemma take_while_whole {A} (p : A -> bool) l :
  forallb p l = true ->
  PyStr.take_while p l = l /\ PyStr.drop_while p l = [].
Proof.
  induction l as [|x l IH]; simpl; auto.
  intros H. apply andb_prop in H. destruct H as [-> H].
  destruct (IH H) as [-> ->]. auto.
Qed.

Lemma filter_whole {A} (p : A -> bool) l :
  forallb p l = true -> filter p l = l.
Proof.
  induction l as [|x l IH]; simpl; auto.
  intros H. apply andb_prop in H. destruct H as [-> H]. now rewrite IH.
Qed.

Lemma grouped_digits l : forallb is_digit l = true -> grouped true l = true.
Proof.
  induction l as [|x l IH]; simpl; auto.
  intros H. apply andb_prop in H. destruct H as [-> H]. auto.
Qed.

Lemma digit_kind c :
  is_digit c = true ->
  is_int_space c = false /\ PyChar.between 45 45 c = false /\
  PyChar.between 43 43 c = false /\ in_numeral c = true.
Proof.
  unfold is_digit, is_int_space, in_numeral, is_digit, PyChar.between.
  intros H. apply andb_prop in H. destruct H as [H1 H2].
  apply N.leb_le in H1. apply N.leb_le in H2.
  repeat split;
    repeat match goal with
    | |- (_ || _) = false => apply orb_false_intro
    | |- (_ && _) = false => apply andb_false_iff
    end;
    try (left; apply N.leb_gt; lia); try (right; apply N.leb_gt; lia).
  apply orb_true_iff. left. apply andb_true_iff.
  split; apply N.leb_le; lia.
Qed.

Lemma digits_in_numeral l :
  forallb is_digit l = true -> forallb in_numeral l = true.
Proof.
  intros H. apply forallb_forall. intros c Hc.
  rewrite forallb_forall in H. apply (digit_kind c (H c Hc)).
Qed.

(** [int] reads a run of digits, also after a minus sign. *)
Lemma py_int_digits s :
  s <> "" -> forallb is_digit (PyStr.chars s) = true ->
  String.length s <= int_max_str_digits ->
  py_int s = option_map Z.of_uint (NilEmpty.uint_of_string s) /\
  py_int ("-" ++ s) =
  option_map (fun d => (- Z.of_uint d)%Z) (NilEmpty.uint_of_string s).
Proof.
  intros Hs Hd Hlen.
  assert (body : forall negative : bool,
    (let l := PyStr.chars s in
     let numeral := PyStr.take_while in_numeral l in
     let rest := PyStr.drop_while in_numeral l in
     let digits := filter is_digit numeral in
     if negb (grouped false numeral) then None
     else if int_max_str_digits <? List.length digits then None
     else if negb (forallb is_int_space rest) then None
     else
       match NilEmpty.uint_of_string (PyStr.of_chars digits) with
       | Some d => Some (if negative then (- Z.of_uint d)%Z else Z.of_uint d)
       | None => None
       end) =
    option_map (fun d => if negative then (- Z.of_uint d)%Z else Z.of_uint d)
               (NilEmpty.uint_of_string s)).
  { intros negative. cbv zeta.
    destruct (take_while_whole in_numeral _ (digits_in_numeral _ Hd))
      as [-> ->].
    rewrite (filter_whole _ _ Hd), of_chars_chars, chars_length.
    assert (G : grouped false (PyStr.chars s) = true).
    { destruct s as [|c s]; [congruence|]. simpl in *.
      apply andb_prop in Hd. destruct Hd as [-> Hd].
      now apply grouped_digits. }
    rewrite G. apply Nat.ltb_ge in Hlen. rewrite Hlen. simpl.
    now destruct (NilEmpty.uint_of_string s). }
  assert (first : exists c l, PyStr.chars s = c :: l /\ is_digit c = true).
  { destruct s as [|c s]; [congruence|]. simpl in Hd.
    apply andb_prop in Hd. destruct Hd as [Hc _].
    now exists c, (PyStr.chars s). }
  destruct first as [c [l [E Hc]]].
  destruct (digit_kind c Hc) as [Hw [Hm [Hp _]]].
  split.
  - refine (eq_trans _ (body false)). unfold py_int. rewrite E.
    cbn [PyStr.drop_while]. rewrite Hw. cbn [signed].
    now rewrite Hm, Hp.
  - refine (eq_trans _ (body true)). unfold py_int.
    rewrite chars_app, E. reflexivity.
Qed.

Lemma py_int_decimal n :
  String.length (decimal n) <= int_max_str_digits ->
  py_int (decimal n) = Some (Z.of_N n) /\
  py_int ("-" ++ decimal n) = Some (- Z.of_N n)%Z.
Proof.
  intros Hlen.
  destruct (decimal_digits n) as [c [l [E [Hc Hl]]]].
  destruct (py_int_digits (decimal n)) as [P M]; auto.
  - intros Z. rewrite Z in E. discriminate.
  - rewrite E. simpl. now rewrite Hc.
  - destruct (decimal_uint n) as [U _].
    rewrite P, M, U, NilEmpty.usu. simpl.
    unfold Z.of_uint. change (Pos.of_uint (N.to_uint n)) with
      (N.of_uint (N.to_uint n)).
    now rewrite DecimalN.Unsigned.of_to.
Qed.

(** *** Schemes *)

Lemma opensearch_host_http s :
  opensearch_host ("http://" ++ s) = opensearch_host s.
Proof. reflexivity. Qed.

Lemma opensearch_host_https s :
  opensearch_host ("https://" ++ s) = opensearch_host s.
Proof.
  unfold opensearch_host, str_replace. simpl.
  now rewrite !chars_of_chars.
Qed.

(** X23: a leading "http://" or "https://" of [OPENSEARCH_HOST] makes no
    difference to the host and port given to the client, nor to whether the
    import fails: the value is read as if the scheme were not there. *)
Theorem scheme_is_ignored s :
  hosts ("http://" ++ s) = hosts s /\ hosts ("https://" ++ s) = hosts s.
Proof.
  unfold hosts, host_parts.
  now rewrite opensearch_host_http, opensearch_host_https.
Qed.

(** X24: a value of [OPENSEARCH_HOST] without a colon is taken whole as the
    host, with port 9200. *)
Theorem port_defaults_to_9200 s :
  without ":" s -> hosts s = Returned {| host := s; port := 9200 |}.
Proof.
  intros H. unfold hosts, host_parts.
  rewrite opensearch_host_plain.
  - unfold str_split. rewrite split_on_absent by exact H.
    simpl. now rewrite of_chars_chars.
  - intros pre Hpre. apply (pattern_absent ":"%char); [|exact H].
    apply in_or_app. right. simpl. auto.
Qed.

Lemma port_defaults_to_9200_witness :
  hosts "opensearch-node1" =
  Returned {| host := "opensearch-node1"; port := 9200 |}.
Proof.
  apply (port_defaults_to_9200 "opensearch-node1").
  unfold without. simpl. intros H.
  repeat (destruct H as [H|H]; [discriminate|]). exact H.
Defined.

Lemma digits_without c s :
  is_digit c = false -> forallb is_digit (PyStr.chars s) = true ->
  without c s.
Proof.
  intros Hc H I. rewrite forallb_forall in H. specialize (H c I). congruence.
Qed.

Lemma decimal_all_digits n : forallb is_digit (PyStr.chars (decimal n)) = true.
Proof.
  destruct (decimal_digits n) as [c [l [E [Hc Hl]]]].
  rewrite E. simpl. now rewrite Hc.
Qed.

(** X25: a port written as a decimal numeral, with or without a minus sign,
    is read back as that number, whatever its size: there is no check that
    it is a port number. The host is what stands before the colon. *)
Theorem numeric_port_round_trip h n :
  without ":" h ->
  String.length (decimal n) <= int_max_str_digits ->
  hosts (h ++ ":" ++ decimal n) =
    Returned {| host := h; port := Z.of_N n |} /\
  hosts (h ++ ":-" ++ decimal n) =
    Returned {| host := h; port := (- Z.of_N n)%Z |}.
Proof.
  intros Hh Hlen.
  destruct (py_int_decimal n Hlen) as [P M].
  destruct (decimal_digits n) as [c [l [E [Hc Hl]]]].
  pose proof (decimal_all_digits n) as D.
  split.
  - rewrite hosts_two_parts; auto.
    + now rewrite P.
    + now apply digits_without.
    + unfold begins_with. rewrite E.
      cbn [starts_with PyStr.chars list_ascii_of_string].
      destruct (Ascii.eqb "/" c) eqn:Q; [|discriminate].
      apply Ascii.eqb_eq in Q. subst c. discriminate.
  - change (h ++ ":-" ++ decimal n)%string
      with (h ++ ":" ++ ("-" ++ decimal n))%string.
    rewrite hosts_two_parts; auto.
    + now rewrite M.
    + unfold without. simpl. intros [Q|Q]; [discriminate|].
      revert Q. now apply digits_without.
    + unfold begins_with. simpl. discriminate.
Qed.

Lemma numeric_port_round_trip_witness :
  hosts "localhost:70000" =
    Returned {| host := "localhost"; port := 70000 |} /\
  hosts "localhost:-70000" =
    Returned {| host := "localhost"; port := (-70000)%Z |}.
Proof.
  apply (numeric_port_round_trip "localhost" 70000).
  - unfold without. simpl. intros H.
    repeat (destruct H as [H|H]; [discriminate|]). exact H.
  - apply Nat.leb_le. vm_compute. reflexivity.
Defined.

(** X26: when what follows the colon has no digit, or has a character that
    is no digit, underscore, sign or white space (a slash, a path, a
    letter), reading the port raises [ValueError] and the import fails. *)
Theorem malformed_port_raises h q :
  without ":" h -> without ":" q -> ~ begins_with "//" q ->
  unreadable q ->
  hosts (h ++ ":" ++ q) = Raised ValueError.
Proof.
  intros Hh Hq Hs Hu.
  rewrite hosts_two_parts by assumption.
  now rewrite py_int_unreadable.
Qed.

Lemma malformed_port_raises_witness :
  hosts "localhost:9200/" = Raised ValueError /\
  hosts "localhost:" = Raised ValueError.
Proof.
  split.
  - apply (malformed_port_raises "localhost" "9200/").
    + unfold without. simpl. intros H.
      repeat (destruct H as [H|H]; [discriminate|]). exact H.
    + unfold without. simpl. intros H.
      repeat (destruct H as [H|H]; [discriminate|]). exact H.
    + unfold begins_with. simpl. discriminate.
    + right. reflexivity.
  - apply (malformed_port_raises "localhost" "").
    + unfold without. simpl. intros H.
      repeat (destruct H as [H|H]; [discriminate|]). exact H.
    + unfold without. simpl. intros H. exact H.
    + unfold begins_with. simpl. discriminate.
    + left. reflexivity.
Defined.

Lemma starts_two_slashes q t :
  starts_with (PyStr.chars "//") q = false ->
  starts_with (PyStr.chars "//") (q ++ ":"%char :: t) = false.
Proof.
  destruct q as [|a [|b q]];
    cbn [starts_with PyStr.chars list_ascii_of_string app]; auto.
Qed.

(** X27: only the text before the first colon and the text between the
    first and the second colon are used; whatever follows a second colon
    is ignored, and does not make the import fail. *)
Theorem later_parts_are_ignored h q rest :
  without ":" h -> without ":" q -> ~ begins_with "//" q ->
  without "/" rest ->
  hosts (h ++ ":" ++ q ++ ":" ++ rest) = hosts (h ++ ":" ++ q).
Proof.
  intros Hh Hq Hs Hr.
  rewrite (hosts_two_parts h q) by assumption.
  assert (Hs' : starts_with (PyStr.chars "//") (PyStr.chars q) = false).
  { unfold begins_with in Hs. now destruct (starts_with _ _). }
  unfold hosts, host_parts.
  rewrite opensearch_host_plain.
  - unfold str_split. rewrite chars_app. simpl. rewrite chars_app. simpl.
    rewrite split_on_first by exact Hh.
    rewrite split_on_first by exact Hq.
    simpl. now rewrite !of_chars_chars.
  - intros pre Hpre before after E.
    rewrite chars_app in E. simpl in E. rewrite chars_app in E. simpl in E.
    pose proof (colon_not_in_scheme _ Hpre) as Hc.
    refine (scheme_absent pre _ _ Hc Hh _ _ _ _ E).
    + now apply starts_two_slashes.
    + apply (scheme_absent pre _ _ Hc Hq).
      * destruct (PyStr.chars rest) as [|a [|b r]] eqn:R;
          cbn [starts_with PyStr.chars list_ascii_of_string]; auto.
        -- apply andb_false_r.
        -- destruct (Ascii.eqb "/" a) eqn:Q; [|reflexivity].
           apply Ascii.eqb_eq in Q. subst a. exfalso. apply Hr.
           rewrite R. now left.
      * apply (pattern_absent "/"%char); [|exact Hr].
        apply in_or_app. right. simpl. auto.
Qed.

Lemma later_parts_are_ignored_witness :
  hosts "localhost:9200:9300" = hosts "localhost:9200".
Proof.
  apply (later_parts_are_ignored "localhost" "9200" "9300").
  - unfold without. simpl. intros H.
    repeat (destruct H as [H|H]; [discriminate|]). exact H.
  - unfold without. simpl. intros H.
    repeat (destruct H as [H|H]; [discriminate|]). exact H.
  - unfold begins_with. simpl. discriminate.
  - unfold without. simpl. intros H.
    repeat (destruct H as [H|H]; [discriminate|]). exact H.
Defined.
